(** * Remote-support signalling: the peer negotiation hook, the relay and the
      guest input handlers

    A shallow embedding of [useWebRTC] (the negotiation hook), of the
    socket relay in [pages/api/socket.ts] and of the pointer handlers of the
    guest page, together with the properties the specification states
    about them.

    Conventions of the embedding.
    - The refs of the hook ([peerConnectionsRef], [dataChannelsRef],
      [pendingCandidatesRef], [isInitiatorRef], [inputCallbackRef]) and its
      React state ([connectedUsers], [remoteStream]) are the fields of one
      record [HookState]; every handler is a function on that record.
    - JavaScript [Map]s keyed by participant id are [gmap string _].
    - An [RTCPeerConnection] is a mutable browser object reached only through
      the map entry of its participant; a handler that mutates it writes the
      new value back under the same key ([store_pc]).
    - What the hook does to the outside world ([socket.emit], [console.*])
      is recorded, oldest first, in the [effects] field.
    - An [async] handler is run to completion: the embedding does not
      interleave two handlers at an [await].
    - The browser is a parameter ([Browser]): which descriptions and
      candidates it accepts and what SDP text it produces. The signalling
      state table is the one of the WebRTC recommendation. *)

From stdpp Require Import gmap strings list.
From Stdlib Require Import Floats.

Set Default Proof Using "Type".

(** ** Payloads carried by the signalling messages *)

Inductive RTCSdpType := SdpOffer | SdpAnswer | SdpPranswer | SdpRollback.

Record RTCSessionDescriptionInit := mkSD {
  sd_type : RTCSdpType;
  sd_sdp : string
}.

Record RTCIceCandidateInit := mkCand {
  cand_candidate : string;
  cand_sdpMLineIndex : nat
}.

(** A media track of the local stream, by its id. *)
Definition Track := string.

(** ** The browser's RTCPeerConnection, as far as the hook observes it *)

Inductive RTCSignalingState :=
  | Stable | HaveLocalOffer | HaveRemoteOffer
  | HaveLocalPranswer | HaveRemotePranswer | Closed.

Inductive RTCPeerConnectionState :=
  | ConnNew | Connecting | Connected | Disconnected | Failed | ConnClosed.

Global Instance RTCSignalingState_eq_dec : EqDecision RTCSignalingState.
Proof. solve_decision. Defined.
Global Instance RTCPeerConnectionState_eq_dec : EqDecision RTCPeerConnectionState.
Proof. solve_decision. Defined.

Record RTCPeerConnection := mkPC {
  (** identity of the transport object: the n-th [new RTCPeerConnection] *)
  pc_handle : nat;
  signalingState : RTCSignalingState;
  localDescription : option RTCSessionDescriptionInit;
  remoteDescription : option RTCSessionDescriptionInit;
  (** tracks given to [addTrack], in order *)
  pc_senders : list Track;
  (** channels opened with [createDataChannel]: label and [ordered] flag *)
  pc_channels : list (string * bool);
  (** every [addIceCandidate] call, in order, with whether it resolved *)
  pc_iceCalls : list (RTCIceCandidateInit * bool)
}.

Record Browser := mkBrowser {
  (** SDP text of [createOffer]; [None] when the promise rejects *)
  offerSdp : RTCPeerConnection → option string;
  (** SDP text of [createAnswer]; [None] when the promise rejects *)
  answerSdp : RTCPeerConnection → option string;
  acceptsLocal : RTCPeerConnection → RTCSessionDescriptionInit → bool;
  acceptsRemote : RTCPeerConnection → RTCSessionDescriptionInit → bool;
  acceptsCandidate : RTCPeerConnection → RTCIceCandidateInit → bool
}.

Module PC.

Definition fresh (h : nat) : RTCPeerConnection :=
  mkPC h Stable None None [] [] [].

Definition with_signaling (s : RTCSignalingState) (pc : RTCPeerConnection) :=
  mkPC (pc_handle pc) s (localDescription pc) (remoteDescription pc)
       (pc_senders pc) (pc_channels pc) (pc_iceCalls pc).

Definition with_local (d : RTCSessionDescriptionInit) (pc : RTCPeerConnection) :=
  mkPC (pc_handle pc) (signalingState pc) (Some d) (remoteDescription pc)
       (pc_senders pc) (pc_channels pc) (pc_iceCalls pc).

Definition with_remote (d : RTCSessionDescriptionInit) (pc : RTCPeerConnection) :=
  mkPC (pc_handle pc) (signalingState pc) (localDescription pc) (Some d)
       (pc_senders pc) (pc_channels pc) (pc_iceCalls pc).

Definition addTrack (pc : RTCPeerConnection) (t : Track) :=
  mkPC (pc_handle pc) (signalingState pc) (localDescription pc)
       (remoteDescription pc) (pc_senders pc ++ [t]) (pc_channels pc)
       (pc_iceCalls pc).

Definition createDataChannel (label : string) (ordered : bool)
    (pc : RTCPeerConnection) :=
  mkPC (pc_handle pc) (signalingState pc) (localDescription pc)
       (remoteDescription pc) (pc_senders pc)
       (pc_channels pc ++ [(label, ordered)]) (pc_iceCalls pc).

(** Signalling state reached by installing a local description. *)
Definition local_transition (s : RTCSignalingState) (t : RTCSdpType)
    : option RTCSignalingState :=
  match t, s with
  | SdpOffer, (Stable | HaveLocalOffer) => Some HaveLocalOffer
  | SdpAnswer, (HaveRemoteOffer | HaveLocalPranswer) => Some Stable
  | SdpPranswer, (HaveRemoteOffer | HaveLocalPranswer) => Some HaveLocalPranswer
  | SdpRollback, (HaveLocalOffer | HaveLocalPranswer) => Some Stable
  | _, _ => None
  end.

(** Signalling state reached by installing a remote description. A remote
    offer on top of a local one rolls the local one back implicitly. *)
Definition remote_transition (s : RTCSignalingState) (t : RTCSdpType)
    : option RTCSignalingState :=
  match t, s with
  | SdpOffer, (Stable | HaveRemoteOffer | HaveLocalOffer) => Some HaveRemoteOffer
  | SdpAnswer, (HaveLocalOffer | HaveRemotePranswer) => Some Stable
  | SdpPranswer, (HaveLocalOffer | HaveRemotePranswer) => Some HaveRemotePranswer
  | SdpRollback, (HaveRemoteOffer | HaveRemotePranswer) => Some Stable
  | _, _ => None
  end.

Section Ops.
Variable B : Browser.

Definition createOffer (pc : RTCPeerConnection)
    : option RTCSessionDescriptionInit :=
  match signalingState pc with
  | Closed => None
  | _ => mkSD SdpOffer <$> offerSdp B pc
  end.

Definition createAnswer (pc : RTCPeerConnection)
    : option RTCSessionDescriptionInit :=
  match signalingState pc with
  | HaveRemoteOffer | HaveLocalPranswer => mkSD SdpAnswer <$> answerSdp B pc
  | _ => None
  end.

Definition setLocalDescription (pc : RTCPeerConnection)
    (d : RTCSessionDescriptionInit) : option RTCPeerConnection :=
  match local_transition (signalingState pc) (sd_type d) with
  | Some s => if acceptsLocal B pc d
              then Some (with_signaling s (with_local d pc)) else None
  | None => None
  end.

Definition setRemoteDescription (pc : RTCPeerConnection)
    (d : RTCSessionDescriptionInit) : option RTCPeerConnection :=
  match remote_transition (signalingState pc) (sd_type d) with
  | Some s => if acceptsRemote B pc d
              then Some (with_signaling s (with_remote d pc)) else None
  | None => None
  end.

(** [addIceCandidate] rejects without a remote description; otherwise the
    browser decides. The call is recorded either way. *)
Definition addIceCandidate (pc : RTCPeerConnection)
    (c : RTCIceCandidateInit) : RTCPeerConnection * bool :=
  let ok := match remoteDescription pc with
            | None => false
            | Some _ => acceptsCandidate B pc c
            end in
  (mkPC (pc_handle pc) (signalingState pc) (localDescription pc)
        (remoteDescription pc) (pc_senders pc) (pc_channels pc)
        (pc_iceCalls pc ++ [(c, ok)]), ok).
End Ops.

End PC.

(** ** Input events and the data channel *)

Inductive InputEventType :=
  | mousemove | mousedown | mouseup | click | keydown | keyup | wheel.

Record InputEvent := mkInputEvent {
  ev_type : InputEventType;
  ev_x : option float;
  ev_y : option float;
  ev_button : option float;
  ev_key : option string;
  ev_code : option string;
  ev_deltaY : option float;
  ev_timestamp : float
}.

(** What travels on the channel. [JSON.stringify] of an event is [Json];
    [JSON.parse] gives the event back on [Json] and throws on [Garbage]. *)
Inductive WireData :=
  | Json (e : InputEvent)
  | Garbage (s : string).

Definition JSON_stringify (e : InputEvent) : WireData := Json e.
Definition JSON_parse (d : WireData) : option InputEvent :=
  match d with Json e => Some e | Garbage _ => None end.

Inductive RTCDataChannelState := DcConnecting | DcOpen | DcClosing | DcClosed.

Global Instance RTCDataChannelState_eq_dec : EqDecision RTCDataChannelState.
Proof. solve_decision. Defined.

Record RTCDataChannel := mkDC {
  dc_label : string;
  dc_ordered : bool;
  readyState : RTCDataChannelState;
  (** payloads given to [send], in order *)
  dc_sent : list WireData
}.

Definition dc_send (d : WireData) (dc : RTCDataChannel) : RTCDataChannel :=
  mkDC (dc_label dc) (dc_ordered dc) (readyState dc) (dc_sent dc ++ [d]).

Definition dc_set_readyState (s : RTCDataChannelState) (dc : RTCDataChannel) :=
  mkDC (dc_label dc) (dc_ordered dc) s (dc_sent dc).

(** ** What the hook emits and logs *)

Inductive ClientEmit :=
  | EmitIceCandidate (roomId : string) (candidate : RTCIceCandidateInit)
                     (targetUserId : string)
  | EmitOffer (roomId : string) (offer : RTCSessionDescriptionInit)
              (targetUserId : string)
  | EmitAnswer (roomId : string) (answer : RTCSessionDescriptionInit)
               (targetUserId : string)
  | EmitRequestOffer (roomId : string).

Inductive ConsoleLevel := LvlLog | LvlWarn | LvlError.

(** A console call is kept with its level and its first argument. *)
Inductive Effect :=
  | Emit (m : ClientEmit)
  | Console (lvl : ConsoleLevel) (msg : string).

(** ** State of one [useWebRTC] instance *)

Record HookState := mkHook {
  remoteStream : option string;
  connectedUsers : list string;
  peerConnectionsRef : gmap string RTCPeerConnection;
  dataChannelsRef : gmap string RTCDataChannel;
  (** [true] once [setInputCallback] has stored a callback *)
  inputCallbackRef : bool;
  pendingCandidatesRef : gmap string (list RTCIceCandidateInit);
  isInitiatorRef : bool;
  (** number of [new RTCPeerConnection] evaluated so far *)
  nextHandle : nat;
  effects : list Effect;
  (** calls made to the registered input callback, in order *)
  callbackCalls : list (InputEvent * string)
}.

Definition initialHook : HookState :=
  mkHook None [] ∅ ∅ false ∅ false 0 [] [].

Definition set_remoteStream (v : option string) (st : HookState) :=
  mkHook v (connectedUsers st) (peerConnectionsRef st) (dataChannelsRef st)
    (inputCallbackRef st) (pendingCandidatesRef st) (isInitiatorRef st)
    (nextHandle st) (effects st) (callbackCalls st).

Definition setConnectedUsers (f : list string → list string) (st : HookState) :=
  mkHook (remoteStream st) (f (connectedUsers st)) (peerConnectionsRef st)
    (dataChannelsRef st) (inputCallbackRef st) (pendingCandidatesRef st)
    (isInitiatorRef st) (nextHandle st) (effects st) (callbackCalls st).

Definition set_peerConnections (m : gmap string RTCPeerConnection) (st : HookState) :=
  mkHook (remoteStream st) (connectedUsers st) m (dataChannelsRef st)
    (inputCallbackRef st) (pendingCandidatesRef st) (isInitiatorRef st)
    (nextHandle st) (effects st) (callbackCalls st).

Definition set_dataChannels (m : gmap string RTCDataChannel) (st : HookState) :=
  mkHook (remoteStream st) (connectedUsers st) (peerConnectionsRef st) m
    (inputCallbackRef st) (pendingCandidatesRef st) (isInitiatorRef st)
    (nextHandle st) (effects st) (callbackCalls st).

Definition set_inputCallback (b : bool) (st : HookState) :=
  mkHook (remoteStream st) (connectedUsers st) (peerConnectionsRef st)
    (dataChannelsRef st) b (pendingCandidatesRef st) (isInitiatorRef st)
    (nextHandle st) (effects st) (callbackCalls st).

Definition set_pendingCandidates (m : gmap string (list RTCIceCandidateInit))
    (st : HookState) :=
  mkHook (remoteStream st) (connectedUsers st) (peerConnectionsRef st)
    (dataChannelsRef st) (inputCallbackRef st) m (isInitiatorRef st)
    (nextHandle st) (effects st) (callbackCalls st).

Definition set_isInitiator (b : bool) (st : HookState) :=
  mkHook (remoteStream st) (connectedUsers st) (peerConnectionsRef st)
    (dataChannelsRef st) (inputCallbackRef st) (pendingCandidatesRef st) b
    (nextHandle st) (effects st) (callbackCalls st).

Definition set_nextHandle (n : nat) (st : HookState) :=
  mkHook (remoteStream st) (connectedUsers st) (peerConnectionsRef st)
    (dataChannelsRef st) (inputCallbackRef st) (pendingCandidatesRef st)
    (isInitiatorRef st) n (effects st) (callbackCalls st).

Definition add_effect (e : Effect) (st : HookState) :=
  mkHook (remoteStream st) (connectedUsers st) (peerConnectionsRef st)
    (dataChannelsRef st) (inputCallbackRef st) (pendingCandidatesRef st)
    (isInitiatorRef st) (nextHandle st) (effects st ++ [e]) (callbackCalls st).

Definition add_effects (es : list Effect) (st : HookState) :=
  mkHook (remoteStream st) (connectedUsers st) (peerConnectionsRef st)
    (dataChannelsRef st) (inputCallbackRef st) (pendingCandidatesRef st)
    (isInitiatorRef st) (nextHandle st) (effects st ++ es) (callbackCalls st).

Definition add_callbackCall (e : InputEvent) (userId : string) (st : HookState) :=
  mkHook (remoteStream st) (connectedUsers st) (peerConnectionsRef st)
    (dataChannelsRef st) (inputCallbackRef st) (pendingCandidatesRef st)
    (isInitiatorRef st) (nextHandle st) (effects st)
    (callbackCalls st ++ [(e, userId)]).

Definition console (lvl : ConsoleLevel) (msg : string) (st : HookState) :=
  add_effect (Console lvl msg) st.

Definition socket_emit (m : ClientEmit) (st : HookState) :=
  add_effect (Emit m) st.

(** Write a mutated transport object back under its participant id. *)
Definition store_pc (userId : string) (pc : RTCPeerConnection) (st : HookState) :=
  set_peerConnections (<[userId := pc]> (peerConnectionsRef st)) st.

(** The messages given to [socket.emit], in order. *)
Definition emitted (st : HookState) : list ClientEmit :=
  omap (λ e, match e with Emit m => Some m | Console _ _ => None end) (effects st).

(** ** The hook: [useWebRTC(roomId, localStream, isHost)] *)

(** Payloads of the relay's [offer], [answer] and [ice-candidate] events as
    the handlers read them. *)
Record OfferData := mkOfferData {
  od_offer : RTCSessionDescriptionInit;
  od_senderId : string
}.

Record AnswerData := mkAnswerData {
  ad_answer : RTCSessionDescriptionInit;
  ad_senderId : string
}.

Record CandidateData := mkCandidateData {
  cd_candidate : RTCIceCandidateInit;
  cd_senderId : string
}.

(** The two updaters the hook gives to [setConnectedUsers]:
    [prev => prev.includes(userId) ? prev : [...prev, userId]] and
    [prev => prev.filter(id => id !== userId)]. *)
Definition add_if_absent (userId : string) (prev : list string) : list string :=
  if bool_decide (userId ∈ prev) then prev else prev ++ [userId].

Definition without (userId : string) (prev : list string) : list string :=
  filter (λ id, id ≠ userId) prev.

Module Hook.
Section Hook.
Variable B : Browser.
Variable roomId : string.
Variable localStream : option (list Track).
Variable isHost : bool.

(** [setupDataChannel]: register the channel under the participant id. The
    four channel handlers it installs are [channel_onopen],
    [channel_onclose], [channel_onmessage] and [channel_onerror] below. *)
Definition setupDataChannel (channel : RTCDataChannel) (userId : string)
    (st : HookState) : HookState :=
  set_dataChannels (<[userId := channel]> (dataChannelsRef st)) st.

(** The browser moves the channel to [open] and fires [onopen]. *)
Definition channel_onopen (userId : string) (st : HookState) : HookState :=
  let st :=
    match dataChannelsRef st !! userId with
    | Some dc =>
        set_dataChannels
          (<[userId := dc_set_readyState DcOpen dc]> (dataChannelsRef st)) st
    | None => st
    end in
  console LvlLog ("Data channel opened for user " +:+ userId) st.

Definition channel_onclose (userId : string) (st : HookState) : HookState :=
  let st := console LvlLog ("Data channel closed for user " +:+ userId) st in
  set_dataChannels (delete userId (dataChannelsRef st)) st.

(** [channel.onmessage]: parse, then hand the event to the callback when one
    is registered; a payload that does not parse is logged and dropped. *)
Definition channel_onmessage (userId : string) (data : WireData)
    (st : HookState) : HookState :=
  match JSON_parse data with
  | Some inputEvent =>
      if inputCallbackRef st then add_callbackCall inputEvent userId st else st
  | None => console LvlError "Error parsing input event:" st
  end.

Definition channel_onerror (userId : string) (st : HookState) : HookState :=
  console LvlError ("Data channel error for user " +:+ userId +:+ ":") st.

(** [createPeerConnection]: the existing transport when there is one;
    otherwise a new one, registered, with an empty candidate buffer unless
    one is there already, and with the local tracks attached. *)
Definition createPeerConnection (userId : string) (st : HookState)
    : RTCPeerConnection * HookState :=
  match peerConnectionsRef st !! userId with
  | Some pc => (pc, st)
  | None =>
      let pc := PC.fresh (nextHandle st) in
      let st := set_nextHandle (S (nextHandle st)) st in
      let st := store_pc userId pc st in
      let st :=
        match pendingCandidatesRef st !! userId with
        | Some _ => st
        | None =>
            set_pendingCandidates (<[userId := []]> (pendingCandidatesRef st)) st
        end in
      match localStream with
      | Some tracks =>
          let pc := foldl PC.addTrack pc tracks in
          (pc, store_pc userId pc st)
      | None => (pc, st)
      end
  end.

(** The four handlers [createPeerConnection] installs on a new transport. *)
Definition pc_onicecandidate (userId : string)
    (candidate : option RTCIceCandidateInit) (st : HookState) : HookState :=
  match candidate with
  | Some c => socket_emit (EmitIceCandidate roomId c userId) st
  | None => st
  end.

Definition pc_ontrack (userId : string) (stream : string) (st : HookState)
    : HookState :=
  set_remoteStream (Some stream) (console LvlLog "Received remote track from" st).

Definition pc_ondatachannel (userId : string) (channel : RTCDataChannel)
    (st : HookState) : HookState :=
  setupDataChannel channel userId (console LvlLog "Data channel received from" st).

(** [connectionState] is the state the transport reports when the browser
    fires the event. *)
Definition pc_onconnectionstatechange (userId : string)
    (connectionState : RTCPeerConnectionState) (st : HookState) : HookState :=
  let st := console LvlLog ("Connection state with " +:+ userId +:+ ":") st in
  if bool_decide (connectionState = Disconnected ∨ connectionState = Failed)
  then
    let st := set_peerConnections (delete userId (peerConnectionsRef st)) st in
    let st := set_dataChannels (delete userId (dataChannelsRef st)) st in
    let st := set_pendingCandidates (delete userId (pendingCandidatesRef st)) st in
    setConnectedUsers (without userId) st
  else st.

(** [createOffer], [setLocalDescription], [socket.emit('offer')]: the tail
    shared by the three offering paths. [None] when a promise rejects. *)
Definition make_offer (userId : string) (pc : RTCPeerConnection)
    (st : HookState) : option HookState :=
  offer ← PC.createOffer B pc;
  pc' ← PC.setLocalDescription B pc offer;
  Some (socket_emit (EmitOffer roomId offer userId) (store_pc userId pc' st)).

Definition handleUserConnected (userId : string) (st : HookState) : HookState :=
  let st := console LvlLog "User connected, initiating call with:" st in
  if isHost then
    let st := set_isInitiator true st in
    let '(pc, st) := createPeerConnection userId st in
    match make_offer userId pc st with
    | Some st' => st'
    | None => console LvlError "Error creating offer:" st
    end
  else
    let st := console LvlLog "Guest requesting offer from host" st in
    socket_emit (EmitRequestOffer roomId) st.

(** The loop over the buffered candidates: each one is given to
    [addIceCandidate]; a rejection is logged and the loop goes on. *)
Fixpoint addPendingCandidates (pendingCandidates : list RTCIceCandidateInit)
    (pc : RTCPeerConnection) (log : list Effect)
    : RTCPeerConnection * list Effect :=
  match pendingCandidates with
  | [] => (pc, log)
  | candidate :: rest =>
      let '(pc', ok) := PC.addIceCandidate B pc candidate in
      addPendingCandidates rest pc'
        (if ok then log
         else log ++ [Console LvlError "Error adding pending candidate:"])
  end.

(** "Add any pending candidates", then [pendingCandidatesRef.current.set(userId, [])]. *)
Definition drainPending (userId : string) (pc : RTCPeerConnection)
    (st : HookState) : HookState :=
  let pendingCandidates := default [] (pendingCandidatesRef st !! userId) in
  let '(pc', log) := addPendingCandidates pendingCandidates pc [] in
  let st := store_pc userId pc' st in
  let st := add_effects log st in
  set_pendingCandidates (<[userId := []]> (pendingCandidatesRef st)) st.

Definition handleOffer (data : OfferData) (st : HookState) : HookState :=
  let st := console LvlLog "Received offer from:" st in
  let userId := od_senderId data in
  let '(pc, st) := createPeerConnection userId st in
  let st := set_isInitiator false st in
  if bool_decide (signalingState pc ≠ Stable) then
    console LvlWarn "Peer connection not in stable state:" st
  else
    match PC.setRemoteDescription B pc (od_offer data) with
    | None => console LvlError "Error handling offer:" st
    | Some pc =>
        let st := store_pc userId pc st in
        match PC.createAnswer B pc with
        | None => console LvlError "Error handling offer:" st
        | Some answer =>
            match PC.setLocalDescription B pc answer with
            | None => console LvlError "Error handling offer:" st
            | Some pc =>
                let st := store_pc userId pc st in
                let st := socket_emit (EmitAnswer roomId answer userId) st in
                drainPending userId pc st
            end
        end
    end.

Definition handleAnswer (data : AnswerData) (st : HookState) : HookState :=
  let st := console LvlLog "Received answer from:" st in
  let userId := ad_senderId data in
  match peerConnectionsRef st !! userId with
  | None => console LvlError "Peer connection not found for user:" st
  | Some pc =>
      if bool_decide (signalingState pc ≠ HaveLocalOffer) then
        console LvlWarn "Wrong state for answer:" st
      else
        match PC.setRemoteDescription B pc (ad_answer data) with
        | None => console LvlError "Error handling answer:" st
        | Some pc =>
            let st := store_pc userId pc st in
            let st := drainPending userId pc st in
            setConnectedUsers (add_if_absent userId) st
        end
  end.

(** [candidates.push(data.candidate)] on the participant's buffer (a fresh
    array when there is none), stored back under the participant id. *)
Definition bufferCandidate (userId : string) (c : RTCIceCandidateInit)
    (st : HookState) : HookState :=
  let candidates := default [] (pendingCandidatesRef st !! userId) in
  set_pendingCandidates
    (<[userId := candidates ++ [c]]> (pendingCandidatesRef st)) st.

Definition handleIceCandidate (data : CandidateData) (st : HookState)
    : HookState :=
  let userId := cd_senderId data in
  match peerConnectionsRef st !! userId with
  | None =>
      let st := console LvlWarn "Peer connection not ready, buffering candidate" st in
      bufferCandidate userId (cd_candidate data) st
  | Some pc =>
      match remoteDescription pc with
      | Some _ =>
          let '(pc', ok) := PC.addIceCandidate B pc (cd_candidate data) in
          let st := store_pc userId pc' st in
          if ok then st else console LvlError "Error adding ICE candidate:" st
      | None =>
          let st := console LvlWarn "Remote description not set, buffering candidate" st in
          bufferCandidate userId (cd_candidate data) st
      end
  end.

Definition handleSendOffer (requesterId : string) (st : HookState) : HookState :=
  let st := console LvlLog "Host sending offer to requester:" st in
  if negb isHost then st
  else
    let '(pc, st) := createPeerConnection requesterId st in
    match make_offer requesterId pc st with
    | Some st' => st'
    | None => console LvlError "Error creating offer:" st
    end.

(** [userId || 'broadcast']: a missing or empty id is falsy. *)
Definition target_or_broadcast (userId : option string) : string :=
  match userId with
  | Some u => if bool_decide (u = "") then "broadcast" else u
  | None => "broadcast"
  end.

(** [startCall] has no [try]: when a promise rejects the call stops where
    it is. *)
Definition startCall (userId : option string) (st : HookState) : HookState :=
  let targetUserId := target_or_broadcast userId in
  let '(pc, st) := createPeerConnection targetUserId st in
  let '(pc, st) :=
    if isHost && negb (bool_decide (is_Some (dataChannelsRef st !! targetUserId)))
    then
      let pc := PC.createDataChannel "input" true pc in
      let dc := mkDC "input" true DcConnecting [] in
      (pc, setupDataChannel dc targetUserId (store_pc targetUserId pc st))
    else (pc, st) in
  match make_offer targetUserId pc st with
  | Some st' => st'
  | None => st
  end.

Definition send_if_open (d : WireData) (dc : RTCDataChannel) : RTCDataChannel :=
  if bool_decide (readyState dc = DcOpen) then dc_send d dc else dc.

(** [sendInputEvent]: an empty target id is falsy, hence a broadcast. *)
Definition sendInputEvent (event : InputEvent) (targetUserId : option string)
    (st : HookState) : HookState :=
  let d := JSON_stringify event in
  match targetUserId with
  | Some t =>
      if bool_decide (t = "") then
        set_dataChannels (send_if_open d <$> dataChannelsRef st) st
      else
        match dataChannelsRef st !! t with
        | Some dc =>
            set_dataChannels (<[t := send_if_open d dc]> (dataChannelsRef st)) st
        | None => st
        end
  | None => set_dataChannels (send_if_open d <$> dataChannelsRef st) st
  end.

Definition setInputCallback (st : HookState) : HookState :=
  set_inputCallback true st.

(** Everything that can happen to a mounted hook: a relay message, an event
    of a transport or of a channel, or a call of the returned API. *)
Inductive HookEvent :=
  | EvUserConnected (userId : string)
  | EvSendOffer (requesterId : string)
  | EvOffer (data : OfferData)
  | EvAnswer (data : AnswerData)
  | EvIceCandidate (data : CandidateData)
  | EvLocalCandidate (userId : string) (c : option RTCIceCandidateInit)
  | EvTrack (userId : string) (stream : string)
  | EvDataChannel (userId : string) (channel : RTCDataChannel)
  | EvConnectionState (userId : string) (s : RTCPeerConnectionState)
  | EvChannelOpen (userId : string)
  | EvChannelClose (userId : string)
  | EvChannelMessage (userId : string) (data : WireData)
  | EvChannelError (userId : string)
  | CallCreatePeerConnection (userId : string)
  | CallStartCall (userId : option string)
  | CallSendInputEvent (event : InputEvent) (targetUserId : option string)
  | CallSetInputCallback.

Definition step (st : HookState) (ev : HookEvent) : HookState :=
  match ev with
  | EvUserConnected u => handleUserConnected u st
  | EvSendOffer r => handleSendOffer r st
  | EvOffer d => handleOffer d st
  | EvAnswer d => handleAnswer d st
  | EvIceCandidate d => handleIceCandidate d st
  | EvLocalCandidate u c => pc_onicecandidate u c st
  | EvTrack u s => pc_ontrack u s st
  | EvDataChannel u ch => pc_ondatachannel u ch st
  | EvConnectionState u s => pc_onconnectionstatechange u s st
  | EvChannelOpen u => channel_onopen u st
  | EvChannelClose u => channel_onclose u st
  | EvChannelMessage u d => channel_onmessage u d st
  | EvChannelError u => channel_onerror u st
  | CallCreatePeerConnection u => (createPeerConnection u st).2
  | CallStartCall u => startCall u st
  | CallSendInputEvent e t => sendInputEvent e t st
  | CallSetInputCallback => setInputCallback st
  end.

End Hook.

(** The arguments of one render of the hook. They may change from one event
    to the next (the host page passes the captured stream once it has one);
    the refs and the state live on. *)
Record Props := mkProps {
  props_roomId : string;
  props_localStream : option (list Track);
  props_isHost : bool
}.

(** The hook after a sequence of events, each under the arguments current
    when it happens. The relay handlers are only subscribed while [roomId]
    is not empty; [run] lets them fire in any case. *)
Definition run (B : Browser) (evs : list (Props * HookEvent)) : HookState :=
  foldl (λ st pe, step B (props_roomId pe.1) (props_localStream pe.1)
                    (props_isHost pe.1) st pe.2)
        initialHook evs.

End Hook.

(** ** The relay: [pages/api/socket.ts] *)

Module Relay.

Record RoomData := mkRoomData { hostId : option string }.

(** Events the relay emits to a client socket. *)
Inductive ServerEmit :=
  | UserConnected (id : string)
  | SendOffer (requesterId : string)
  | Offer (offer : RTCSessionDescriptionInit) (senderId targetUserId : string)
  | Answer (answer : RTCSessionDescriptionInit) (senderId targetUserId : string)
  | IceCandidate (candidate : RTCIceCandidateInit) (senderId targetUserId : string).

Record RelayState := mkRelay {
  (** the module-level [rooms] registry *)
  rooms : gmap string RoomData;
  (** socket.io's room membership: room name to the socket ids joined to it *)
  members : gmap string (gset string);
  (** every delivery made so far: receiving socket id and event, in order *)
  delivered : list (string * ServerEmit)
}.

Definition initialRelay : RelayState := mkRelay ∅ ∅ [].

Definition room (st : RelayState) (name : string) : gset string :=
  default ∅ (members st !! name).

(** [socket.join(name)] *)
Definition socket_join (socketId name : string) (st : RelayState) : RelayState :=
  mkRelay (rooms st) (<[name := {[socketId]} ∪ room st name]> (members st))
          (delivered st).

(** [socket.to(name).emit(ev)]: every socket of the room but the sender. *)
Definition recipients (st : RelayState) (socketId name : string) : list string :=
  elements (room st name ∖ {[socketId]}).

Definition socket_to_emit (socketId name : string) (ev : ServerEmit)
    (st : RelayState) : RelayState :=
  mkRelay (rooms st) (members st)
          (delivered st ++ ((λ r, (r, ev)) <$> recipients st socketId name)).

(** A new socket is in the room named by its own id. *)
Definition on_connection (socketId : string) (st : RelayState) : RelayState :=
  socket_join socketId socketId st.

Definition on_join_room (socketId roomId : string) (st : RelayState)
    : RelayState :=
  let st := socket_join socketId roomId st in
  let st :=
    match rooms st !! roomId with
    | Some _ => st
    | None =>
        mkRelay (<[roomId := mkRoomData (Some socketId)]> (rooms st))
                (members st) (delivered st)
    end in
  socket_to_emit socketId roomId (UserConnected socketId) st.

Definition on_request_offer (socketId roomId : string) (st : RelayState)
    : RelayState :=
  socket_to_emit socketId roomId (SendOffer socketId) st.

Definition on_offer (socketId roomId : string)
    (offer : RTCSessionDescriptionInit) (targetUserId : string)
    (st : RelayState) : RelayState :=
  socket_to_emit socketId roomId (Offer offer socketId targetUserId) st.

Definition on_answer (socketId roomId : string)
    (answer : RTCSessionDescriptionInit) (targetUserId : string)
    (st : RelayState) : RelayState :=
  socket_to_emit socketId roomId (Answer answer socketId targetUserId) st.

Definition on_ice_candidate (socketId roomId : string)
    (candidate : RTCIceCandidateInit) (targetUserId : string)
    (st : RelayState) : RelayState :=
  socket_to_emit socketId roomId (IceCandidate candidate socketId targetUserId) st.

(** socket.io has taken the socket out of its rooms when [disconnect] fires;
    the handler then deletes the rooms it hosted. *)
Definition on_disconnect (socketId : string) (st : RelayState) : RelayState :=
  mkRelay (filter (λ kv, hostId kv.2 ≠ Some socketId) (rooms st))
          ((λ s, s ∖ {[socketId]}) <$> members st)
          (delivered st).

(** The deliveries an operation added. *)
Definition new_deliveries (st st' : RelayState) : list (string * ServerEmit) :=
  drop (length (delivered st)) (delivered st').

End Relay.

(** ** The guest page: pointer handlers *)

Module GuestPage.

Record DOMRect := mkRect {
  rect_left : float; rect_top : float; rect_width : float; rect_height : float
}.

Record MouseEvent := mkMouse {
  clientX : float; clientY : float; button : float
}.

Record GuestState := mkGuest {
  lastMousePos : float * float;
  hook : HookState
}.

(** [((client - origin) / extent) * 100] in double precision. *)
Definition percent (client origin extent : float) : float :=
  PrimFloat.mul (PrimFloat.div (PrimFloat.sub client origin) extent) 100%float.

(** [x >= 0 && x <= 100 && y >= 0 && y <= 100] *)
Definition within_bounds (x y : float) : bool :=
  PrimFloat.leb 0%float x && PrimFloat.leb x 100%float &&
  PrimFloat.leb 0%float y && PrimFloat.leb y 100%float.

(** The fields of the [Partial<InputEvent>] the handlers pass along. *)
Record PartialInputEvent := mkPartial {
  p_x : option float;
  p_y : option float;
  p_button : option float;
  p_key : option string;
  p_code : option string;
  p_deltaY : option float
}.

(** [sendEvent]: [{ type, timestamp: Date.now(), ...data }] given to
    [sendInputEvent] without a target. [now] is the value of [Date.now()]. *)
Definition sendEvent (now : float) (type : InputEventType)
    (data : PartialInputEvent) (st : HookState) : HookState :=
  let event := mkInputEvent type (p_x data) (p_y data) (p_button data)
                 (p_key data) (p_code data) (p_deltaY data) now in
  Hook.sendInputEvent event None st.

Definition handleMouseMove (rect : DOMRect) (now : float) (e : MouseEvent)
    (gs : GuestState) : GuestState :=
  let x := percent (clientX e) (rect_left rect) (rect_width rect) in
  let y := percent (clientY e) (rect_top rect) (rect_height rect) in
  if within_bounds x y then
    mkGuest (x, y)
      (sendEvent now mousemove (mkPartial (Some x) (Some y) None None None None)
         (hook gs))
  else gs.

(** [handleMouseDown], [handleMouseUp] and [handleClick] differ only in the
    event type they send. *)
Definition handleButton (type : InputEventType) (rect : DOMRect) (now : float)
    (e : MouseEvent) (gs : GuestState) : GuestState :=
  let x := percent (clientX e) (rect_left rect) (rect_width rect) in
  let y := percent (clientY e) (rect_top rect) (rect_height rect) in
  if within_bounds x y then
    mkGuest (lastMousePos gs)
      (sendEvent now type
         (mkPartial (Some x) (Some y) (Some (button e)) None None None)
         (hook gs))
  else gs.

Definition handleMouseDown := handleButton mousedown.
Definition handleMouseUp := handleButton mouseup.
Definition handleClick := handleButton click.

(** The pointer event a handler builds from a position. *)
Definition pointerEvent (type : InputEventType) (x y : float)
    (btn : option float) (now : float) : InputEvent :=
  mkInputEvent type (Some x) (Some y) btn None None None now.

(** A coordinate of an event is inside [0,100] (an absent one is). *)
Definition coordinate_ok (c : option float) : bool :=
  match c with
  | Some v => PrimFloat.leb 0%float v && PrimFloat.leb v 100%float
  | None => true
  end.

Definition coordinates_ok (e : InputEvent) : bool :=
  coordinate_ok (ev_x e) && coordinate_ok (ev_y e).

End GuestPage.

(** ** Predicates used to state the properties *)

(** The hook has accepted an offer: it is installed as the remote
    description of the sender's record and an answer went back. *)
Definition offer_accepted (data : OfferData) (st : HookState) : Prop :=
  (remoteDescription <$> peerConnectionsRef st !! od_senderId data)
  = Some (Some (od_offer data))
  ∧ ∃ roomId answer, EmitAnswer roomId answer (od_senderId data) ∈ emitted st.

(** The candidates given to [addIceCandidate] on a record, in call order. *)
Definition attempted (pc : RTCPeerConnection) : list RTCIceCandidateInit :=
  (pc_iceCalls pc).*1.

(** The buffered candidates of a participant ([get(userId) || []]). *)
Definition buffer (st : HookState) (userId : string) : list RTCIceCandidateInit :=
  default [] (pendingCandidatesRef st !! userId).

(** An inbound candidate has to wait: there is no record for the sender,
    or there is one without a remote description. *)
Definition must_wait (st : HookState) (userId : string) : bool :=
  match peerConnectionsRef st !! userId with
  | None => true
  | Some pc => bool_decide (remoteDescription pc = None)
  end.

(** ** Concrete environments used by the examples *)

(** A browser that accepts everything it is given. *)
Definition goodBrowser : Browser :=
  mkBrowser (λ _, Some "v=0 offer") (λ _, Some "v=0 answer")
            (λ _ _, true) (λ _ _, true) (λ _ _, true).

(** The room of the examples, a host that has offered to a guest on the
    guest's arrival, and the guest's answer. *)
Definition room482913 : string := "482913".

Definition hostOffering : HookState :=
  Hook.handleUserConnected goodBrowser room482913 None true "guest" initialHook.

Definition guestAnswer : AnswerData :=
  mkAnswerData (mkSD SdpAnswer "v=0 answer") "guest".

(** A guest that has called the host on its own, and the offers the two
    sides have sent each other. *)
Definition guestOffering : HookState :=
  Hook.startCall goodBrowser room482913 None false (Some "host") initialHook.

Definition offerOfHost : OfferData :=
  mkOfferData (mkSD SdpOffer "v=0 offer") "host".

Definition offerOfGuest : OfferData :=
  mkOfferData (mkSD SdpOffer "v=0 offer") "guest".

(** A candidate of the host that reaches a fresh guest before the offer. *)
Definition earlyCandidate : CandidateData :=
  mkCandidateData (mkCand "candidate:1 1 udp 2122260223 192.0.2.1 54400 typ host" 0)
                  "host".

Definition guestWithEarlyCandidate (B : Browser) : HookState :=
  Hook.handleIceCandidate B earlyCandidate initialHook.

(** A relay with a host and two guests in one room. *)
Definition threeInRoom : Relay.RelayState :=
  Relay.on_join_room "guest-2" room482913 (Relay.on_connection "guest-2"
    (Relay.on_join_room "guest-1" room482913 (Relay.on_connection "guest-1"
      (Relay.on_join_room "host" room482913 (Relay.on_connection "host"
        Relay.initialRelay))))).

(** A click far outside the shared screen, as a peer could put it on the
    channel. *)
Definition strayClick : InputEvent :=
  GuestPage.pointerEvent click 150%float (-20)%float (Some 0%float) 0%float.

(** A guest on which the host's input channel has arrived and opened, an
    overlay of 200 by 100 pixels at the origin, a pointer inside it and one
    to the right of it. *)
Definition guestWithOpenChannel : GuestPage.GuestState :=
  GuestPage.mkGuest (0%float, 0%float)
    (Hook.channel_onopen "host"
       (Hook.pc_ondatachannel "host" (mkDC "input" true DcConnecting [])
          initialHook)).

Definition overlay : GuestPage.DOMRect :=
  GuestPage.mkRect 0%float 0%float 200%float 100%float.

Definition pointerInside : GuestPage.MouseEvent :=
  GuestPage.mkMouse 100%float 50%float 0%float.

Definition pointerOutside : GuestPage.MouseEvent :=
  GuestPage.mkMouse 300%float 50%float 0%float.

(** A browser whose [createAnswer] rejects. *)
Definition noAnswerBrowser : Browser :=
  mkBrowser (λ _, Some "v=0 offer") (λ _, None)
            (λ _ _, true) (λ _ _, true) (λ _ _, true).

(** ** The relay as a whole *)

(** What a client socket can make the relay do. *)
Inductive RelayEvent :=
  | RConnection
  | RJoinRoom (roomId : string)
  | RRequestOffer (roomId : string)
  | ROffer (roomId : string) (offer : RTCSessionDescriptionInit)
           (targetUserId : string)
  | RAnswer (roomId : string) (answer : RTCSessionDescriptionInit)
            (targetUserId : string)
  | RIceCandidate (roomId : string) (candidate : RTCIceCandidateInit)
                  (targetUserId : string)
  | RDisconnect.

(** One event of the socket [ev.1]. *)
Definition relay_step (st : Relay.RelayState) (ev : string * RelayEvent)
    : Relay.RelayState :=
  let socketId := ev.1 in
  match ev.2 with
  | RConnection => Relay.on_connection socketId st
  | RJoinRoom r => Relay.on_join_room socketId r st
  | RRequestOffer r => Relay.on_request_offer socketId r st
  | ROffer r o t => Relay.on_offer socketId r o t st
  | RAnswer r a t => Relay.on_answer socketId r a t st
  | RIceCandidate r c t => Relay.on_ice_candidate socketId r c t st
  | RDisconnect => Relay.on_disconnect socketId st
  end.

Definition relay_run (evs : list (string * RelayEvent)) : Relay.RelayState :=
  foldl relay_step Relay.initialRelay evs.

(** The registered host of a room, when the room is registered. *)
Definition host_of (st : Relay.RelayState) (roomId : string) : option string :=
  Relay.rooms st !! roomId ≫= Relay.hostId.

(** ** The hook, seen over a run *)

(** The message is an offer. *)
Definition is_offer (m : ClientEmit) : bool :=
  match m with
  | EmitOffer _ _ _ => true
  | _ => false
  end.

(** The event is a call of [startCall]. *)
Definition is_startCall (ev : Hook.HookEvent) : bool :=
  match ev with
  | Hook.CallStartCall _ => true
  | _ => false
  end.


(** The transport [createPeerConnection] makes for a participant without
    a record: a new object with the tracks of the local stream, if any. *)
Definition new_transport (localStream : option (list Track)) (st : HookState)
    : RTCPeerConnection :=
  foldl PC.addTrack (PC.fresh (nextHandle st)) (default [] localStream).

(** [createOffer] followed by [setLocalDescription] on a transport: the
    offer and the transport afterwards, or nothing when either rejects. *)
Definition offer_made (B : Browser) (pc : RTCPeerConnection)
    : option (RTCSessionDescriptionInit * RTCPeerConnection) :=
  offer ← PC.createOffer B pc;
  pc' ← PC.setLocalDescription B pc offer;
  Some (offer, pc').

(** A browser that makes every description it is asked for and accepts
    every description given to it. *)
Definition cooperative (B : Browser) : Prop :=
  (∀ pc, is_Some (offerSdp B pc))
  ∧ (∀ pc, is_Some (answerSdp B pc))
  ∧ (∀ pc d, acceptsLocal B pc d = true)
  ∧ (∀ pc d, acceptsRemote B pc d = true).

(** What the refs of a hook always satisfy: who is shown as connected has
    a record, who has a record has a candidate buffer, and the transports
    of the records are distinct objects made by this hook. *)
Record consistent (st : HookState) : Prop := mkConsistent {
  connected_have_record :
    ∀ u, u ∈ connectedUsers st → is_Some (peerConnectionsRef st !! u);
  records_have_buffer :
    ∀ u, is_Some (peerConnectionsRef st !! u) →
         is_Some (pendingCandidatesRef st !! u);
  handles_made_here :
    ∀ u pc, peerConnectionsRef st !! u = Some pc → pc_handle pc < nextHandle st;
  handles_distinct :
    ∀ u v pcu pcv,
      peerConnectionsRef st !! u = Some pcu →
      peerConnectionsRef st !! v = Some pcv →
      pc_handle pcu = pc_handle pcv → u = v
}.

(** A host to which two guests are announced one after the other. *)
Definition hostProps : Hook.Props := Hook.mkProps room482913 None true.

Definition twoArrivals : list (Hook.Props * Hook.HookEvent) :=
  [(hostProps, Hook.EvUserConnected "guest-1");
   (hostProps, Hook.EvUserConnected "guest-2")].

(** ** The guest page: wheel, keyboard and the quick-action buttons *)

Module GuestControls.
Import GuestPage.

Record WheelEvent := mkWheel {
  wheel_clientX : float; wheel_clientY : float; wheel_deltaY : float
}.

Record KeyboardEvent := mkKeyboard { key : string; code : string }.

Definition handleKeyDown (now : float) (e : KeyboardEvent) (gs : GuestState)
    : GuestState :=
  mkGuest (lastMousePos gs)
    (sendEvent now keydown
       (mkPartial None None None (Some (key e)) (Some (code e)) None) (hook gs)).

Definition handleKeyUp (now : float) (e : KeyboardEvent) (gs : GuestState)
    : GuestState :=
  mkGuest (lastMousePos gs)
    (sendEvent now keyup
       (mkPartial None None None (Some (key e)) (Some (code e)) None) (hook gs)).

(** [handleWheel]: the second component tells whether [preventDefault] was
    called. *)
Definition handleWheel (rect : DOMRect) (now : float) (e : WheelEvent)
    (gs : GuestState) : GuestState * bool :=
  let x := percent (wheel_clientX e) (rect_left rect) (rect_width rect) in
  let y := percent (wheel_clientY e) (rect_top rect) (rect_height rect) in
  if within_bounds x y then
    (mkGuest (lastMousePos gs)
       (sendEvent now wheel
          (mkPartial None None None None None (Some (wheel_deltaY e))) (hook gs)),
     true)
  else (gs, false).

(** The four buttons of the control panel call [sendInputEvent] directly. *)
Definition leftClickButton (now : float) (gs : GuestState) : GuestState :=
  mkGuest (lastMousePos gs)
    (Hook.sendInputEvent
       (mkInputEvent click (Some 50%float) (Some 50%float) (Some 0%float)
          None None None now) None (hook gs)).

Definition rightClickButton (now : float) (gs : GuestState) : GuestState :=
  mkGuest (lastMousePos gs)
    (Hook.sendInputEvent
       (mkInputEvent click (Some 50%float) (Some 50%float) (Some 2%float)
          None None None now) None (hook gs)).

Definition scrollDownButton (now : float) (gs : GuestState) : GuestState :=
  mkGuest (lastMousePos gs)
    (Hook.sendInputEvent
       (mkInputEvent wheel None None None None None (Some 100%float) now)
       None (hook gs)).

Definition scrollUpButton (now : float) (gs : GuestState) : GuestState :=
  mkGuest (lastMousePos gs)
    (Hook.sendInputEvent
       (mkInputEvent wheel None None None None None (Some (-100)%float) now)
       None (hook gs)).

(** Everything on the guest page that sends input. *)
Inductive GuestAction :=
  | MouseMove (rect : DOMRect) (e : MouseEvent)
  | MouseDown (rect : DOMRect) (e : MouseEvent)
  | MouseUp (rect : DOMRect) (e : MouseEvent)
  | Click (rect : DOMRect) (e : MouseEvent)
  | Wheel (rect : DOMRect) (e : WheelEvent)
  | KeyDown (e : KeyboardEvent)
  | KeyUp (e : KeyboardEvent)
  | LeftClickButton
  | RightClickButton
  | ScrollDownButton
  | ScrollUpButton.

Definition act (now : float) (a : GuestAction) (gs : GuestState) : GuestState :=
  match a with
  | MouseMove rect e => handleMouseMove rect now e gs
  | MouseDown rect e => handleMouseDown rect now e gs
  | MouseUp rect e => handleMouseUp rect now e gs
  | Click rect e => handleClick rect now e gs
  | Wheel rect e => (handleWheel rect now e gs).1
  | KeyDown e => handleKeyDown now e gs
  | KeyUp e => handleKeyUp now e gs
  | LeftClickButton => leftClickButton now gs
  | RightClickButton => rightClickButton now gs
  | ScrollDownButton => scrollDownButton now gs
  | ScrollUpButton => scrollUpButton now gs
  end.

(** A payload is an input event whose coordinates, when it has any, are
    inside [0,100]. *)
Definition well_placed (d : WireData) : Prop :=
  ∃ e, d = Json e ∧ coordinates_ok e = true.

End GuestControls.

(** ** The input validator of the remote-control examples *)

Module InputValidator.

(** [this.rules] after the constructor has merged the defaults: a field is
    [None] when it is [undefined]. Counters, limits and clock readings are
    whole numbers. *)
Record ValidationRules := mkRules {
  maxCoordinateValue : option float;
  allowedKeys : option (list string);
  blockedKeys : option (list string);
  maxClicksPerSecond : option Z;
  maxKeysPerSecond : option Z
}.

(** The argument of the constructor: a field is [None] when the property is
    absent, [Some v] when it is present with value [v] ([undefined]
    included). *)
Record RulesInit := mkRulesInit {
  init_maxCoordinateValue : option (option float);
  init_allowedKeys : option (option (list string));
  init_blockedKeys : option (option (list string));
  init_maxClicksPerSecond : option (option Z);
  init_maxKeysPerSecond : option (option Z)
}.

Definition noRules : RulesInit := mkRulesInit None None None None None.

Record Validator := mkValidator {
  clickCount : Z;
  keyCount : Z;
  lastSecond : Z;
  rules : ValidationRules
}.

(** [{ ...defaults, ...rules }] for one property. *)
Definition spread {T} (dflt : option T) (given : option (option T)) : option T :=
  match given with
  | Some v => v
  | None => dflt
  end.

(** [new InputValidator(rules)], evaluated when [Date.now()] is [now]. *)
Definition create (init : RulesInit) (now : Z) : Validator :=
  mkValidator 0 0 now
    (mkRules (spread (Some 100%float) (init_maxCoordinateValue init))
             (spread None (init_allowedKeys init))
             (spread (Some ["F12"; "Meta"; "Alt"]) (init_blockedKeys init))
             (spread (Some 10%Z) (init_maxClicksPerSecond init))
             (spread (Some 20%Z) (init_maxKeysPerSecond init))).

(** [n || d] on a whole number: [undefined] and [0] are falsy. *)
Definition or_default (n : option Z) (d : Z) : Z :=
  match n with
  | Some v => if bool_decide (v = 0%Z) then d else v
  | None => d
  end.

(** [m || 100] on a double: [undefined], zero of either sign and NaN are
    falsy. *)
Definition coordinate_limit (m : option float) : float :=
  match m with
  | Some v =>
      if PrimFloat.eqb v 0%float || negb (PrimFloat.eqb v v) then 100%float
      else v
  | None => 100%float
  end.

(** [c < 0 || c > limit] *)
Definition out_of_range (limit c : float) : bool :=
  PrimFloat.ltb c 0%float || PrimFloat.ltb limit c.

(** [event.key || ''] *)
Definition key_or_empty (e : InputEvent) : string := default "" (ev_key e).

Inductive Verdict :=
  | Accepted
  | Rejected (warning : string).

Definition accepted (v : Verdict) : bool :=
  match v with Accepted => true | Rejected _ => false end.

(** The window check at the head of [validate]. *)
Definition roll_window (now : Z) (v : Validator) : Validator :=
  if bool_decide (now - lastSecond v > 1000)%Z
  then mkValidator 0 0 now (rules v) else v.

Definition is_key_event (t : InputEventType) : bool :=
  match t with keydown | keyup => true | _ => false end.

(** [validate(event)], evaluated when [Date.now()] is [now]: the verdict
    ([true] is [Accepted]; the warning is the first argument of
    [console.warn]) and the validator afterwards. *)
Definition validate (now : Z) (event : InputEvent) (v : Validator)
    : Verdict * Validator :=
  let v := roll_window now v in
  let limit := coordinate_limit (maxCoordinateValue (rules v)) in
  if match ev_x event with Some x => out_of_range limit x | None => false end
  then (Rejected "Invalid X coordinate:", v)
  else if match ev_y event with Some y => out_of_range limit y | None => false end
  then (Rejected "Invalid Y coordinate:", v)
  else
    let click_step :=
      match ev_type event with
      | click =>
          let v := mkValidator (clickCount v + 1) (keyCount v) (lastSecond v)
                     (rules v) in
          if bool_decide
               (clickCount v > or_default (maxClicksPerSecond (rules v)) 10)%Z
          then (Some "Click rate limit exceeded", v) else (None, v)
      | _ => (None, v)
      end in
    match click_step with
    | (Some w, v) => (Rejected w, v)
    | (None, v) =>
        if is_key_event (ev_type event) then
          let v := mkValidator (clickCount v) (keyCount v + 1) (lastSecond v)
                     (rules v) in
          if bool_decide
               (keyCount v > or_default (maxKeysPerSecond (rules v)) 20)%Z
          then (Rejected "Key rate limit exceeded", v)
          else if match blockedKeys (rules v) with
                  | Some l => bool_decide (key_or_empty event ∈ l)
                  | None => false
                  end
          then (Rejected "Blocked key:", v)
          else if match allowedKeys (rules v) with
                  | Some l => negb (bool_decide (key_or_empty event ∈ l))
                  | None => false
                  end
          then (Rejected "Key not in whitelist:", v)
          else (Accepted, v)
        else (Accepted, v)
    end.

(** Neither coordinate check of [validate] fires on the event. *)
Definition passes_coordinates (r : ValidationRules) (event : InputEvent) : bool :=
  let limit := coordinate_limit (maxCoordinateValue r) in
  negb (match ev_x event with Some x => out_of_range limit x | None => false end)
  && negb (match ev_y event with Some y => out_of_range limit y | None => false end).

(** A series of [validate] calls, each with the clock reading of its call:
    the verdicts in call order and the validator at the end. *)
Fixpoint validate_all (calls : list (Z * InputEvent)) (v : Validator)
    : list Verdict * Validator :=
  match calls with
  | [] => ([], v)
  | (now, event) :: rest =>
      let '(verdict, v) := validate now event v in
      let '(verdicts, v) := validate_all rest v in
      (verdict :: verdicts, v)
  end.

End InputValidator.

(** ** The throttling sender of the remote-control examples *)

Global Instance InputEventType_eq_dec : EqDecision InputEventType.
Proof. solve_decision. Defined.

Module RemoteControl.
Section RemoteControl.
(** State of the validation function, the function itself when the caller
    gives one, and the throttle interval in milliseconds. *)
Variable V : Type.
Variable validateInput : option (InputEvent → V → bool * V).
Variable throttleMs : Z.

(** [lastEventTimeRef] is read as [lastEventTimeRef.current[type] || 0]:
    a type never recorded reads as 0, which is what the function gives
    before any update. *)
Record State := mkState {
  lastEventTime : InputEventType → Z;
  coordinateBuffer : float * float;
  validation : V;
  hook : HookState
}.

Definition initialState (v : V) (h : HookState) : State :=
  mkState (λ _, 0%Z) ((-1)%float, (-1)%float) v h.

(** [shouldSendEvent(type)], evaluated when [Date.now()] is [now]. *)
Definition shouldSendEvent (now : Z) (type : InputEventType) (st : State)
    : bool * State :=
  let lastTime := lastEventTime st type in
  if bool_decide (now - lastTime >= throttleMs)%Z then
    (true,
     mkState (λ t, if bool_decide (t = type) then now else lastEventTime st t)
             (coordinateBuffer st) (validation st) (hook st))
  else (false, st).

(** [sendEvent(type, data)]: [stamp] is the [Date.now()] that becomes the
    timestamp of the event, [now] the one read by [shouldSendEvent]. The
    hook's [sendInputEvent] is called without a target. Nothing in the body
    throws here, so the [catch] branch does not show. *)
Definition sendEvent (stamp : float) (now : Z) (type : InputEventType)
    (data : GuestPage.PartialInputEvent) (st : State) : State :=
  let event :=
    mkInputEvent type (GuestPage.p_x data) (GuestPage.p_y data)
      (GuestPage.p_button data) (GuestPage.p_key data) (GuestPage.p_code data)
      (GuestPage.p_deltaY data) stamp in
  let '(valid, st) :=
    match validateInput with
    | Some f =>
        let '(ok, v) := f event (validation st) in
        (ok, mkState (lastEventTime st) (coordinateBuffer st) v (hook st))
    | None => (true, st)
    end in
  if negb valid then st
  else
    let '(go, st) := shouldSendEvent now type st in
    if negb go then st
    else mkState (lastEventTime st) (coordinateBuffer st) (validation st)
           (Hook.sendInputEvent event None (hook st)).

(** [getCoordinates]: nothing for an element without extent. *)
Definition getCoordinates (rect : GuestPage.DOMRect) (e : GuestPage.MouseEvent)
    : option (float * float) :=
  if PrimFloat.eqb (GuestPage.rect_width rect) 0%float
     || PrimFloat.eqb (GuestPage.rect_height rect) 0%float
  then None
  else Some (GuestPage.percent (GuestPage.clientX e) (GuestPage.rect_left rect)
               (GuestPage.rect_width rect),
             GuestPage.percent (GuestPage.clientY e) (GuestPage.rect_top rect)
               (GuestPage.rect_height rect)).

(** [handleMouseMove] of [captureInput]: the dead zone of one percent
    around the last position kept. The optional [handlers] callbacks of the
    caller are outside the state and left out, here and below. *)
Definition handleMouseMove (rect : GuestPage.DOMRect) (stamp : float) (now : Z)
    (e : GuestPage.MouseEvent) (st : State) : State :=
  match getCoordinates rect e with
  | None => st
  | Some (x, y) =>
      let deltaX := PrimFloat.abs (PrimFloat.sub x (coordinateBuffer st).1) in
      let deltaY := PrimFloat.abs (PrimFloat.sub y (coordinateBuffer st).2) in
      if PrimFloat.ltb 1%float deltaX || PrimFloat.ltb 1%float deltaY then
        let st := mkState (lastEventTime st) (x, y) (validation st) (hook st) in
        sendEvent stamp now mousemove
          (GuestPage.mkPartial (Some x) (Some y) None None None None) st
      else st
  end.

(** [handleMouseDown], [handleMouseUp] and [handleClick] of
    [captureInput] differ only in the event type. *)
Definition handleButton (type : InputEventType) (rect : GuestPage.DOMRect)
    (stamp : float) (now : Z) (e : GuestPage.MouseEvent) (st : State) : State :=
  match getCoordinates rect e with
  | None => st
  | Some (x, y) =>
      sendEvent stamp now type
        (GuestPage.mkPartial (Some x) (Some y) (Some (GuestPage.button e))
           None None None) st
  end.

End RemoteControl.
End RemoteControl.

(** The validator as the validation function of the sender, as in the
    usage example: the state carries the clock reading of the next call. *)
Definition validator_as_function (now : Z)
    : InputEvent → InputValidator.Validator → bool * InputValidator.Validator :=
  λ event v,
    let '(verdict, v) := InputValidator.validate now event v in
    (InputValidator.accepted verdict, v).

(** A validator that lets two clicks per second through, made at time
    5000, and three clicks in the middle of the screen within that second. *)
Definition twoClicksPerSecond : InputValidator.Validator :=
  InputValidator.create
    (InputValidator.mkRulesInit None None None (Some (Some 2%Z)) None) 5000.

Definition centreClick : InputEvent :=
  mkInputEvent click (Some 50%float) (Some 50%float) (Some 0%float)
    None None None 0%float.

Definition threeClicks : list (Z * InputEvent) :=
  [(5100%Z, centreClick); (5200%Z, centreClick); (5300%Z, centreClick)].

(** A pointer move whose position is not a number. *)
Definition moveToNowhere : InputEvent :=
  mkInputEvent mousemove (Some PrimFloat.nan) (Some PrimFloat.nan) None
    None None None 0%float.

(** A sender without validation function and with the default interval of
    16 milliseconds, on the guest with its open channel. *)
Definition plainSender : RemoteControl.State unit :=
  RemoteControl.initialState unit tt (GuestPage.hook guestWithOpenChannel).

(** The sender after a first move to the middle of the overlay, sent at
    time 1000, and a pointer that has gone to (20, 10) since. *)
Definition plainSenderAfterMove : RemoteControl.State unit :=
  RemoteControl.handleMouseMove unit None 16 overlay 1%float 1000 pointerInside
    plainSender.

Definition pointerElsewhere : GuestPage.MouseEvent :=
  GuestPage.mkMouse 40%float 10%float 0%float.

(** * Properties *)

(** ** Bookkeeping lemmas on the hook state *)

Section HookFacts.
Variable B : Browser.
Variable roomId : string.
Variable localStream : option (list Track).
Variable isHost : bool.

Local Abbreviation createPeerConnection := (Hook.createPeerConnection localStream).
Local Abbreviation handleOffer := (Hook.handleOffer B roomId localStream).
Local Abbreviation handleAnswer := (Hook.handleAnswer B).
Local Abbreviation handleIceCandidate := (Hook.handleIceCandidate B).
Local Abbreviation handleUserConnected := (Hook.handleUserConnected B roomId localStream isHost).
Local Abbreviation handleSendOffer := (Hook.handleSendOffer B roomId localStream isHost).
Local Abbreviation startCall := (Hook.startCall B roomId localStream isHost).
Local Abbreviation make_offer := (Hook.make_offer B roomId).
Local Abbreviation drainPending := (Hook.drainPending B).
Local Abbreviation step := (Hook.step B roomId localStream isHost).

Lemma createPeerConnection_existing userId st pc :
  peerConnectionsRef st !! userId = Some pc →
  createPeerConnection userId st = (pc, st).
Proof. intros Hpc. unfold Hook.createPeerConnection. by rewrite Hpc. Qed.

Lemma createPeerConnection_registers userId st :
  peerConnectionsRef (createPeerConnection userId st).2 !! userId
  = Some (createPeerConnection userId st).1.
Proof.
  unfold Hook.createPeerConnection.
  destruct (peerConnectionsRef st !! userId) as [pc|] eqn:Hpc; simpl; [done|].
  destruct localStream as [tracks|]; simpl.
  - destruct (pendingCandidatesRef st !! userId); simpl; apply lookup_insert_eq.
  - destruct (pendingCandidatesRef st !! userId); simpl; apply lookup_insert_eq.
Qed.

Lemma createPeerConnection_connectedUsers userId st :
  connectedUsers (createPeerConnection userId st).2 = connectedUsers st.
Proof.
  unfold Hook.createPeerConnection.
  destruct (peerConnectionsRef st !! userId); simpl; [done|].
  destruct localStream; simpl;
    by destruct (pendingCandidatesRef st !! userId).
Qed.

Lemma make_offer_connectedUsers userId pc st st' :
  make_offer userId pc st = Some st' →
  connectedUsers st' = connectedUsers st.
Proof.
  unfold Hook.make_offer. intros H.
  destruct (PC.createOffer B pc) as [o|]; simpl in H; [|done].
  destruct (PC.setLocalDescription B pc o); simpl in H; [|done].
  by simplify_eq.
Qed.

Lemma drainPending_connectedUsers userId pc st :
  connectedUsers (drainPending userId pc st) = connectedUsers st.
Proof.
  unfold Hook.drainPending.
  by destruct (Hook.addPendingCandidates B _ pc []).
Qed.

(** An event leaves the connected-users view alone, or it is an answer
    that is applied, or a teardown. *)
Lemma step_connectedUsers st ev :
  connectedUsers (step st ev) = connectedUsers st
  ∨ (∃ data pc,
       ev = Hook.EvAnswer data
       ∧ peerConnectionsRef st !! ad_senderId data = Some pc
       ∧ signalingState pc = HaveLocalOffer
       ∧ is_Some (PC.setRemoteDescription B pc (ad_answer data))
       ∧ connectedUsers (step st ev)
         = add_if_absent (ad_senderId data) (connectedUsers st))
  ∨ (∃ userId s,
       ev = Hook.EvConnectionState userId s
       ∧ (s = Disconnected ∨ s = Failed)
       ∧ connectedUsers (step st ev) = without userId (connectedUsers st)).
Proof.
  destruct ev as [u|r|d|d|d|u c|u s|u ch|u s|u|u|u d|u|u|u|e t|]; simpl.
  - left. unfold Hook.handleUserConnected.
    destruct isHost; [|done].
    pose proof (createPeerConnection_connectedUsers u
      (set_isInitiator true
         (console LvlLog "User connected, initiating call with:" st))) as Hc.
    destruct (createPeerConnection u _) as [pc st1]; simpl in Hc.
    destruct (make_offer u pc st1) as [st2|] eqn:Ho; [|done].
    by rewrite (make_offer_connectedUsers _ _ _ _ Ho).
  - left. unfold Hook.handleSendOffer.
    destruct isHost; simpl; [|done].
    pose proof (createPeerConnection_connectedUsers r
      (console LvlLog "Host sending offer to requester:" st)) as Hc.
    destruct (createPeerConnection r _) as [pc st1]; simpl in Hc.
    destruct (make_offer r pc st1) as [st2|] eqn:Ho; [|done].
    by rewrite (make_offer_connectedUsers _ _ _ _ Ho).
  - left. unfold Hook.handleOffer.
    pose proof (createPeerConnection_connectedUsers (od_senderId d)
      (console LvlLog "Received offer from:" st)) as Hc.
    destruct (createPeerConnection (od_senderId d) _) as [pc st1]; simpl in Hc.
    case_bool_decide; [done|].
    destruct (PC.setRemoteDescription B pc (od_offer d)) as [pc1|]; [|done].
    destruct (PC.createAnswer B pc1) as [a|]; [|done].
    destruct (PC.setLocalDescription B pc1 a) as [pc2|]; [|done].
    by rewrite drainPending_connectedUsers.
  - unfold Hook.handleAnswer. simpl.
    destruct (peerConnectionsRef st !! ad_senderId d) as [pc|] eqn:Hpc;
      [|by left].
    case_bool_decide as Hs; [by left|].
    destruct (PC.setRemoteDescription B pc (ad_answer d)) as [pc1|] eqn:Hr;
      [|by left].
    right; left. exists d, pc. split_and!; try done.
    simpl. by rewrite drainPending_connectedUsers.
  - left. unfold Hook.handleIceCandidate.
    destruct (peerConnectionsRef st !! cd_senderId d) as [pc|]; [|done].
    destruct (remoteDescription pc); [|done].
    destruct (PC.addIceCandidate B pc (cd_candidate d)) as [pc' []]; done.
  - left. by destruct c.
  - by left.
  - by left.
  - unfold Hook.pc_onconnectionstatechange.
    case_bool_decide as Hs; [|by left].
    right; right. by exists u, s.
  - left. unfold Hook.channel_onopen.
    by destruct (dataChannelsRef st !! u).
  - by left.
  - left. unfold Hook.channel_onmessage.
    destruct (JSON_parse d); [|done]. by destruct (inputCallbackRef st).
  - by left.
  - left. apply createPeerConnection_connectedUsers.
  - left. unfold Hook.startCall.
    pose proof (createPeerConnection_connectedUsers
                  (Hook.target_or_broadcast u) st) as Hc.
    destruct (createPeerConnection _ st) as [pc st1]; simpl in Hc.
    destruct (isHost && _); simpl.
    + destruct (make_offer _ _ _) as [st2|] eqn:Ho; [|done].
      by rewrite (make_offer_connectedUsers _ _ _ _ Ho).
    + destruct (make_offer _ _ _) as [st2|] eqn:Ho; [|done].
      by rewrite (make_offer_connectedUsers _ _ _ _ Ho).
  - left. unfold Hook.sendInputEvent.
    destruct t as [t|]; [|done].
    case_bool_decide; [done|]. by destruct (dataChannelsRef st !! t).
  - by left.
Qed.

Lemma add_if_absent_NoDup userId prev :
  NoDup prev → NoDup (add_if_absent userId prev).
Proof.
  intros Hnd. unfold add_if_absent. case_bool_decide as Hin; [done|].
  apply NoDup_app. split_and!; [done| |apply NoDup_singleton].
  intros x Hx Hx'. apply list_elem_of_singleton in Hx'. by subst.
Qed.

Lemma without_NoDup userId prev : NoDup prev → NoDup (without userId prev).
Proof. apply NoDup_filter. Qed.

Lemma step_NoDup st ev :
  NoDup (connectedUsers st) → NoDup (connectedUsers (step st ev)).
Proof.
  intros Hnd.
  destruct (step_connectedUsers st ev)
    as [-> | [(d & pc & _ & _ & _ & _ & ->) | (u & s & _ & _ & ->)]];
    auto using add_if_absent_NoDup, without_NoDup.
Qed.

(** *** The drain loop *)

Lemma addIceCandidate_fields pc c :
  let pc' := (PC.addIceCandidate B pc c).1 in
  pc_handle pc' = pc_handle pc
  ∧ signalingState pc' = signalingState pc
  ∧ localDescription pc' = localDescription pc
  ∧ remoteDescription pc' = remoteDescription pc
  ∧ (pc_iceCalls pc').*1 = (pc_iceCalls pc).*1 ++ [c].
Proof.
  simpl. split_and!; try done.
  by rewrite fmap_app.
Qed.

Lemma addPendingCandidates_fields cs : ∀ pc log,
  let pc' := (Hook.addPendingCandidates B cs pc log).1 in
  pc_handle pc' = pc_handle pc
  ∧ signalingState pc' = signalingState pc
  ∧ localDescription pc' = localDescription pc
  ∧ remoteDescription pc' = remoteDescription pc
  ∧ (pc_iceCalls pc').*1 = (pc_iceCalls pc).*1 ++ cs.
Proof.
  induction cs as [|c cs IH]; intros pc log; simpl.
  - split_and!; try done. by rewrite app_nil_r.
  - destruct (IH (PC.addIceCandidate B pc c).1
                 (if (PC.addIceCandidate B pc c).2 then log
                  else log ++ [Console LvlError "Error adding pending candidate:"]))
      as (Hh & Hs & Hl & Hr & Hc).
    simpl in *. split_and!; try done.
    rewrite Hc, fmap_app. simpl. by rewrite <- app_assoc.
Qed.

Lemma drainPending_record userId pc st :
  peerConnectionsRef (drainPending userId pc st) !! userId
  = Some (Hook.addPendingCandidates B
            (default [] (pendingCandidatesRef st !! userId)) pc []).1.
Proof.
  unfold Hook.drainPending.
  destruct (Hook.addPendingCandidates B _ pc []) as [pc' log]; simpl.
  apply lookup_insert_eq.
Qed.

Lemma drainPending_buffer userId pc st :
  pendingCandidatesRef (drainPending userId pc st) !! userId = Some [].
Proof.
  unfold Hook.drainPending.
  destruct (Hook.addPendingCandidates B _ pc []) as [pc' log]; simpl.
  apply lookup_insert_eq.
Qed.

Lemma setRemoteDescription_fields pc d pc' :
  PC.setRemoteDescription B pc d = Some pc' →
  remoteDescription pc' = Some d
  ∧ PC.remote_transition (signalingState pc) (sd_type d)
    = Some (signalingState pc')
  ∧ pc_handle pc' = pc_handle pc
  ∧ localDescription pc' = localDescription pc
  ∧ pc_iceCalls pc' = pc_iceCalls pc.
Proof.
  unfold PC.setRemoteDescription. intros H.
  destruct (PC.remote_transition _ _) as [s|]; [|done].
  destruct (acceptsRemote B pc d); [|done].
  by simplify_eq.
Qed.

Lemma setLocalDescription_fields pc d pc' :
  PC.setLocalDescription B pc d = Some pc' →
  localDescription pc' = Some d
  ∧ PC.local_transition (signalingState pc) (sd_type d)
    = Some (signalingState pc')
  ∧ pc_handle pc' = pc_handle pc
  ∧ remoteDescription pc' = remoteDescription pc
  ∧ pc_iceCalls pc' = pc_iceCalls pc.
Proof.
  unfold PC.setLocalDescription. intros H.
  destruct (PC.local_transition _ _) as [s|]; [|done].
  destruct (acceptsLocal B pc d); [|done].
  by simplify_eq.
Qed.

Lemma createPeerConnection_console lvl msg userId st :
  createPeerConnection userId (console lvl msg st)
  = ((createPeerConnection userId st).1,
     console lvl msg (createPeerConnection userId st).2).
Proof.
  unfold Hook.createPeerConnection. simpl.
  destruct (peerConnectionsRef st !! userId); simpl; [done|].
  destruct localStream; simpl;
    by destruct (pendingCandidatesRef st !! userId).
Qed.

Lemma createPeerConnection_buffer userId st :
  default [] (pendingCandidatesRef (createPeerConnection userId st).2 !! userId)
  = default [] (pendingCandidatesRef st !! userId).
Proof.
  unfold Hook.createPeerConnection.
  destruct (peerConnectionsRef st !! userId); simpl; [done|].
  destruct localStream; simpl;
    destruct (pendingCandidatesRef st !! userId) eqn:Hb; simpl;
    by rewrite ?Hb, ?lookup_insert_eq.
Qed.

Lemma emitted_console lvl msg st : emitted (console lvl msg st) = emitted st.
Proof. unfold emitted. simpl. rewrite omap_app. simpl. by rewrite app_nil_r. Qed.

Lemma emitted_socket_emit m st : emitted (socket_emit m st) = emitted st ++ [m].
Proof. unfold emitted. simpl. by rewrite omap_app. Qed.

Lemma createPeerConnection_dataChannels userId st :
  dataChannelsRef (createPeerConnection userId st).2 = dataChannelsRef st.
Proof.
  unfold Hook.createPeerConnection.
  destruct (peerConnectionsRef st !! userId); simpl; [done|].
  destruct localStream; simpl;
    by destruct (pendingCandidatesRef st !! userId).
Qed.

Lemma make_offer_dataChannels userId pc st st' :
  make_offer userId pc st = Some st' →
  dataChannelsRef st' = dataChannelsRef st.
Proof.
  unfold Hook.make_offer. intros H.
  destruct (PC.createOffer B pc) as [o|]; simpl in H; [|done].
  destruct (PC.setLocalDescription B pc o); simpl in H; [|done].
  by simplify_eq.
Qed.

End HookFacts.

(** ** Record creation *)

(** Two calls in a row: the second gives the record and the state of the
    first, whatever the state before. *)
Lemma createPeerConnection_twice localStream userId st :
  Hook.createPeerConnection localStream userId
    (Hook.createPeerConnection localStream userId st).2
  = Hook.createPeerConnection localStream userId st.
Proof.
  rewrite (createPeerConnection_existing _ _ _ _
             (createPeerConnection_registers localStream userId st)).
  by destruct (Hook.createPeerConnection localStream userId st).
Qed.

(** C1. Record creation is idempotent. Calling [createPeerConnection] for
    a participant that already has a record returns that record and leaves
    the whole state as it was. So a second call for the same participant
    returns the record of the first, with the same transport handle, makes
    no new transport and replaces no entry of the three maps. *)
Theorem createPeerConnection_idempotent localStream userId st :
  let first := Hook.createPeerConnection localStream userId st in
  let second := Hook.createPeerConnection localStream userId first.2 in
  (∀ pc, peerConnectionsRef st !! userId = Some pc → first = (pc, st))
  ∧ second.1 = first.1
  ∧ pc_handle second.1 = pc_handle first.1
  ∧ nextHandle second.2 = nextHandle first.2
  ∧ peerConnectionsRef second.2 = peerConnectionsRef first.2
  ∧ dataChannelsRef second.2 = dataChannelsRef first.2
  ∧ pendingCandidatesRef second.2 = pendingCandidatesRef first.2
  ∧ second.2 = first.2.
Proof.
  intros first second. subst first second.
  rewrite createPeerConnection_twice.
  split_and!; try done.
  apply createPeerConnection_existing.
Qed.

(** A host sharing one track asks twice for the transport of a guest. *)
Lemma createPeerConnection_idempotent_witness :
  let st := (Hook.createPeerConnection (Some ["screen"]) "guest-1" initialHook).2 in
  let pc := PC.addTrack (PC.fresh 0) "screen" in
  peerConnectionsRef st !! "guest-1" = Some pc
  ∧ Hook.createPeerConnection (Some ["screen"]) "guest-1" st = (pc, st)
  ∧ nextHandle st = 1.
Proof.
  split_and!; [reflexivity| |reflexivity].
  apply (createPeerConnection_idempotent (Some ["screen"]) "guest-1").
  reflexivity.
Defined.

(** ** Answers *)

(** C10. An answer from a sender without a record changes nothing but the
    console: no record is created, no buffer is drained or cleared, the
    connected-users view and the emitted messages are as before. *)
Theorem handleAnswer_without_record B data st :
  peerConnectionsRef st !! ad_senderId data = None →
  let st' := Hook.handleAnswer B data st in
  st' = console LvlError "Peer connection not found for user:"
          (console LvlLog "Received answer from:" st)
  ∧ peerConnectionsRef st' = peerConnectionsRef st
  ∧ pendingCandidatesRef st' = pendingCandidatesRef st
  ∧ dataChannelsRef st' = dataChannelsRef st
  ∧ connectedUsers st' = connectedUsers st
  ∧ emitted st' = emitted st.
Proof.
  intros Hnone. unfold Hook.handleAnswer. simpl. rewrite Hnone.
  split_and!; try done.
  unfold emitted. simpl. rewrite !omap_app. simpl. by rewrite !app_nil_r.
Qed.

(** An answer from a stranger reaches a hook that has no record at all. *)
Lemma handleAnswer_without_record_witness :
  let data := mkAnswerData (mkSD SdpAnswer "v=0 answer") "stranger" in
  let st' := Hook.handleAnswer goodBrowser data initialHook in
  peerConnectionsRef st' = ∅ ∧ connectedUsers st' = [] ∧ emitted st' = [].
Proof.
  destruct (handleAnswer_without_record goodBrowser
              (mkAnswerData (mkSD SdpAnswer "v=0 answer") "stranger")
              initialHook) as (_ & Hp & _ & _ & Hc & He); [reflexivity|].
  simpl. by rewrite Hp, Hc, He.
Defined.

(** C5. An answer is applied only to a record in [have-local-offer]. With
    the record in any other sub-state the answer is dropped with a warning
    and nothing else changes. With the record in [have-local-offer] and
    the description accepted, the remote description is installed and the
    sender is in the connected-users view afterwards. And that is the only
    way into the view: whenever an event of the hook puts a participant in
    it, the event is an answer from that participant applied to a record in
    [have-local-offer] — never an offer, sent or received. *)
Theorem handleAnswer_guard B roomId localStream isHost st :
  (∀ data pc,
     peerConnectionsRef st !! ad_senderId data = Some pc →
     signalingState pc ≠ HaveLocalOffer →
     Hook.handleAnswer B data st
     = console LvlWarn "Wrong state for answer:"
         (console LvlLog "Received answer from:" st))
  ∧ (∀ data pc pc1,
       peerConnectionsRef st !! ad_senderId data = Some pc →
       signalingState pc = HaveLocalOffer →
       PC.setRemoteDescription B pc (ad_answer data) = Some pc1 →
       let st' := Hook.handleAnswer B data st in
       connectedUsers st' = add_if_absent (ad_senderId data) (connectedUsers st)
       ∧ ad_senderId data ∈ connectedUsers st'
       ∧ ∃ pc', peerConnectionsRef st' !! ad_senderId data = Some pc'
                ∧ remoteDescription pc' = Some (ad_answer data))
  ∧ (∀ ev userId,
       userId ∈ connectedUsers (Hook.step B roomId localStream isHost st ev) →
       userId ∉ connectedUsers st →
       ∃ data pc,
         ev = Hook.EvAnswer data
         ∧ ad_senderId data = userId
         ∧ peerConnectionsRef st !! userId = Some pc
         ∧ signalingState pc = HaveLocalOffer
         ∧ is_Some (PC.setRemoteDescription B pc (ad_answer data))).
Proof.
  split_and!.
  - intros data pc Hpc Hs. unfold Hook.handleAnswer. simpl. rewrite Hpc.
    by rewrite bool_decide_eq_true_2.
  - intros data pc pc1 Hpc Hs Hr. unfold Hook.handleAnswer. simpl.
    rewrite Hpc, bool_decide_eq_false_2, Hr by (by intros ?).
    simpl. rewrite drainPending_connectedUsers. simpl.
    split_and!; [done| |].
    + unfold add_if_absent. case_bool_decide; [done|].
      apply elem_of_app. right. by apply list_elem_of_singleton.
    + rewrite drainPending_record. eexists. split; [done|].
      destruct (addPendingCandidates_fields B
                  (default [] (pendingCandidatesRef
                     (store_pc (ad_senderId data) pc1
                        (console LvlLog "Received answer from:" st))
                     !! ad_senderId data)) pc1 []) as (_ & _ & _ & -> & _).
      by destruct (setRemoteDescription_fields B _ _ _ Hr) as (-> & _).
  - intros ev userId Hin Hnin.
    destruct (step_connectedUsers B roomId localStream isHost st ev)
      as [Heq | [(d & pc & -> & Hpc & Hs & Hr & Heq) | (u & s & _ & _ & Heq)]].
    + by rewrite Heq in Hin.
    + rewrite Heq in Hin. unfold add_if_absent in Hin.
      case_bool_decide; [done|].
      apply elem_of_app in Hin as [?|Hin]; [done|].
      apply list_elem_of_singleton in Hin as ->. by exists d, pc.
    + rewrite Heq in Hin. unfold without in Hin.
      by apply list_elem_of_filter in Hin as [_ ?].
Qed.

(** The guest's answer connects the offering host; the same answer once
    more finds the record back in [stable] and is dropped. *)
Lemma handleAnswer_guard_witness :
  let connectedHost := Hook.handleAnswer goodBrowser guestAnswer hostOffering in
  connectedUsers connectedHost = ["guest"]
  ∧ Hook.handleAnswer goodBrowser guestAnswer connectedHost
    = console LvlWarn "Wrong state for answer:"
        (console LvlLog "Received answer from:" connectedHost).
Proof.
  split.
  - destruct (handleAnswer_guard goodBrowser room482913 None true hostOffering)
      as (_ & Happlied & _).
    edestruct (Happlied guestAnswer) as (Hview & _);
      [vm_compute; reflexivity | reflexivity | vm_compute; reflexivity |].
    exact Hview.
  - destruct (handleAnswer_guard goodBrowser room482913 None true
                (Hook.handleAnswer goodBrowser guestAnswer hostOffering))
      as (Hdropped & _).
    eapply (Hdropped guestAnswer); [vm_compute; reflexivity | vm_compute; discriminate].
Defined.

(** ** Teardown *)

(** C6. When the transport of a participant reports [disconnected] or
    [failed], the record, the channel entry and the candidate buffer of
    that participant are gone from their maps and the participant is not
    in the connected-users view. *)
Theorem teardown_complete userId connectionState st :
  connectionState = Disconnected ∨ connectionState = Failed →
  let st' := Hook.pc_onconnectionstatechange userId connectionState st in
  peerConnectionsRef st' !! userId = None
  ∧ dataChannelsRef st' !! userId = None
  ∧ pendingCandidatesRef st' !! userId = None
  ∧ userId ∉ connectedUsers st'.
Proof.
  intros Hs. unfold Hook.pc_onconnectionstatechange.
  rewrite bool_decide_eq_true_2 by done. simpl.
  split_and!; try apply lookup_delete_eq.
  unfold without. intros Hin. by apply list_elem_of_filter in Hin as [? _].
Qed.

(** The transport of the connected guest fails. *)
Lemma teardown_complete_witness :
  let st := Hook.pc_onconnectionstatechange "guest" Failed
              (Hook.handleAnswer goodBrowser guestAnswer hostOffering) in
  peerConnectionsRef st !! "guest" = None
  ∧ dataChannelsRef st !! "guest" = None
  ∧ pendingCandidatesRef st !! "guest" = None
  ∧ "guest" ∉ connectedUsers st.
Proof.
  apply (teardown_complete "guest" Failed). right. reflexivity.
Defined.

(** Teardown of one participant leaves the others alone. *)
Lemma teardown_others userId other connectionState st :
  other ≠ userId →
  let st' := Hook.pc_onconnectionstatechange userId connectionState st in
  peerConnectionsRef st' !! other = peerConnectionsRef st !! other
  ∧ dataChannelsRef st' !! other = dataChannelsRef st !! other
  ∧ pendingCandidatesRef st' !! other = pendingCandidatesRef st !! other
  ∧ (other ∈ connectedUsers st' ↔ other ∈ connectedUsers st).
Proof.
  intros Hne. unfold Hook.pc_onconnectionstatechange.
  case_bool_decide; simpl; [|done].
  split_and!; try by apply lookup_delete_ne.
  unfold without. rewrite list_elem_of_filter. tauto.
Qed.

(** ** The connected-users view *)

(** C9. The connected-users view never holds an id twice: in every state
    the hook reaches from its initial state, by any sequence of relay
    messages, transport and channel events and API calls, under any
    arguments and with any browser, the ids of the view are pairwise
    distinct. *)
Theorem connectedUsers_NoDup B evs :
  NoDup (connectedUsers (Hook.run B evs)).
Proof.
  unfold Hook.run.
  assert (∀ st, NoDup (connectedUsers st) →
            NoDup (connectedUsers
                     (foldl (λ st pe,
                        Hook.step B (Hook.props_roomId pe.1)
                          (Hook.props_localStream pe.1) (Hook.props_isHost pe.1)
                          st pe.2) st evs)))
    as Hgen.
  { induction evs as [|[props ev] evs IH]; intros st Hnd; simpl; [done|].
    apply IH. by apply step_NoDup. }
  apply Hgen. simpl. apply NoDup_nil_2.
Qed.

(** ** Offers and glare *)

(** Against C2 as stated. Host and guest have each sent the other an
    offer. The guest, receiving the host's offer, does not accept it and
    keeps its own; the host drops the guest's offer too. Neither side
    answers, both stay in [have-local-offer] and nobody is connected. *)
Lemma glare_is_not_resolved_by_role :
  let guest := Hook.handleOffer goodBrowser room482913 None offerOfHost
                 guestOffering in
  let host := Hook.handleOffer goodBrowser room482913 None offerOfGuest
                hostOffering in
  ¬ offer_accepted offerOfHost guest
  ∧ (signalingState <$> peerConnectionsRef guest !! "host") = Some HaveLocalOffer
  ∧ (remoteDescription <$> peerConnectionsRef guest !! "host") = Some None
  ∧ (localDescription <$> peerConnectionsRef guest !! "host")
    = Some (Some (od_offer offerOfGuest))
  ∧ emitted guest = [EmitOffer room482913 (od_offer offerOfGuest) "host"]
  ∧ (signalingState <$> peerConnectionsRef host !! "guest") = Some HaveLocalOffer
  ∧ (remoteDescription <$> peerConnectionsRef host !! "guest") = Some None
  ∧ emitted host = [EmitOffer room482913 (od_offer offerOfHost) "guest"]
  ∧ connectedUsers guest = []
  ∧ connectedUsers host = [].
Proof.
  split.
  - intros [Hremote _]. vm_compute in Hremote. discriminate.
  - vm_compute. by split_and!.
Qed.

(** C2, as the code has it. A participant of either role that receives an
    offer while its record for the sender is not in the [stable] sub-state
    (it has an offer of its own outstanding, for one) drops the incoming
    offer with a warning: the records, its own pending offer among them,
    the buffers, the channels and the connected-users view stay as they
    are, no answer is emitted, and only the initiator flag is reset. *)
Theorem handleOffer_not_stable B roomId localStream data st pc :
  peerConnectionsRef st !! od_senderId data = Some pc →
  signalingState pc ≠ Stable →
  let st' := Hook.handleOffer B roomId localStream data st in
  st' = console LvlWarn "Peer connection not in stable state:"
          (set_isInitiator false (console LvlLog "Received offer from:" st))
  ∧ peerConnectionsRef st' = peerConnectionsRef st
  ∧ pendingCandidatesRef st' = pendingCandidatesRef st
  ∧ dataChannelsRef st' = dataChannelsRef st
  ∧ connectedUsers st' = connectedUsers st
  ∧ emitted st' = emitted st
  ∧ isInitiatorRef st' = false.
Proof.
  intros Hpc Hs. unfold Hook.handleOffer.
  rewrite createPeerConnection_console.
  rewrite (createPeerConnection_existing _ _ _ _ Hpc). simpl.
  rewrite bool_decide_eq_true_2 by done.
  split_and!; try done.
  by rewrite emitted_console, <- (emitted_console LvlLog "Received offer from:" st).
Qed.

(** The offering guest receives the host's offer. *)
Lemma handleOffer_not_stable_witness :
  let guest := Hook.handleOffer goodBrowser room482913 None offerOfHost
                 guestOffering in
  peerConnectionsRef guest = peerConnectionsRef guestOffering
  ∧ emitted guest = emitted guestOffering
  ∧ isInitiatorRef guest = false.
Proof.
  edestruct (handleOffer_not_stable goodBrowser room482913 None offerOfHost
               guestOffering) as (_ & Hp & _ & _ & _ & He & Hi);
    [vm_compute; reflexivity | vm_compute; discriminate |].
  by split_and!.
Defined.

(** ** Candidates *)

(** Against C3 as stated. A candidate of the host is buffered at a fresh
    guest; the host's offer follows and is installed as remote description,
    but the browser rejects [createAnswer]: the handler stops there, the
    buffered candidate is not given to the transport and stays buffered. *)
Lemma drain_skipped_when_answer_fails :
  let st := Hook.handleOffer noAnswerBrowser room482913 None offerOfHost
              (guestWithEarlyCandidate noAnswerBrowser) in
  ∃ pc, peerConnectionsRef st !! "host" = Some pc
        ∧ remoteDescription pc = Some (od_offer offerOfHost)
        ∧ attempted pc = []
        ∧ buffer st "host" = [cd_candidate earlyCandidate].
Proof. eexists. vm_compute. by split_and!. Qed.

(** C3, as the code has it. An inbound candidate is appended to the
    sender's buffer exactly when there is no record for the sender or the
    record has no remote description yet; otherwise it is given to the
    transport at once and the buffers are left alone. When an answer is
    applied, and when an offer is handled and the local answer has been
    created, installed and emitted, every buffered candidate is then given
    to the transport, in buffer order and whatever the outcome of each, and
    the buffer is emptied. When the answer to an offer cannot be created or
    installed, the handler stops with the buffer as it was. *)
Theorem candidate_buffering B roomId localStream st :
  (∀ data,
     let userId := cd_senderId data in
     let st' := Hook.handleIceCandidate B data st in
     (must_wait st userId = true →
        buffer st' userId = buffer st userId ++ [cd_candidate data]
        ∧ peerConnectionsRef st' = peerConnectionsRef st)
     ∧ (must_wait st userId = false →
          pendingCandidatesRef st' = pendingCandidatesRef st
          ∧ ∃ pc pc', peerConnectionsRef st !! userId = Some pc
                      ∧ peerConnectionsRef st' !! userId = Some pc'
                      ∧ attempted pc' = attempted pc ++ [cd_candidate data]))
  ∧ (∀ data pc pc1,
       let userId := ad_senderId data in
       peerConnectionsRef st !! userId = Some pc →
       signalingState pc = HaveLocalOffer →
       PC.setRemoteDescription B pc (ad_answer data) = Some pc1 →
       let st' := Hook.handleAnswer B data st in
       ∃ pc', peerConnectionsRef st' !! userId = Some pc'
              ∧ remoteDescription pc' = Some (ad_answer data)
              ∧ attempted pc' = attempted pc ++ buffer st userId
              ∧ pendingCandidatesRef st' !! userId = Some [])
  ∧ (∀ data pc1,
       let userId := od_senderId data in
       let pc := (Hook.createPeerConnection localStream userId st).1 in
       signalingState pc = Stable →
       PC.setRemoteDescription B pc (od_offer data) = Some pc1 →
       let st' := Hook.handleOffer B roomId localStream data st in
       match PC.createAnswer B pc1 ≫= (λ answer,
               PC.setLocalDescription B pc1 answer ≫= (λ pc2, Some (answer, pc2)))
       with
       | Some (answer, pc2) =>
           ∃ pc', peerConnectionsRef st' !! userId = Some pc'
                  ∧ remoteDescription pc' = Some (od_offer data)
                  ∧ attempted pc' = attempted pc ++ buffer st userId
                  ∧ pendingCandidatesRef st' !! userId = Some []
                  ∧ EmitAnswer roomId answer userId ∈ emitted st'
       | None =>
           peerConnectionsRef st' !! userId = Some pc1
           ∧ attempted pc1 = attempted pc
           ∧ buffer st' userId = buffer st userId
       end).
Proof.
  split_and!.
  - intros data userId st'. subst st'. unfold must_wait, buffer, Hook.handleIceCandidate.
    fold userId.
    destruct (peerConnectionsRef st !! userId) as [pc|] eqn:Hpc.
    + destruct (remoteDescription pc) as [d|] eqn:Hd; split; intros Hw;
        try (by case_bool_decide).
      * unfold PC.addIceCandidate. rewrite Hd.
        destruct (acceptsCandidate B pc (cd_candidate data)); simpl.
        all: split; [done|]; eexists pc, _.
        all: split_and!; [done | apply lookup_insert_eq |].
        all: unfold attempted; simpl; by rewrite fmap_app.
      * simpl. by rewrite lookup_insert_eq.
    + split; intros Hw; [|done]. simpl. by rewrite lookup_insert_eq.
  - intros data pc pc1 userId Hpc Hs Hr st'. subst st' userId.
    unfold Hook.handleAnswer. simpl.
    rewrite Hpc, bool_decide_eq_false_2, Hr by (by intros ?). simpl.
    eexists. rewrite drainPending_record, drainPending_buffer.
    split_and!; try done.
    + destruct (addPendingCandidates_fields B
                  (default [] (pendingCandidatesRef
                     (store_pc (ad_senderId data) pc1
                        (console LvlLog "Received answer from:" st))
                     !! ad_senderId data)) pc1 []) as (_ & _ & _ & -> & _).
      by destruct (setRemoteDescription_fields B _ _ _ Hr) as (-> & _).
    + unfold attempted.
      destruct (addPendingCandidates_fields B
                  (default [] (pendingCandidatesRef
                     (store_pc (ad_senderId data) pc1
                        (console LvlLog "Received answer from:" st))
                     !! ad_senderId data)) pc1 []) as (_ & _ & _ & _ & ->).
      by destruct (setRemoteDescription_fields B _ _ _ Hr) as (_ & _ & _ & _ & ->).
  - intros data pc1 userId pc Hs Hr st'. subst st' pc userId.
    unfold Hook.handleOffer. rewrite createPeerConnection_console.
    pose proof (createPeerConnection_registers localStream (od_senderId data) st) as Hreg.
    pose proof (createPeerConnection_buffer localStream (od_senderId data) st) as Hbuf.
    destruct (Hook.createPeerConnection localStream (od_senderId data) st)
      as [pc st1]; simpl in *.
    rewrite bool_decide_eq_false_2, Hr by (by intros ?).
    destruct (setRemoteDescription_fields B _ _ _ Hr) as (Hrd & _ & _ & _ & Hcalls).
    destruct (PC.createAnswer B pc1) as [answer|] eqn:Ha; simpl.
    + destruct (PC.setLocalDescription B pc1 answer) as [pc2|] eqn:Hl; simpl.
      * destruct (setLocalDescription_fields B _ _ _ Hl) as (_ & _ & _ & Hrd2 & Hcalls2).
        eexists. rewrite drainPending_record, drainPending_buffer.
        split_and!; try done.
        -- destruct (addPendingCandidates_fields B
                  (default [] (pendingCandidatesRef
                     (socket_emit (EmitAnswer roomId answer (od_senderId data))
                        (store_pc (od_senderId data) pc2
                           (store_pc (od_senderId data) pc1
                              (set_isInitiator false
                                 (console LvlLog "Received offer from:" st1)))))
                     !! od_senderId data)) pc2 []) as (_ & _ & _ & -> & _).
           congruence.
        -- unfold attempted, buffer.
           destruct (addPendingCandidates_fields B
                  (default [] (pendingCandidatesRef
                     (socket_emit (EmitAnswer roomId answer (od_senderId data))
                        (store_pc (od_senderId data) pc2
                           (store_pc (od_senderId data) pc1
                              (set_isInitiator false
                                 (console LvlLog "Received offer from:" st1)))))
                     !! od_senderId data)) pc2 []) as (_ & _ & _ & _ & ->).
           simpl. rewrite Hcalls2, Hcalls. by rewrite <- Hbuf.
        -- unfold Hook.drainPending.
           destruct (Hook.addPendingCandidates B _ pc2 []) as [pc' log].
           unfold emitted. simpl. rewrite !omap_app. simpl.
           apply elem_of_app. left. apply elem_of_app. right.
           by apply list_elem_of_singleton.
      * split_and!.
        -- apply lookup_insert_eq.
        -- unfold attempted. by rewrite Hcalls.
        -- done.
    + split_and!.
      * apply lookup_insert_eq.
      * unfold attempted. by rewrite Hcalls.
      * done.
Qed.

(** The early candidate waits at the guest, then is given to the transport
    when the host's offer has been answered. *)
Lemma candidate_buffering_witness :
  let waiting := guestWithEarlyCandidate goodBrowser in
  let answered := Hook.handleOffer goodBrowser room482913 None offerOfHost
                    waiting in
  buffer waiting "host" = [cd_candidate earlyCandidate]
  ∧ ∃ pc', peerConnectionsRef answered !! "host" = Some pc'
           ∧ remoteDescription pc' = Some (od_offer offerOfHost)
           ∧ attempted pc' = [cd_candidate earlyCandidate]
           ∧ pendingCandidatesRef answered !! "host" = Some []
           ∧ EmitAnswer room482913 (mkSD SdpAnswer "v=0 answer") "host"
             ∈ emitted answered.
Proof.
  split.
  - destruct (candidate_buffering goodBrowser room482913 None initialHook)
      as (Hcandidate & _ & _).
    destruct (Hcandidate earlyCandidate) as (Hwait & _).
    destruct Hwait as [Hbuffer _]; [reflexivity|]. exact Hbuffer.
  - destruct (candidate_buffering goodBrowser room482913 None
                (guestWithEarlyCandidate goodBrowser)) as (_ & _ & Hoffer).
    refine (Hoffer offerOfHost
              (mkPC 0 HaveRemoteOffer None (Some (od_offer offerOfHost)) [] [] [])
              _ _); reflexivity.
Defined.

(** ** The input channel at offer time *)

(** C8, the code at a failing input. A host offers to a guest on the
    guest's arrival and, from a fresh state again, on the guest's request:
    the offer is emitted but no input channel has been opened, neither on
    the transport nor in the channel map. Asked to call the same guest,
    the host does open the ordered channel labelled [input] and then
    emits the offer. *)
Theorem host_offer_without_input_channel :
  let onArrival := hostOffering in
  let onRequest :=
    Hook.handleSendOffer goodBrowser room482913 None true "guest" initialHook in
  let onCall :=
    Hook.startCall goodBrowser room482913 None true (Some "guest") initialHook in
  let offerSent := [EmitOffer room482913 (mkSD SdpOffer "v=0 offer") "guest"] in
  (emitted onArrival = offerSent
   ∧ dataChannelsRef onArrival !! "guest" = None
   ∧ (pc_channels <$> peerConnectionsRef onArrival !! "guest") = Some [])
  ∧ (emitted onRequest = offerSent
     ∧ dataChannelsRef onRequest !! "guest" = None
     ∧ (pc_channels <$> peerConnectionsRef onRequest !! "guest") = Some [])
  ∧ (emitted onCall = offerSent
     ∧ dataChannelsRef onCall !! "guest" = Some (mkDC "input" true DcConnecting [])
     ∧ (pc_channels <$> peerConnectionsRef onCall !! "guest")
       = Some [("input", true)]).
Proof. vm_compute. by split_and!. Qed.

(** In every state, for every browser: the two automatic offering paths
    leave the channel map as it is. *)
Lemma automatic_offers_open_no_channel B roomId localStream isHost userId st :
  dataChannelsRef (Hook.handleUserConnected B roomId localStream isHost userId st)
  = dataChannelsRef st
  ∧ dataChannelsRef (Hook.handleSendOffer B roomId localStream isHost userId st)
    = dataChannelsRef st.
Proof.
  split.
  - unfold Hook.handleUserConnected. destruct isHost; [|done].
    pose proof (createPeerConnection_dataChannels localStream userId
      (set_isInitiator true
         (console LvlLog "User connected, initiating call with:" st))) as Hc.
    destruct (Hook.createPeerConnection localStream userId _) as [pc st1].
    simpl in Hc.
    destruct (Hook.make_offer B roomId userId pc st1) as [st2|] eqn:Ho; [|done].
    by rewrite (make_offer_dataChannels _ _ _ _ _ _ Ho).
  - unfold Hook.handleSendOffer. destruct isHost; simpl; [|done].
    pose proof (createPeerConnection_dataChannels localStream userId
      (console LvlLog "Host sending offer to requester:" st)) as Hc.
    destruct (Hook.createPeerConnection localStream userId _) as [pc st1].
    simpl in Hc.
    destruct (Hook.make_offer B roomId userId pc st1) as [st2|] eqn:Ho; [|done].
    by rewrite (make_offer_dataChannels _ _ _ _ _ _ Ho).
Qed.

(** A host asked to call has a channel registered for the target
    afterwards, whether or not the offer could be made. *)
Lemma startCall_registers_channel B roomId localStream userId st :
  is_Some (dataChannelsRef (Hook.startCall B roomId localStream true userId st)
           !! Hook.target_or_broadcast userId).
Proof.
  unfold Hook.startCall.
  pose proof (createPeerConnection_dataChannels localStream
                (Hook.target_or_broadcast userId) st) as Hc.
  destruct (Hook.createPeerConnection localStream _ st) as [pc st1].
  simpl in Hc. simpl.
  case_bool_decide as Hhas; simpl.
  - destruct (Hook.make_offer B roomId _ pc st1) as [st2|] eqn:Ho.
    + by rewrite (make_offer_dataChannels _ _ _ _ _ _ Ho).
    + done.
  - destruct (Hook.make_offer B roomId _ _ _) as [st2|] eqn:Ho.
    + rewrite (make_offer_dataChannels _ _ _ _ _ _ Ho). simpl.
      rewrite lookup_insert_eq. by eexists.
    + simpl. rewrite lookup_insert_eq. by eexists.
Qed.

(** ** The relay *)

Section RelayFacts.
Import Relay.

Lemma elem_of_recipients st socketId name r :
  r ∈ recipients st socketId name ↔ r ∈ room st name ∧ r ≠ socketId.
Proof.
  unfold recipients. rewrite elem_of_elements, elem_of_difference.
  by rewrite elem_of_singleton.
Qed.

Lemma new_deliveries_socket_to_emit st socketId name ev :
  new_deliveries st (socket_to_emit socketId name ev st)
  = (λ r, (r, ev)) <$> recipients st socketId name.
Proof. unfold new_deliveries, socket_to_emit. simpl. apply drop_app_length. Qed.

Lemma elem_of_new_deliveries st socketId name ev r m :
  (r, m) ∈ new_deliveries st (socket_to_emit socketId name ev st)
  ↔ r ∈ room st name ∧ r ≠ socketId ∧ m = ev.
Proof.
  rewrite new_deliveries_socket_to_emit, list_elem_of_fmap. split.
  - intros (r' & Heq & Hin). simplify_eq.
    apply elem_of_recipients in Hin. tauto.
  - intros (Hin & Hne & ->). exists r. split; [done|].
    by apply elem_of_recipients.
Qed.

End RelayFacts.

(** Against C4 as stated. Host and two guests are in the room; the host
    sends an offer with the first guest as target: the relay delivers it to
    the second guest as well. *)
Lemma offer_reaches_members_other_than_target :
  let offer := mkSD SdpOffer "v=0 offer" in
  let after := Relay.on_offer "host" room482913 offer "guest-1" threeInRoom in
  "guest-2" ≠ "guest-1"
  ∧ ("guest-2", Relay.Offer offer "host" "guest-1")
    ∈ Relay.new_deliveries threeInRoom after.
Proof.
  split; [done|].
  apply elem_of_new_deliveries. split_and!; [|done|done].
  refine (bool_decide_unpack _ _). vm_compute. exact I.
Qed.

(** C4, as the code has it. An offer, an answer or a candidate sent into a
    room is delivered to every socket joined to that room except the
    sender, and to nobody else; what is delivered is the payload with the
    sender's id and the target id it came with. The target id does not
    select the receivers. *)
Theorem relay_routes_by_room st socketId roomId targetUserId r m :
  (∀ offer,
     (r, m) ∈ Relay.new_deliveries st
               (Relay.on_offer socketId roomId offer targetUserId st)
     ↔ r ∈ Relay.room st roomId ∧ r ≠ socketId
       ∧ m = Relay.Offer offer socketId targetUserId)
  ∧ (∀ answer,
       (r, m) ∈ Relay.new_deliveries st
                 (Relay.on_answer socketId roomId answer targetUserId st)
       ↔ r ∈ Relay.room st roomId ∧ r ≠ socketId
         ∧ m = Relay.Answer answer socketId targetUserId)
  ∧ (∀ candidate,
       (r, m) ∈ Relay.new_deliveries st
                 (Relay.on_ice_candidate socketId roomId candidate targetUserId st)
       ↔ r ∈ Relay.room st roomId ∧ r ≠ socketId
         ∧ m = Relay.IceCandidate candidate socketId targetUserId).
Proof. split_and!; intros; apply elem_of_new_deliveries. Qed.

(** The relay keeps what it had delivered and its rooms when it forwards. *)
Lemma relay_forward_keeps_state st socketId name ev :
  let st' := Relay.socket_to_emit socketId name ev st in
  Relay.rooms st' = Relay.rooms st
  ∧ Relay.members st' = Relay.members st
  ∧ take (length (Relay.delivered st)) (Relay.delivered st') = Relay.delivered st.
Proof. simpl. split_and!; [done..|]. apply take_app_length. Qed.

(** ** Pointer coordinates *)

(** Against C7 as stated. A click at (150, -20) arrives on the channel of
    a host with a callback registered: the callback is called with it. *)
Lemma stray_click_reaches_callback :
  let st := Hook.channel_onmessage "guest" (JSON_stringify strayClick)
              (Hook.setInputCallback initialHook) in
  GuestPage.coordinates_ok strayClick = false
  ∧ callbackCalls st = [(strayClick, "guest")]
  ∧ ¬ Forall (λ call, GuestPage.coordinates_ok call.1 = true) (callbackCalls st).
Proof.
  split_and!; [reflexivity|reflexivity|].
  intros Hall. apply Forall_cons in Hall as [Hok _]. discriminate Hok.
Qed.

(** C7, as the code has it. The guest page computes the position of a
    pointer event in percent of the overlay. When a coordinate is outside
    [0,100] the handlers for move, down, up and click send nothing and
    change nothing. When both are inside, the event with exactly these
    coordinates goes to [sendInputEvent], which appends it to what every
    open channel has sent and leaves the other channels alone. On the
    receiving side there is no range check: an event that parses is handed
    to the registered callback as it arrived. *)
Theorem pointer_events_bounds rect now e gs :
  let x := GuestPage.percent (GuestPage.clientX e) (GuestPage.rect_left rect)
             (GuestPage.rect_width rect) in
  let y := GuestPage.percent (GuestPage.clientY e) (GuestPage.rect_top rect)
             (GuestPage.rect_height rect) in
  (GuestPage.within_bounds x y = false →
     GuestPage.handleMouseMove rect now e gs = gs
     ∧ GuestPage.handleMouseDown rect now e gs = gs
     ∧ GuestPage.handleMouseUp rect now e gs = gs
     ∧ GuestPage.handleClick rect now e gs = gs)
  ∧ (GuestPage.within_bounds x y = true →
       let sent type btn gs' :=
         dataChannelsRef (GuestPage.hook gs')
         = Hook.send_if_open
             (JSON_stringify (GuestPage.pointerEvent type x y btn now))
           <$> dataChannelsRef (GuestPage.hook gs) in
       let btn := Some (GuestPage.button e) in
       sent mousemove None (GuestPage.handleMouseMove rect now e gs)
       ∧ sent mousedown btn (GuestPage.handleMouseDown rect now e gs)
       ∧ sent mouseup btn (GuestPage.handleMouseUp rect now e gs)
       ∧ sent click btn (GuestPage.handleClick rect now e gs))
  ∧ (∀ userId event st,
       inputCallbackRef st = true →
       callbackCalls (Hook.channel_onmessage userId (JSON_stringify event) st)
       = callbackCalls st ++ [(event, userId)]).
Proof.
  intros x y. split_and!.
  - intros Hout.
    unfold GuestPage.handleMouseDown, GuestPage.handleMouseUp,
      GuestPage.handleClick, GuestPage.handleButton, GuestPage.handleMouseMove.
    fold x y. by rewrite Hout.
  - intros Hin.
    unfold GuestPage.handleMouseDown, GuestPage.handleMouseUp,
      GuestPage.handleClick, GuestPage.handleButton, GuestPage.handleMouseMove.
    fold x y. rewrite Hin. simpl. by split_and!.
  - intros userId event st Hcb. unfold Hook.channel_onmessage. simpl.
    by rewrite Hcb.
Qed.

(** A click outside the overlay sends nothing; a click in its middle goes
    out on the open channel as (50, 50). *)
Lemma pointer_events_bounds_witness :
  GuestPage.handleClick overlay 1%float pointerOutside guestWithOpenChannel
  = guestWithOpenChannel
  ∧ dataChannelsRef
      (GuestPage.hook
         (GuestPage.handleClick overlay 1%float pointerInside guestWithOpenChannel))
    !! "host"
    = Some (mkDC "input" true DcOpen
              [Json (GuestPage.pointerEvent click 50%float 50%float
                       (Some 0%float) 1%float)]).
Proof.
  split.
  - destruct (pointer_events_bounds overlay 1%float pointerOutside
                guestWithOpenChannel) as (Hout & _ & _).
    apply Hout. reflexivity.
  - destruct (pointer_events_bounds overlay 1%float pointerInside
                guestWithOpenChannel) as (_ & Hin & _).
    destruct Hin as (_ & _ & _ & Hclick); [reflexivity|].
    rewrite Hclick. reflexivity.
Defined.

(** What [send_if_open] does to one channel of the map. *)
Lemma broadcast_on_channel (d : WireData) (channels : gmap string RTCDataChannel)
    userId dc :
  channels !! userId = Some dc →
  (Hook.send_if_open d <$> channels) !! userId
  = Some (if bool_decide (readyState dc = DcOpen)
          then mkDC (dc_label dc) (dc_ordered dc) (readyState dc)
                    (dc_sent dc ++ [d])
          else dc).
Proof. intros Hdc. rewrite lookup_fmap, Hdc. simpl. done. Qed.

(** * Further properties of the code *)

(** ** The room registry and the notifications of the relay *)

Section RelayMore.
Import Relay.

Lemma room_socket_join st socketId name other :
  room (socket_join socketId name st) other
  = if bool_decide (other = name) then {[socketId]} ∪ room st name
    else room st other.
Proof.
  unfold room, socket_join. simpl. case_bool_decide as Heq.
  - subst. by rewrite lookup_insert_eq.
  - by rewrite lookup_insert_ne.
Qed.

Lemma room_on_disconnect st socketId name :
  room (on_disconnect socketId st) name = room st name ∖ {[socketId]}.
Proof.
  unfold room, on_disconnect. simpl. rewrite lookup_fmap.
  destruct (members st !! name); simpl; [done|].
  apply set_eq. intros x. rewrite elem_of_difference, elem_of_empty. tauto.
Qed.

Lemma rooms_on_join_room st socketId roomId r :
  rooms (on_join_room socketId roomId st) !! r
  = if bool_decide (r = roomId)
    then Some (default (mkRoomData (Some socketId)) (rooms st !! roomId))
    else rooms st !! r.
Proof.
  unfold on_join_room. simpl.
  destruct (rooms st !! roomId) as [d|] eqn:Hd; simpl.
  - case_bool_decide; by subst.
  - case_bool_decide; subst; by rewrite ?lookup_insert_eq, ?lookup_insert_ne.
Qed.

Lemma rooms_on_disconnect st socketId r d :
  rooms (on_disconnect socketId st) !! r = Some d
  ↔ rooms st !! r = Some d ∧ hostId d ≠ Some socketId.
Proof. unfold on_disconnect. simpl. by rewrite map_lookup_filter_Some. Qed.

Lemma rooms_socket_to_emit st socketId name ev :
  rooms (socket_to_emit socketId name ev st) = rooms st.
Proof. done. Qed.

Lemma host_of_step_other st socketId ev roomId h :
  host_of st roomId = Some h →
  (socketId, ev) ≠ (h, RDisconnect) →
  host_of (relay_step st (socketId, ev)) roomId = Some h.
Proof.
  unfold host_of. intros Hh Hne.
  destruct (rooms st !! roomId) as [d|] eqn:Hd; simpl in Hh; [|done].
  destruct ev as [|r|r|r o t|r a t|r c t|]; unfold relay_step; cbn [fst snd].
  1,3,4,5,6: simpl; by rewrite Hd.
  - rewrite rooms_on_join_room. case_bool_decide; subst; by rewrite Hd.
  - assert (rooms (on_disconnect socketId st) !! roomId = Some d) as ->; [|done].
    apply rooms_on_disconnect. split; [done|].
    rewrite Hh. intros [= <-]. by apply Hne.
Qed.

End RelayMore.

(** The first socket to join a room that is not registered becomes its
    host; joining a registered room changes neither its host nor any other
    room of the registry. *)
Theorem join_room_registers_first_joiner st socketId roomId :
  (Relay.rooms st !! roomId = None →
     host_of (Relay.on_join_room socketId roomId st) roomId = Some socketId)
  ∧ (∀ d, Relay.rooms st !! roomId = Some d →
       Relay.rooms (Relay.on_join_room socketId roomId st) !! roomId = Some d)
  ∧ (∀ r, r ≠ roomId →
       Relay.rooms (Relay.on_join_room socketId roomId st) !! r
       = Relay.rooms st !! r).
Proof.
  unfold host_of. split_and!.
  - intros Hnone. rewrite rooms_on_join_room, bool_decide_eq_true_2 by done.
    by rewrite Hnone.
  - intros d Hd. rewrite rooms_on_join_room, bool_decide_eq_true_2 by done.
    by rewrite Hd.
  - intros r Hne. by rewrite rooms_on_join_room, bool_decide_eq_false_2.
Qed.

(** In an empty relay the first of two joiners is the host. *)
Lemma join_room_registers_first_joiner_witness :
  host_of (Relay.on_join_room "guest" room482913
             (Relay.on_join_room "host" room482913 Relay.initialRelay))
          room482913
  = Some "host".
Proof.
  destruct (join_room_registers_first_joiner
              (Relay.on_join_room "host" room482913 Relay.initialRelay)
              "guest" room482913) as (_ & Hlater & _).
  unfold host_of.
  rewrite (Hlater (Relay.mkRoomData (Some "host"))); reflexivity.
Defined.

(** Once a room has a host, the host stays the same through every relay
    event, of any socket, that is not the disconnection of that host. *)
Theorem host_is_stable st roomId h evs :
  host_of st roomId = Some h →
  (h, RDisconnect) ∉ evs →
  host_of (foldl relay_step st evs) roomId = Some h.
Proof.
  revert st. induction evs as [|[s ev] evs IH]; intros st Hh Hnot; simpl; [done|].
  apply IH.
  - apply host_of_step_other; [done|]. intros Heq. apply Hnot. rewrite Heq.
    apply list_elem_of_here.
  - intros Hin. apply Hnot. by apply list_elem_of_further.
Qed.

Lemma host_is_stable_witness :
  host_of (foldl relay_step threeInRoom
             [("guest-1", RRequestOffer room482913);
              ("guest-2", RDisconnect);
              ("guest-3", RJoinRoom room482913)])
          room482913
  = Some "host".
Proof.
  apply (host_is_stable threeInRoom room482913 "host").
  - reflexivity.
  - intros Hin. repeat (apply elem_of_cons in Hin as [Heq|Hin];
                        [discriminate Heq|]).
    by apply elem_of_nil in Hin.
Defined.

Lemma elem_of_join_deliveries st socketId roomId r m :
  (r, m) ∈ Relay.new_deliveries st (Relay.on_join_room socketId roomId st)
  ↔ r ∈ Relay.room st roomId ∧ r ≠ socketId ∧ m = Relay.UserConnected socketId.
Proof.
  unfold Relay.on_join_room.
  set (st1 := Relay.socket_join socketId roomId st).
  set (st2 := match Relay.rooms st1 !! roomId with
              | Some _ => st1
              | None => _
              end).
  assert (Relay.delivered st2 = Relay.delivered st
          ∧ Relay.members st2 = Relay.members st1) as [Hd Hm].
  { subst st2. by destruct (Relay.rooms st1 !! roomId). }
  unfold Relay.new_deliveries, Relay.socket_to_emit. simpl.
  rewrite <- Hd, drop_app_length, list_elem_of_fmap.
  unfold Relay.recipients. split.
  - intros (r' & Heq & Hin). simplify_eq.
    rewrite elem_of_elements, elem_of_difference, elem_of_singleton in Hin.
    destruct Hin as [Hin Hne]. split_and!; [|done..].
    unfold Relay.room in Hin. rewrite Hm in Hin.
    change (default ∅ (Relay.members st1 !! roomId)) with (Relay.room st1 roomId) in Hin.
    subst st1. rewrite room_socket_join, bool_decide_eq_true_2 in Hin by done.
    apply elem_of_union in Hin as [Hin|Hin]; [|done].
    by apply elem_of_singleton in Hin.
  - intros (Hin & Hne & ->). exists r. split; [done|].
    rewrite elem_of_elements, elem_of_difference, elem_of_singleton.
    split; [|done]. unfold Relay.room. rewrite Hm.
    change (default ∅ (Relay.members st1 !! roomId)) with (Relay.room st1 roomId).
    subst st1. rewrite room_socket_join, bool_decide_eq_true_2 by done.
    apply elem_of_union. by right.
Qed.

(** Joining a room notifies exactly the sockets that were in the room
    before, each with the joiner's id; the joiner itself is told nothing,
    not even who is already there. *)
Theorem join_room_notifies_the_others st socketId roomId r m :
  (r, m) ∈ Relay.new_deliveries st (Relay.on_join_room socketId roomId st)
  ↔ r ∈ Relay.room st roomId ∧ r ≠ socketId ∧ m = Relay.UserConnected socketId.
Proof. apply elem_of_join_deliveries. Qed.

(** A request for an offer goes to every other socket of the room, whoever
    is registered as its host; the registry is not consulted. *)
Lemma request_offer_reaches_whole_room st socketId roomId r m :
  ((r, m) ∈ Relay.new_deliveries st (Relay.on_request_offer socketId roomId st)
   ↔ r ∈ Relay.room st roomId ∧ r ≠ socketId ∧ m = Relay.SendOffer socketId)
  ∧ Relay.rooms (Relay.on_request_offer socketId roomId st) = Relay.rooms st.
Proof. split; [apply elem_of_new_deliveries|done]. Qed.

(** A disconnection deletes the rooms the socket hosted and no other,
    takes the socket out of every room, and tells nobody: the members of a
    deleted room get no message. *)
Theorem disconnect_deletes_hosted_rooms st socketId :
  let st' := Relay.on_disconnect socketId st in
  (∀ r d, Relay.rooms st' !! r = Some d
          ↔ Relay.rooms st !! r = Some d ∧ Relay.hostId d ≠ Some socketId)
  ∧ (∀ name, Relay.room st' name = Relay.room st name ∖ {[socketId]})
  ∧ Relay.delivered st' = Relay.delivered st.
Proof.
  split_and!; [|apply room_on_disconnect|done].
  intros r d. apply rooms_on_disconnect.
Qed.

(** After the host of a room has gone, the next socket to join becomes the
    host, although the other members never left the room. *)
Theorem next_joiner_takes_over st roomId h socketId :
  host_of st roomId = Some h →
  let st' := Relay.on_join_room socketId roomId (Relay.on_disconnect h st) in
  host_of st' roomId = Some socketId
  ∧ ∀ r, r ∈ Relay.room st roomId → r ≠ h → r ∈ Relay.room st' roomId.
Proof.
  intros Hh. simpl. split.
  - unfold host_of. rewrite rooms_on_join_room, bool_decide_eq_true_2 by done.
    destruct (Relay.rooms (Relay.on_disconnect h st) !! roomId) as [d|] eqn:Hd;
      [|done].
    apply rooms_on_disconnect in Hd as [Hd Hne].
    unfold host_of in Hh. rewrite Hd in Hh. simpl in Hh. done.
  - intros r Hin Hne. unfold Relay.on_join_room.
    set (st1 := Relay.socket_join socketId roomId (Relay.on_disconnect h st)).
    assert (Relay.room st1 roomId
            = {[socketId]} ∪ (Relay.room st roomId ∖ {[h]})) as Hroom.
    { subst st1. rewrite room_socket_join, bool_decide_eq_true_2 by done.
      by rewrite room_on_disconnect. }
    match goal with
    | |- r ∈ Relay.room ?final roomId =>
        assert (Relay.room final roomId = Relay.room st1 roomId) as ->
    end.
    { unfold Relay.room. simpl. by case_match. }
    rewrite Hroom. apply elem_of_union. right.
    apply elem_of_difference. split; [done|]. by rewrite elem_of_singleton.
Qed.

Lemma next_joiner_takes_over_witness :
  host_of (Relay.on_join_room "guest-3" room482913
             (Relay.on_disconnect "host" threeInRoom)) room482913
  = Some "guest-3".
Proof.
  apply (next_joiner_takes_over threeInRoom room482913 "host" "guest-3").
  reflexivity.
Defined.

(** Whatever the clients do, the relay never sends a socket its own
    message, every registered room has a host, and what has been delivered
    stays delivered, in order. *)
Theorem relay_run_invariants evs socketId ev :
  let st := relay_run evs in
  let st' := relay_step st (socketId, ev) in
  (∀ r m, (r, m) ∈ Relay.new_deliveries st st' → r ≠ socketId)
  ∧ (∀ r d, Relay.rooms st !! r = Some d → is_Some (Relay.hostId d))
  ∧ Relay.delivered st `prefix_of` Relay.delivered st'.
Proof.
  simpl. split_and!.
  - intros r m.
    destruct ev as [|rm|rm|rm o t|rm a t|rm c t|]; unfold relay_step; cbn [fst snd].
    + unfold Relay.new_deliveries, Relay.on_connection, Relay.socket_join.
      simpl. rewrite drop_all. by intros ?%elem_of_nil.
    + intros Hin. apply elem_of_join_deliveries in Hin. tauto.
    + intros Hin. apply elem_of_new_deliveries in Hin. tauto.
    + intros Hin. apply elem_of_new_deliveries in Hin. tauto.
    + intros Hin. apply elem_of_new_deliveries in Hin. tauto.
    + intros Hin. apply elem_of_new_deliveries in Hin. tauto.
    + unfold Relay.new_deliveries, Relay.on_disconnect.
      simpl. rewrite drop_all. by intros ?%elem_of_nil.
  - unfold relay_run.
    assert (∀ st0, (∀ r d, Relay.rooms st0 !! r = Some d →
                           is_Some (Relay.hostId d)) →
              ∀ r d, Relay.rooms (foldl relay_step st0 evs) !! r = Some d →
                     is_Some (Relay.hostId d)) as Hgen.
    { induction evs as [|[s e] evs' IH]; intros st0 H0; simpl; [done|].
      apply IH. intros r d.
      destruct e as [|rm|rm|rm o t|rm a t|rm c t|]; unfold relay_step;
        cbn [fst snd]; try apply H0.
      - rewrite rooms_on_join_room. case_bool_decide; [|apply H0].
        destruct (Relay.rooms st0 !! rm) as [d0|] eqn:Hd0; simpl.
        + intros [= <-]. by eapply H0.
        + intros [= <-]. by eexists.
      - intros Hd. apply rooms_on_disconnect in Hd as [Hd _]. by eapply H0. }
    apply Hgen. intros r d Hd. simpl in Hd. by rewrite lookup_empty in Hd.
  - destruct ev as [|rm|rm|rm o t|rm a t|rm c t|]; unfold relay_step;
      cbn [fst snd]; try (by apply prefix_app_r); try done.
    unfold Relay.on_join_room, Relay.socket_to_emit. simpl.
    case_match; simpl; by apply prefix_app_r.
Qed.


(** ** Sending input *)

Lemma set_dataChannels_same st :
  set_dataChannels (dataChannelsRef st) st = st.
Proof. by destruct st. Qed.

(** [sendInputEvent] with a target: the event goes on the target's channel
    when that channel is registered and open, and then on no other; when
    the target has no channel, or one that is not open, the call changes
    nothing at all. *)
Theorem sendInputEvent_to_target event target st :
  target ≠ "" →
  let st' := Hook.sendInputEvent event (Some target) st in
  (∀ dc, dataChannelsRef st !! target = Some dc → readyState dc = DcOpen →
     dataChannelsRef st' !! target
     = Some (mkDC (dc_label dc) (dc_ordered dc) DcOpen
                  (dc_sent dc ++ [JSON_stringify event])))
  ∧ (∀ dc, dataChannelsRef st !! target = Some dc → readyState dc ≠ DcOpen →
       st' = st)
  ∧ (dataChannelsRef st !! target = None → st' = st)
  ∧ (∀ other, other ≠ target →
       dataChannelsRef st' !! other = dataChannelsRef st !! other).
Proof.
  intros Hne. unfold Hook.sendInputEvent.
  rewrite bool_decide_eq_false_2 by done. split_and!.
  - intros dc Hdc Hopen. rewrite Hdc. simpl. rewrite lookup_insert_eq.
    unfold Hook.send_if_open. rewrite bool_decide_eq_true_2 by done.
    unfold dc_send. by rewrite Hopen.
  - intros dc Hdc Hclosed. rewrite Hdc. unfold Hook.send_if_open.
    rewrite bool_decide_eq_false_2 by done.
    rewrite insert_id by done. apply set_dataChannels_same.
  - by intros ->.
  - intros other Hother. destruct (dataChannelsRef st !! target); [|done].
    simpl. by rewrite lookup_insert_ne.
Qed.

(** The guest sends to the host on the open channel, and to a stranger. *)
Lemma sendInputEvent_to_target_witness :
  let st := GuestPage.hook guestWithOpenChannel in
  dataChannelsRef (Hook.sendInputEvent strayClick (Some "host") st) !! "host"
  = Some (mkDC "input" true DcOpen [Json strayClick])
  ∧ Hook.sendInputEvent strayClick (Some "stranger") st = st.
Proof.
  split.
  - destruct (sendInputEvent_to_target strayClick "host"
                (GuestPage.hook guestWithOpenChannel)) as (Hopen & _);
      [discriminate|].
    apply (Hopen (mkDC "input" true DcOpen [])); reflexivity.
  - destruct (sendInputEvent_to_target strayClick "stranger"
                (GuestPage.hook guestWithOpenChannel)) as (_ & _ & Hnone & _);
      [discriminate|].
    apply Hnone. reflexivity.
Defined.

(** [sendInputEvent] without a target, or with the empty string as target:
    every open channel gets the event appended to what it has sent, every
    other channel is left as it is, and no channel appears or disappears.
    The records, the buffers and the connected-users view are not touched. *)
Theorem sendInputEvent_broadcast event target st :
  target = None ∨ target = Some "" →
  let st' := Hook.sendInputEvent event target st in
  (∀ userId dc,
     dataChannelsRef st !! userId = Some dc →
     dataChannelsRef st' !! userId
     = Some (if bool_decide (readyState dc = DcOpen)
             then mkDC (dc_label dc) (dc_ordered dc) (readyState dc)
                       (dc_sent dc ++ [JSON_stringify event])
             else dc))
  ∧ (∀ userId, dataChannelsRef st !! userId = None →
               dataChannelsRef st' !! userId = None)
  ∧ peerConnectionsRef st' = peerConnectionsRef st
  ∧ pendingCandidatesRef st' = pendingCandidatesRef st
  ∧ connectedUsers st' = connectedUsers st
  ∧ effects st' = effects st.
Proof.
  intros Htarget.
  assert (Hook.sendInputEvent event target st
          = set_dataChannels
              (Hook.send_if_open (JSON_stringify event) <$> dataChannelsRef st) st)
    as ->.
  { destruct Htarget as [-> | ->]; [done|].
    unfold Hook.sendInputEvent. by rewrite bool_decide_eq_true_2. }
  simpl. split_and!; try done.
  - intros userId dc Hdc. by rewrite lookup_fmap, Hdc.
  - intros userId Hdc. by rewrite lookup_fmap, Hdc.
Qed.

Lemma sendInputEvent_broadcast_witness :
  dataChannelsRef
    (Hook.sendInputEvent strayClick (Some "")
       (GuestPage.hook guestWithOpenChannel)) !! "host"
  = Some (mkDC "input" true DcOpen [Json strayClick]).
Proof.
  destruct (sendInputEvent_broadcast strayClick (Some "")
              (GuestPage.hook guestWithOpenChannel)) as (Hsent & _);
    [by right|].
  apply (Hsent "host" (mkDC "input" true DcOpen [])). reflexivity.
Defined.

(** Once the channel of a participant has closed, sending to that
    participant changes nothing, and a broadcast leaves no channel for it
    behind. *)
Theorem closed_channel_gets_nothing event userId st :
  userId ≠ "" →
  let closed := Hook.channel_onclose userId st in
  Hook.sendInputEvent event (Some userId) closed = closed
  ∧ dataChannelsRef (Hook.sendInputEvent event None closed) !! userId = None.
Proof.
  intros Hne. simpl. split.
  - unfold Hook.sendInputEvent. rewrite bool_decide_eq_false_2 by done.
    unfold Hook.channel_onclose. simpl. by rewrite lookup_delete_eq.
  - unfold Hook.sendInputEvent, Hook.channel_onclose. simpl.
    by rewrite lookup_fmap, lookup_delete_eq.
Qed.

Lemma closed_channel_gets_nothing_witness :
  let closed := Hook.channel_onclose "host" (GuestPage.hook guestWithOpenChannel) in
  Hook.sendInputEvent strayClick (Some "host") closed = closed.
Proof.
  apply (closed_channel_gets_nothing strayClick "host"). discriminate.
Defined.

(** ** Receiving input *)

(** A payload that does not parse costs one console line and nothing else;
    a payload that parses while no callback is registered is dropped
    without a trace. Neither reaches a callback or touches the records,
    the buffers or the channels. *)
Theorem unusable_payloads_are_dropped userId st :
  (∀ text,
     Hook.channel_onmessage userId (Garbage text) st
     = console LvlError "Error parsing input event:" st)
  ∧ (∀ event,
       inputCallbackRef st = false →
       Hook.channel_onmessage userId (JSON_stringify event) st = st)
  ∧ (∀ data,
       let st' := Hook.channel_onmessage userId data st in
       peerConnectionsRef st' = peerConnectionsRef st
       ∧ pendingCandidatesRef st' = pendingCandidatesRef st
       ∧ dataChannelsRef st' = dataChannelsRef st
       ∧ connectedUsers st' = connectedUsers st
       ∧ emitted st' = emitted st
       ∧ (JSON_parse data = None → callbackCalls st' = callbackCalls st)).
Proof.
  split_and!.
  - done.
  - intros event Hcb. unfold Hook.channel_onmessage. simpl. by rewrite Hcb.
  - intros data. unfold Hook.channel_onmessage.
    destruct (JSON_parse data) as [e|] eqn:Hp.
    + destruct (inputCallbackRef st); by split_and!.
    + split_and!; try done. apply emitted_console.
Qed.

Lemma unusable_payloads_are_dropped_witness :
  Hook.channel_onmessage "guest" (JSON_stringify strayClick) initialHook
  = initialHook.
Proof.
  destruct (unusable_payloads_are_dropped "guest" initialHook)
    as (_ & Hnocallback & _).
  apply Hnocallback. reflexivity.
Defined.

(** ** Who offers *)

(** A guest never makes a transport or an offer because the relay told it
    something: on a new member it only asks the room for an offer, and a
    request for an offer it sees it ignores. *)
Lemma guest_leaves_offering_to_host B roomId localStream userId st :
  Hook.handleUserConnected B roomId localStream false userId st
  = socket_emit (EmitRequestOffer roomId)
      (console LvlLog "Guest requesting offer from host"
         (console LvlLog "User connected, initiating call with:" st))
  ∧ emitted (Hook.handleUserConnected B roomId localStream false userId st)
    = emitted st ++ [EmitRequestOffer roomId]
  ∧ Hook.handleSendOffer B roomId localStream false userId st
    = console LvlLog "Host sending offer to requester:" st
  ∧ peerConnectionsRef (Hook.handleUserConnected B roomId localStream false userId st)
    = peerConnectionsRef st
  ∧ peerConnectionsRef (Hook.handleSendOffer B roomId localStream false userId st)
    = peerConnectionsRef st.
Proof.
  split_and!; try done.
  unfold Hook.handleUserConnected. simpl.
  by rewrite emitted_socket_emit, !emitted_console.
Qed.

(** ** Lemmas on the happy paths *)

Section HookPaths.
Variable B : Browser.
Variable roomId : string.
Variable localStream : option (list Track).

Lemma addTracks_fields tracks : ∀ pc,
  let pc' := foldl PC.addTrack pc tracks in
  pc_handle pc' = pc_handle pc
  ∧ signalingState pc' = signalingState pc
  ∧ localDescription pc' = localDescription pc
  ∧ remoteDescription pc' = remoteDescription pc
  ∧ pc_channels pc' = pc_channels pc
  ∧ pc_iceCalls pc' = pc_iceCalls pc
  ∧ pc_senders pc' = pc_senders pc ++ tracks.
Proof.
  induction tracks as [|t tracks IH]; intros pc; simpl.
  - split_and!; try done. by rewrite app_nil_r.
  - destruct (IH (PC.addTrack pc t)) as (-> & -> & -> & -> & -> & -> & ->).
    simpl. split_and!; try done. by rewrite <- app_assoc.
Qed.

Lemma new_transport_fields st :
  let pc := new_transport localStream st in
  pc_handle pc = nextHandle st
  ∧ signalingState pc = Stable
  ∧ localDescription pc = None
  ∧ remoteDescription pc = None
  ∧ pc_channels pc = []
  ∧ pc_iceCalls pc = []
  ∧ pc_senders pc = default [] localStream.
Proof.
  unfold new_transport.
  destruct (addTracks_fields (default [] localStream) (PC.fresh (nextHandle st)))
    as (-> & -> & -> & -> & -> & -> & ->).
  done.
Qed.

Lemma createPeerConnection_new userId st :
  peerConnectionsRef st !! userId = None →
  let pc := new_transport localStream st in
  let st' := (Hook.createPeerConnection localStream userId st).2 in
  (Hook.createPeerConnection localStream userId st).1 = pc
  ∧ peerConnectionsRef st' = <[userId := pc]> (peerConnectionsRef st)
  ∧ nextHandle st' = S (nextHandle st)
  ∧ pendingCandidatesRef st' !! userId = Some (buffer st userId)
  ∧ (∀ other, other ≠ userId →
       pendingCandidatesRef st' !! other = pendingCandidatesRef st !! other)
  ∧ dataChannelsRef st' = dataChannelsRef st
  ∧ connectedUsers st' = connectedUsers st
  ∧ effects st' = effects st
  ∧ isInitiatorRef st' = isInitiatorRef st.
Proof.
  intros Hnone. unfold Hook.createPeerConnection, new_transport, buffer.
  rewrite Hnone. simpl.
  destruct localStream as [tracks|]; simpl;
    destruct (pendingCandidatesRef st !! userId) as [l|] eqn:Hl; simpl;
    rewrite ?insert_insert_eq, ?lookup_insert_eq, ?Hl;
    split_and!; try done; intros other Hother; by rewrite lookup_insert_ne.
Qed.

Lemma createPeerConnection_set_isInitiator b userId st :
  Hook.createPeerConnection localStream userId (set_isInitiator b st)
  = ((Hook.createPeerConnection localStream userId st).1,
     set_isInitiator b (Hook.createPeerConnection localStream userId st).2).
Proof.
  unfold Hook.createPeerConnection. simpl.
  destruct (peerConnectionsRef st !! userId); simpl; [done|].
  destruct localStream; simpl;
    by destruct (pendingCandidatesRef st !! userId).
Qed.

Lemma createPeerConnection_nextHandle_existing userId st :
  is_Some (peerConnectionsRef st !! userId) →
  nextHandle (Hook.createPeerConnection localStream userId st).2 = nextHandle st.
Proof.
  intros [pc Hpc]. by rewrite (createPeerConnection_existing _ _ _ _ Hpc).
Qed.

Lemma make_offer_offer_made userId pc st :
  Hook.make_offer B roomId userId pc st
  = (λ op, socket_emit (EmitOffer roomId op.1 userId) (store_pc userId op.2 st))
    <$> offer_made B pc.
Proof.
  unfold Hook.make_offer, offer_made.
  destruct (PC.createOffer B pc) as [o|]; simpl; [|done].
  by destruct (PC.setLocalDescription B pc o).
Qed.

Lemma offer_made_fields pc o pc' :
  offer_made B pc = Some (o, pc') →
  sd_type o = SdpOffer
  ∧ signalingState pc' = HaveLocalOffer
  ∧ localDescription pc' = Some o
  ∧ remoteDescription pc' = remoteDescription pc
  ∧ pc_handle pc' = pc_handle pc
  ∧ pc_iceCalls pc' = pc_iceCalls pc.
Proof.
  unfold offer_made. intros H.
  destruct (PC.createOffer B pc) as [o0|] eqn:Ho; simpl in H; [|done].
  destruct (PC.setLocalDescription B pc o0) as [pc0|] eqn:Hl; simpl in H; [|done].
  simplify_eq.
  assert (sd_type o = SdpOffer) as Ht.
  { unfold PC.createOffer in Ho.
    destruct (signalingState pc), (offerSdp B pc); simpl in Ho; by simplify_eq. }
  destruct (setLocalDescription_fields B _ _ _ Hl) as (Hld & Htr & Hh & Hrd & Hc).
  split_and!; try done.
  rewrite Ht in Htr. destruct (signalingState pc); simpl in Htr; by simplify_eq.
Qed.

Lemma offer_made_channels pc o pc' :
  offer_made B pc = Some (o, pc') →
  pc_channels pc' = pc_channels pc ∧ pc_senders pc' = pc_senders pc.
Proof.
  unfold offer_made. intros H.
  destruct (PC.createOffer B pc) as [o0|]; simpl in H; [|done].
  unfold PC.setLocalDescription in H.
  destruct (PC.local_transition _ _); simpl in H; [|done].
  destruct (acceptsLocal B pc o0); simpl in H; [|done].
  by simplify_eq.
Qed.

Lemma offer_made_cooperative pc :
  cooperative B → signalingState pc = Stable ∨ signalingState pc = HaveLocalOffer →
  is_Some (offer_made B pc).
Proof.
  intros (Ho & _ & Hl & _) Hs. unfold offer_made, PC.createOffer.
  destruct (Ho pc) as [s Hs']. 
  assert (PC.createOffer B pc = Some (mkSD SdpOffer s)) as Hc.
  { unfold PC.createOffer. rewrite Hs'. by destruct Hs as [-> | ->]. }
  unfold PC.createOffer in Hc. rewrite Hc. simpl.
  unfold PC.setLocalDescription. simpl. rewrite Hl.
  destruct Hs as [-> | ->]; simpl; by eexists.
Qed.

Lemma emitted_add_effects_console log st :
  Forall (λ e, ∃ lvl msg, e = Console lvl msg) log →
  emitted (add_effects log st) = emitted st.
Proof.
  intros Hlog. unfold emitted. simpl. rewrite omap_app.
  assert (omap (λ e, match e with Emit m => Some m | Console _ _ => None end) log
          = []) as ->; [|by rewrite app_nil_r].
  induction Hlog as [|e log (lvl & msg & ->) _ IH]; simpl; done.
Qed.

Lemma addPendingCandidates_log cs : ∀ pc log,
  Forall (λ e, ∃ lvl msg, e = Console lvl msg) log →
  Forall (λ e, ∃ lvl msg, e = Console lvl msg)
         (Hook.addPendingCandidates B cs pc log).2.
Proof.
  induction cs as [|c cs IH]; intros pc log Hlog; simpl; [done|].
  apply IH. destruct (match remoteDescription pc with
                      | Some _ => acceptsCandidate B pc c
                      | None => false
                      end); [done|].
  apply Forall_app. split; [done|]. apply Forall_singleton. by eexists _, _.
Qed.

Lemma drainPending_emitted userId pc st :
  emitted (Hook.drainPending B userId pc st) = emitted st.
Proof.
  unfold Hook.drainPending.
  pose proof (addPendingCandidates_log
                (default [] (pendingCandidatesRef st !! userId)) pc []
                (Forall_nil_2 _)) as Hlog.
  destruct (Hook.addPendingCandidates B _ pc []) as [pc' log]; simpl in *.
  change (emitted (add_effects log (store_pc userId pc' st)) = emitted st).
  by rewrite emitted_add_effects_console.
Qed.

Lemma createPeerConnection_effects userId st :
  effects (Hook.createPeerConnection localStream userId st).2 = effects st.
Proof.
  unfold Hook.createPeerConnection.
  destruct (peerConnectionsRef st !! userId); simpl; [done|].
  destruct localStream; simpl;
    by destruct (pendingCandidatesRef st !! userId).
Qed.

Lemma createPeerConnection_emitted userId st :
  emitted (Hook.createPeerConnection localStream userId st).2 = emitted st.
Proof. unfold emitted. by rewrite createPeerConnection_effects. Qed.

Lemma setRemoteDescription_cooperative pc d s :
  cooperative B →
  PC.remote_transition (signalingState pc) (sd_type d) = Some s →
  PC.setRemoteDescription B pc d
  = Some (PC.with_signaling s (PC.with_remote d pc)).
Proof.
  intros (_ & _ & _ & Hr) Ht. unfold PC.setRemoteDescription.
  by rewrite Ht, Hr.
Qed.

Lemma setLocalDescription_cooperative pc d s :
  cooperative B →
  PC.local_transition (signalingState pc) (sd_type d) = Some s →
  PC.setLocalDescription B pc d
  = Some (PC.with_signaling s (PC.with_local d pc)).
Proof.
  intros (_ & _ & Hl & _) Ht. unfold PC.setLocalDescription.
  by rewrite Ht, Hl.
Qed.

Lemma createAnswer_cooperative pc :
  cooperative B → signalingState pc = HaveRemoteOffer →
  ∃ s, PC.createAnswer B pc = Some (mkSD SdpAnswer s).
Proof.
  intros (_ & Ha & _ & _) Hs. destruct (Ha pc) as [s Hsdp].
  exists s. unfold PC.createAnswer. by rewrite Hs, Hsdp.
Qed.

(** An offer handled on a record in [stable], the existing one or a new
    one, with a cooperative browser. *)
Lemma handleOffer_cooperative offer senderId st :
  cooperative B →
  sd_type offer = SdpOffer →
  let pc := (Hook.createPeerConnection localStream senderId st).1 in
  signalingState pc = Stable →
  let st' := Hook.handleOffer B roomId localStream
               (mkOfferData offer senderId) st in
  ∃ answer pc',
    peerConnectionsRef st' !! senderId = Some pc'
    ∧ sd_type answer = SdpAnswer
    ∧ signalingState pc' = Stable
    ∧ remoteDescription pc' = Some offer
    ∧ localDescription pc' = Some answer
    ∧ pc_handle pc' = pc_handle pc
    ∧ attempted pc' = attempted pc ++ buffer st senderId
    ∧ pendingCandidatesRef st' !! senderId = Some []
    ∧ emitted st' = emitted st ++ [EmitAnswer roomId answer senderId]
    ∧ connectedUsers st' = connectedUsers st.
Proof.
  intros Hcoop Htype pc Hstable st'. subst st'.
  unfold Hook.handleOffer. rewrite createPeerConnection_console.
  pose proof (createPeerConnection_buffer localStream senderId st) as Hbuf.
  pose proof (createPeerConnection_emitted senderId st) as Hem.
  pose proof (createPeerConnection_connectedUsers localStream senderId st) as Hcu.
  lazy beta iota zeta delta [od_senderId od_offer].
  fold pc. set (st1 := (Hook.createPeerConnection localStream senderId st).2) in *.
  rewrite bool_decide_eq_false_2 by (by intros ?).
  rewrite (setRemoteDescription_cooperative pc offer HaveRemoteOffer Hcoop)
    by (by rewrite Hstable, Htype).
  set (pc1 := PC.with_signaling HaveRemoteOffer (PC.with_remote offer pc)).
  destruct (createAnswer_cooperative pc1 Hcoop eq_refl) as [s Hans].
  rewrite Hans.
  rewrite (setLocalDescription_cooperative pc1 (mkSD SdpAnswer s) Stable Hcoop)
    by done.
  set (pc2 := PC.with_signaling Stable (PC.with_local (mkSD SdpAnswer s) pc1)).
  exists (mkSD SdpAnswer s).
  eexists. rewrite drainPending_record, drainPending_buffer,
    drainPending_emitted, drainPending_connectedUsers.
  match goal with
  | |- context [Hook.addPendingCandidates B ?cs pc2 []] =>
      destruct (addPendingCandidates_fields B cs pc2 [])
        as (Hh & Hs & Hl & Hr & Hc)
  end.
  split_and!; try done.
  - unfold attempted. rewrite Hc. simpl. f_equal. exact Hbuf.
  - rewrite emitted_socket_emit. f_equal. rewrite <- Hem.
    apply (emitted_console LvlLog "Received offer from:" st1).
Qed.

Lemma setConnectedUsers_frame f st :
  peerConnectionsRef (setConnectedUsers f st) = peerConnectionsRef st
  ∧ pendingCandidatesRef (setConnectedUsers f st) = pendingCandidatesRef st
  ∧ emitted (setConnectedUsers f st) = emitted st
  ∧ connectedUsers (setConnectedUsers f st) = f (connectedUsers st).
Proof. done. Qed.

(** An answer handled on a record in [have-local-offer] with a cooperative
    browser. *)
Lemma handleAnswer_cooperative answer senderId st pc :
  cooperative B →
  sd_type answer = SdpAnswer →
  peerConnectionsRef st !! senderId = Some pc →
  signalingState pc = HaveLocalOffer →
  let st' := Hook.handleAnswer B (mkAnswerData answer senderId) st in
  ∃ pc',
    peerConnectionsRef st' !! senderId = Some pc'
    ∧ signalingState pc' = Stable
    ∧ remoteDescription pc' = Some answer
    ∧ localDescription pc' = localDescription pc
    ∧ pc_handle pc' = pc_handle pc
    ∧ attempted pc' = attempted pc ++ buffer st senderId
    ∧ pendingCandidatesRef st' !! senderId = Some []
    ∧ emitted st' = emitted st
    ∧ connectedUsers st' = add_if_absent senderId (connectedUsers st).
Proof.
  intros Hcoop Htype Hpc Hs st'. subst st'.
  unfold Hook.handleAnswer.
  lazy beta iota zeta delta [ad_senderId ad_answer].
  change (peerConnectionsRef (console LvlLog "Received answer from:" st))
    with (peerConnectionsRef st).
  rewrite Hpc, bool_decide_eq_false_2 by (by intros ?).
  rewrite (setRemoteDescription_cooperative pc answer Stable Hcoop)
    by (by rewrite Hs, Htype).
  set (pc1 := PC.with_signaling Stable (PC.with_remote answer pc)).
  eexists.
  rewrite (proj1 (setConnectedUsers_frame _ _)),
    (proj1 (proj2 (setConnectedUsers_frame _ _))),
    (proj1 (proj2 (proj2 (setConnectedUsers_frame _ _)))),
    (proj2 (proj2 (proj2 (setConnectedUsers_frame _ _)))).
  rewrite drainPending_record, drainPending_buffer,
    drainPending_emitted, drainPending_connectedUsers.
  match goal with
  | |- context [Hook.addPendingCandidates B ?cs pc1 []] =>
      destruct (addPendingCandidates_fields B cs pc1 [])
        as (Hh & Hs' & Hl & Hr & Hc)
  end.
  split_and!; try done.
  apply (emitted_console LvlLog "Received answer from:" st).
Qed.

End HookPaths.

Lemma offering_paths B roomId localStream userId st :
  let pc := (Hook.createPeerConnection localStream userId st).1 in
  let onArrival := Hook.handleUserConnected B roomId localStream true userId st in
  let onRequest := Hook.handleSendOffer B roomId localStream true userId st in
  let outcome (st' : HookState) : Prop :=
    match offer_made B pc with
    | Some (o, pc') =>
        peerConnectionsRef st' !! userId = Some pc'
        ∧ signalingState pc' = HaveLocalOffer
        ∧ localDescription pc' = Some o
        ∧ pc_handle pc' = pc_handle pc
        ∧ emitted st' = emitted st ++ [EmitOffer roomId o userId]
    | None =>
        peerConnectionsRef st' !! userId = Some pc
        ∧ emitted st' = emitted st
    end in
  outcome onArrival
  ∧ outcome onRequest
  ∧ isInitiatorRef onArrival = true
  ∧ (is_Some (peerConnectionsRef st !! userId) →
       nextHandle onArrival = nextHandle st
       ∧ nextHandle onRequest = nextHandle st).
Proof.
  intros pc onArrival onRequest outcome.
  pose proof (createPeerConnection_registers localStream userId st) as Hreg.
  assert (Hook.createPeerConnection localStream userId
            (set_isInitiator true
               (console LvlLog "User connected, initiating call with:" st))
          = (pc, set_isInitiator true
                   (console LvlLog "User connected, initiating call with:"
                      (Hook.createPeerConnection localStream userId st).2)))
    as Harr.
  { by rewrite createPeerConnection_set_isInitiator,
      createPeerConnection_console. }
  assert (Hook.createPeerConnection localStream userId
            (console LvlLog "Host sending offer to requester:" st)
          = (pc, console LvlLog "Host sending offer to requester:"
                   (Hook.createPeerConnection localStream userId st).2))
    as Hreq.
  { by rewrite createPeerConnection_console. }
  pose proof (createPeerConnection_emitted localStream userId st) as Hem.
  subst onArrival onRequest outcome.
  unfold Hook.handleUserConnected, Hook.handleSendOffer. simpl.
  rewrite Harr, Hreq, !make_offer_offer_made.
  fold pc in Hreg.
  set (st1 := (Hook.createPeerConnection localStream userId st).2) in *.
  split_and!.
  - destruct (offer_made B pc) as [[o pc']|] eqn:Hom; simpl.
    + destruct (offer_made_fields B _ _ _ Hom) as (_ & Hs & Hl & _ & Hh & _).
      rewrite lookup_insert_eq. split_and!; try done.
      rewrite emitted_socket_emit. f_equal. rewrite <- Hem.
      apply (emitted_console LvlLog "User connected, initiating call with:" st1).
    + split; [done|]. rewrite emitted_console, <- Hem.
      apply (emitted_console LvlLog "User connected, initiating call with:" st1).
  - destruct (offer_made B pc) as [[o pc']|] eqn:Hom; simpl.
    + destruct (offer_made_fields B _ _ _ Hom) as (_ & Hs & Hl & _ & Hh & _).
      rewrite lookup_insert_eq. split_and!; try done.
      rewrite emitted_socket_emit. f_equal. rewrite <- Hem.
      apply (emitted_console LvlLog "Host sending offer to requester:" st1).
    + split; [done|]. rewrite emitted_console, <- Hem.
      apply (emitted_console LvlLog "Host sending offer to requester:" st1).
  - by destruct (offer_made B pc) as [[o pc']|].
  - intros Hsome.
    pose proof (createPeerConnection_nextHandle_existing localStream userId st
                  Hsome) as Hn.
    fold st1 in Hn.
    destruct (offer_made B pc) as [[o pc']|]; simpl; by rewrite <- Hn.
Qed.

(** A host offers on a new member and on a request alike: over the
    participant's transport, the existing one when there is a record (no
    second transport is made, so a repeated notification re-offers over the
    same one). When the offer is made and installed, exactly that offer is
    emitted to the participant and the record is left in
    [have-local-offer]; when the browser rejects, nothing is emitted and
    the record stays registered as it was. *)
Theorem host_offer_outcome B roomId localStream userId st :
  let pc := (Hook.createPeerConnection localStream userId st).1 in
  let onArrival := Hook.handleUserConnected B roomId localStream true userId st in
  let onRequest := Hook.handleSendOffer B roomId localStream true userId st in
  let outcome (st' : HookState) : Prop :=
    match offer_made B pc with
    | Some (o, pc') =>
        peerConnectionsRef st' !! userId = Some pc'
        ∧ signalingState pc' = HaveLocalOffer
        ∧ localDescription pc' = Some o
        ∧ pc_handle pc' = pc_handle pc
        ∧ emitted st' = emitted st ++ [EmitOffer roomId o userId]
    | None =>
        peerConnectionsRef st' !! userId = Some pc
        ∧ emitted st' = emitted st
    end in
  outcome onArrival
  ∧ outcome onRequest
  ∧ isInitiatorRef onArrival = true
  ∧ (is_Some (peerConnectionsRef st !! userId) →
       nextHandle onArrival = nextHandle st
       ∧ nextHandle onRequest = nextHandle st).
Proof. apply offering_paths. Qed.


Lemma host_offer_outcome_witness :
  nextHandle (Hook.handleUserConnected goodBrowser room482913 None true "guest"
                hostOffering)
  = nextHandle hostOffering.
Proof.
  apply (host_offer_outcome goodBrowser room482913 None "guest" hostOffering).
  by eexists.
Defined.

(** ** The refs stay consistent *)

Section Consistency.
Variable B : Browser.
Variable roomId : string.
Variable localStream : option (list Track).
Variable isHost : bool.

Lemma consistent_frame st st' :
  connectedUsers st' = connectedUsers st →
  peerConnectionsRef st' = peerConnectionsRef st →
  pendingCandidatesRef st' = pendingCandidatesRef st →
  nextHandle st' = nextHandle st →
  consistent st → consistent st'.
Proof.
  intros Hc Hp Hb Hn [H1 H2 H3 H4].
  split; rewrite ?Hc, ?Hp, ?Hb, ?Hn; done.
Qed.

Lemma consistent_console lvl msg st : consistent st → consistent (console lvl msg st).
Proof. by apply consistent_frame. Qed.

Lemma consistent_socket_emit m st : consistent st → consistent (socket_emit m st).
Proof. by apply consistent_frame. Qed.

Lemma consistent_store userId pc pc' st :
  consistent st →
  peerConnectionsRef st !! userId = Some pc →
  pc_handle pc' = pc_handle pc →
  consistent (store_pc userId pc' st).
Proof.
  intros [H1 H2 H3 H4] Hpc Hh. split; simpl.
  - intros u Hu. destruct (decide (u = userId)) as [->|Hne].
    + rewrite lookup_insert_eq. by eexists.
    + rewrite lookup_insert_ne by done. by apply H1.
  - intros u. destruct (decide (u = userId)) as [->|Hne].
    + intros _. apply H2. by eexists.
    + rewrite lookup_insert_ne by done. apply H2.
  - intros u q. destruct (decide (u = userId)) as [->|Hne].
    + rewrite lookup_insert_eq. intros [= <-]. rewrite Hh. by eapply H3.
    + rewrite lookup_insert_ne by done. apply H3.
  - intros u v pcu pcv.
    destruct (decide (u = userId)) as [->|Hu], (decide (v = userId)) as [->|Hv];
      rewrite ?lookup_insert_eq, ?lookup_insert_ne by done; try done.
    + intros [= <-] Hv' Heq. rewrite Hh in Heq. symmetry. symmetry in Heq.
      by eapply (H4 v userId).
    + intros Hu' [= <-] Heq. rewrite Hh in Heq. by eapply (H4 u userId).
    + apply H4.
Qed.

Lemma consistent_create userId st :
  consistent st →
  consistent (Hook.createPeerConnection localStream userId st).2.
Proof.
  intros Hst.
  destruct (peerConnectionsRef st !! userId) as [pc|] eqn:Hpc.
  { by rewrite (createPeerConnection_existing _ _ _ _ Hpc). }
  destruct (createPeerConnection_new localStream userId st Hpc)
    as (_ & Hp & Hn & Hb & Hbo & _ & Hc & _).
  destruct (new_transport_fields localStream st) as (Hh & _).
  destruct Hst as [H1 H2 H3 H4].
  split; rewrite ?Hp, ?Hn, ?Hc.
  - intros u Hu. destruct (decide (u = userId)) as [->|Hne].
    + rewrite lookup_insert_eq. by eexists.
    + rewrite lookup_insert_ne by done. by apply H1.
  - intros u. destruct (decide (u = userId)) as [->|Hne].
    + intros _. rewrite Hb. by eexists.
    + rewrite lookup_insert_ne, Hbo by done. apply H2.
  - intros u q. destruct (decide (u = userId)) as [->|Hne].
    + rewrite lookup_insert_eq. intros [= <-]. rewrite Hh. lia.
    + rewrite lookup_insert_ne by done. intros Hq. specialize (H3 _ _ Hq). lia.
  - intros u v pcu pcv.
    destruct (decide (u = userId)) as [->|Hu], (decide (v = userId)) as [->|Hv];
      rewrite ?lookup_insert_eq, ?lookup_insert_ne by done; try done.
    + intros [= <-] Hv' Heq. specialize (H3 _ _ Hv'). rewrite Hh in Heq. lia.
    + intros Hu' [= <-] Heq. specialize (H3 _ _ Hu'). rewrite Hh in Heq. lia.
    + apply H4.
Qed.

Lemma consistent_buffer userId l st :
  consistent st →
  consistent (set_pendingCandidates (<[userId := l]> (pendingCandidatesRef st)) st).
Proof.
  intros [H1 H2 H3 H4]. split; simpl; try done.
  intros u Hu. destruct (decide (u = userId)) as [->|Hne].
  - rewrite lookup_insert_eq. by eexists.
  - rewrite lookup_insert_ne by done. by apply H2.
Qed.

Lemma consistent_drain userId pc pc0 st :
  consistent st →
  peerConnectionsRef st !! userId = Some pc0 →
  pc_handle pc = pc_handle pc0 →
  consistent (Hook.drainPending B userId pc st).
Proof.
  intros Hst Hpc Hh. unfold Hook.drainPending.
  destruct (addPendingCandidates_fields B
              (default [] (pendingCandidatesRef st !! userId)) pc [])
    as (Hh' & _).
  destruct (Hook.addPendingCandidates B _ pc []) as [pc' log]. simpl in Hh'.
  apply (consistent_buffer userId []
           (add_effects log (store_pc userId pc' st))).
  apply (consistent_frame (store_pc userId pc' st)); try done.
  eapply consistent_store; [done..|]. by rewrite Hh'.
Qed.

Lemma consistent_make_offer userId pc0 pc st st' :
  consistent st →
  peerConnectionsRef st !! userId = Some pc0 →
  pc_handle pc = pc_handle pc0 →
  Hook.make_offer B roomId userId pc st = Some st' →
  consistent st'.
Proof.
  intros Hst Hpc Hh. rewrite make_offer_offer_made.
  destruct (offer_made B pc) as [[o pc']|] eqn:Hom; simpl; [|done].
  intros [= <-]. apply consistent_socket_emit.
  eapply consistent_store; [done..|].
  destruct (offer_made_fields B _ _ _ Hom) as (_ & _ & _ & _ & -> & _). done.
Qed.

Lemma consistent_teardown userId st :
  consistent st →
  consistent
    (setConnectedUsers (without userId)
       (set_pendingCandidates (delete userId (pendingCandidatesRef st))
          (set_dataChannels (delete userId (dataChannelsRef st))
             (set_peerConnections (delete userId (peerConnectionsRef st)) st)))).
Proof.
  intros [H1 H2 H3 H4]. split; simpl.
  - intros u Hu. unfold without in Hu. apply list_elem_of_filter in Hu as [Hne Hu].
    rewrite lookup_delete_ne by done. by apply H1.
  - intros u. destruct (decide (u = userId)) as [->|Hne].
    + rewrite lookup_delete_eq. by intros [? ?].
    + rewrite !lookup_delete_ne by done. apply H2.
  - intros u q Hq. apply lookup_delete_Some in Hq as [_ Hq]. by eapply H3.
  - intros u v pcu pcv Hu Hv.
    apply lookup_delete_Some in Hu as [_ Hu].
    apply lookup_delete_Some in Hv as [_ Hv]. by eapply H4.
Qed.

Lemma consistent_connect userId st :
  consistent st →
  is_Some (peerConnectionsRef st !! userId) →
  consistent (setConnectedUsers (add_if_absent userId) st).
Proof.
  intros [H1 H2 H3 H4] Hrec. split; simpl; try done.
  intros u Hu. unfold add_if_absent in Hu. case_bool_decide; [by apply H1|].
  apply elem_of_app in Hu as [Hu|Hu]; [by apply H1|].
  by apply list_elem_of_singleton in Hu as ->.
Qed.

Lemma step_consistent st ev :
  consistent st → consistent (Hook.step B roomId localStream isHost st ev).
Proof.
  intros Hst.
  destruct ev as [u|r|d|d|d|u c|u s|u ch|u s|u|u|u d|u|u|u|e t|];
    unfold Hook.step.
  - unfold Hook.handleUserConnected. destruct isHost.
    + set (st0 := set_isInitiator true _).
      assert (consistent st0) as H0 by (by apply (consistent_frame st)).
      pose proof (consistent_create u st0 H0) as H1.
      pose proof (createPeerConnection_registers localStream u st0) as Hreg.
      destruct (Hook.createPeerConnection localStream u st0) as [pc st1].
      simpl in *.
      destruct (Hook.make_offer B roomId u pc st1) as [st2|] eqn:Ho.
      * by eapply consistent_make_offer.
      * by apply consistent_console.
    + by apply (consistent_frame st).
  - unfold Hook.handleSendOffer. destruct isHost; simpl.
    + set (st0 := console _ _ st).
      assert (consistent st0) as H0 by (by apply consistent_console).
      pose proof (consistent_create r st0 H0) as H1.
      pose proof (createPeerConnection_registers localStream r st0) as Hreg.
      destruct (Hook.createPeerConnection localStream r st0) as [pc st1].
      simpl in *.
      destruct (Hook.make_offer B roomId r pc st1) as [st2|] eqn:Ho.
      * by eapply consistent_make_offer.
      * by apply consistent_console.
    + by apply consistent_console.
  - unfold Hook.handleOffer.
    set (st0 := console _ _ st).
    assert (consistent st0) as H0 by (by apply consistent_console).
    pose proof (consistent_create (od_senderId d) st0 H0) as H1.
    pose proof (createPeerConnection_registers localStream (od_senderId d) st0)
      as Hreg.
    destruct (Hook.createPeerConnection localStream (od_senderId d) st0)
      as [pc st1].
    simpl in H1, Hreg. lazy beta iota zeta.
    set (st2 := set_isInitiator false st1).
    assert (consistent st2) as H2 by (by apply (consistent_frame st1)).
    case_bool_decide; [by apply consistent_console|].
    destruct (PC.setRemoteDescription B pc (od_offer d)) as [pc1|] eqn:Hr;
      [|by apply consistent_console].
    destruct (setRemoteDescription_fields B _ _ _ Hr) as (_ & _ & Hh1 & _).
    assert (consistent (store_pc (od_senderId d) pc1 st2)) as H3.
    { by eapply consistent_store. }
    destruct (PC.createAnswer B pc1) as [a|]; [|by apply consistent_console].
    destruct (PC.setLocalDescription B pc1 a) as [pc2|] eqn:Hl;
      [|by apply consistent_console].
    destruct (setLocalDescription_fields B _ _ _ Hl) as (_ & _ & Hh2 & _).
    eapply (consistent_drain _ pc2 pc2); [|apply lookup_insert_eq|done].
    apply consistent_socket_emit.
    eapply consistent_store; [done|apply lookup_insert_eq|done].
  - unfold Hook.handleAnswer. lazy beta iota zeta.
    change (peerConnectionsRef (console LvlLog "Received answer from:" st))
      with (peerConnectionsRef st).
    set (st0 := console _ _ st).
    assert (consistent st0) as H0 by (by apply consistent_console).
    destruct (peerConnectionsRef st !! ad_senderId d) as [pc|] eqn:Hpc;
      [|by apply consistent_console].
    case_bool_decide; [by apply consistent_console|].
    destruct (PC.setRemoteDescription B pc (ad_answer d)) as [pc1|] eqn:Hr;
      [|by apply consistent_console].
    destruct (setRemoteDescription_fields B _ _ _ Hr) as (_ & _ & Hh1 & _).
    apply consistent_connect.
    + eapply (consistent_drain _ pc1 pc1); [|apply lookup_insert_eq|done].
      by eapply consistent_store.
    + rewrite drainPending_record. by eexists.
  - unfold Hook.handleIceCandidate.
    destruct (peerConnectionsRef st !! cd_senderId d) as [pc|] eqn:Hpc.
    + destruct (remoteDescription pc).
      * destruct (addIceCandidate_fields B pc (cd_candidate d)) as (Hh & _).
        destruct (PC.addIceCandidate B pc (cd_candidate d)) as [pc' ok].
        simpl in Hh.
        assert (consistent (store_pc (cd_senderId d) pc' st)) as H1.
        { by eapply consistent_store. }
        destruct ok; [done|by apply consistent_console].
      * apply (consistent_buffer (cd_senderId d) _ (console _ _ st)).
        by apply consistent_console.
    + apply (consistent_buffer (cd_senderId d) _ (console _ _ st)).
      by apply consistent_console.
  - destruct c; [by apply consistent_socket_emit|done].
  - by apply (consistent_frame st).
  - by apply (consistent_frame st).
  - unfold Hook.pc_onconnectionstatechange. case_bool_decide.
    + apply (consistent_teardown u (console _ _ st)). by apply consistent_console.
    + by apply consistent_console.
  - unfold Hook.channel_onopen.
    destruct (dataChannelsRef st !! u); by apply (consistent_frame st).
  - by apply (consistent_frame st).
  - unfold Hook.channel_onmessage. destruct (JSON_parse d).
    + destruct (inputCallbackRef st); [by apply (consistent_frame st)|done].
    + by apply consistent_console.
  - by apply consistent_console.
  - by apply consistent_create.
  - unfold Hook.startCall.
    set (target := Hook.target_or_broadcast u).
    pose proof (consistent_create target st Hst) as H1.
    pose proof (createPeerConnection_registers localStream target st) as Hreg.
    destruct (Hook.createPeerConnection localStream target st) as [pc st1].
    simpl in H1, Hreg.
    destruct (isHost && _).
    + assert (consistent
                (Hook.setupDataChannel (mkDC "input" true DcConnecting []) target
                   (store_pc target (PC.createDataChannel "input" true pc) st1)))
        as H2.
      { apply (consistent_frame
                 (store_pc target (PC.createDataChannel "input" true pc) st1));
          try done.
        by eapply consistent_store. }
      destruct (Hook.make_offer B roomId target _ _) as [st2|] eqn:Ho; [|done].
      eapply consistent_make_offer; [exact H2|apply lookup_insert_eq|done|exact Ho].
    + destruct (Hook.make_offer B roomId target pc st1) as [st2|] eqn:Ho; [|done].
      by eapply consistent_make_offer.
  - unfold Hook.sendInputEvent. destruct t as [t|].
    + case_bool_decide; [by apply (consistent_frame st)|].
      destruct (dataChannelsRef st !! t); [by apply (consistent_frame st)|done].
    + by apply (consistent_frame st).
  - by apply (consistent_frame st).
Qed.

End Consistency.

Lemma run_consistent B evs : consistent (Hook.run B evs).
Proof.
  unfold Hook.run.
  assert (∀ st, consistent st →
            consistent
              (foldl (λ st pe,
                 Hook.step B (Hook.props_roomId pe.1)
                   (Hook.props_localStream pe.1) (Hook.props_isHost pe.1)
                   st pe.2) st evs)) as Hgen.
  { induction evs as [|[props ev] evs IH]; intros st Hst; simpl; [done|].
    apply IH. by apply step_consistent. }
  apply Hgen. split; simpl.
  - by intros u ?%elem_of_nil.
  - intros u [? Hu]. by rewrite lookup_empty in Hu.
  - intros u pc Hu. by rewrite lookup_empty in Hu.
  - intros u v pcu pcv Hu. by rewrite lookup_empty in Hu.
Qed.


(** From the initial state, through any events: every participant with a
    record has a candidate buffer, so the drain after an offer or an answer
    always finds one. *)
Theorem records_have_buffers B evs :
  dom (peerConnectionsRef (Hook.run B evs))
  ⊆ dom (pendingCandidatesRef (Hook.run B evs)).
Proof.
  intros userId Hin. apply elem_of_dom. apply elem_of_dom in Hin.
  by apply (records_have_buffer _ (run_consistent B evs)).
Qed.

(** From the initial state, through any events: two participants never
    share a transport. The records of different participants hold
    different transport objects, each one made by this hook. *)
Theorem transports_are_distinct B evs userId other pc pc' :
  userId ≠ other →
  peerConnectionsRef (Hook.run B evs) !! userId = Some pc →
  peerConnectionsRef (Hook.run B evs) !! other = Some pc' →
  pc_handle pc ≠ pc_handle pc'
  ∧ pc_handle pc < nextHandle (Hook.run B evs)
  ∧ pc_handle pc' < nextHandle (Hook.run B evs).
Proof.
  intros Hne Hpc Hpc'. pose proof (run_consistent B evs) as Hc.
  split_and!.
  - intros Heq. apply Hne. by eapply (handles_distinct _ Hc).
  - by eapply (handles_made_here _ Hc).
  - by eapply (handles_made_here _ Hc).
Qed.

Lemma transports_are_distinct_witness :
  let pc := mkPC 0 HaveLocalOffer (Some (mkSD SdpOffer "v=0 offer")) None [] [] [] in
  let pc' := mkPC 1 HaveLocalOffer (Some (mkSD SdpOffer "v=0 offer")) None [] [] [] in
  peerConnectionsRef (Hook.run goodBrowser twoArrivals) !! "guest-1" = Some pc
  ∧ peerConnectionsRef (Hook.run goodBrowser twoArrivals) !! "guest-2" = Some pc'
  ∧ pc_handle pc ≠ pc_handle pc'.
Proof.
  split_and!; [by vm_compute|by vm_compute|].
  apply (transports_are_distinct goodBrowser twoArrivals "guest-1" "guest-2"
           (mkPC 0 HaveLocalOffer (Some (mkSD SdpOffer "v=0 offer")) None [] [] [])
           (mkPC 1 HaveLocalOffer (Some (mkSD SdpOffer "v=0 offer")) None [] [] []));
    [discriminate|by vm_compute|by vm_compute].
Defined.

(** ** Negotiation end to end *)

(** Host and guest, neither with a record for the other, and a cooperative
    browser on both sides. The host offers on the guest's arrival, the
    guest handles that offer, the host handles the guest's answer. Then
    both records are back in [stable], each side has as remote description
    what the other has as local description, and the host lists the guest
    as connected. The guest's view is unchanged: the answering side never
    lists the offerer. *)
Theorem offer_answer_handshake B roomId hostStream guestStream hostId guestId
    hostSt guestSt :
  cooperative B →
  peerConnectionsRef hostSt !! guestId = None →
  peerConnectionsRef guestSt !! hostId = None →
  ∃ offer answer,
    let host1 := Hook.handleUserConnected B roomId hostStream true guestId hostSt in
    let guest1 := Hook.handleOffer B roomId guestStream
                    (mkOfferData offer hostId) guestSt in
    let host2 := Hook.handleAnswer B (mkAnswerData answer guestId) host1 in
    emitted host1 = emitted hostSt ++ [EmitOffer roomId offer guestId]
    ∧ emitted guest1 = emitted guestSt ++ [EmitAnswer roomId answer hostId]
    ∧ guestId ∈ connectedUsers host2
    ∧ connectedUsers guest1 = connectedUsers guestSt
    ∧ ∃ pcH pcG,
        peerConnectionsRef host2 !! guestId = Some pcH
        ∧ peerConnectionsRef guest1 !! hostId = Some pcG
        ∧ signalingState pcH = Stable
        ∧ signalingState pcG = Stable
        ∧ localDescription pcH = Some offer
        ∧ remoteDescription pcG = Some offer
        ∧ localDescription pcG = Some answer
        ∧ remoteDescription pcH = Some answer.
Proof.
  intros Hcoop HnoG HnoH.
  (* the host's offer *)
  destruct (createPeerConnection_new hostStream guestId hostSt HnoG)
    as (HpcH & _).
  destruct (new_transport_fields hostStream hostSt) as (_ & HsH & _).
  destruct (offer_made_cooperative B (new_transport hostStream hostSt) Hcoop
              (or_introl HsH)) as [[offer pcH1] Hom].
  destruct (offer_made_fields B _ _ _ Hom) as (Hto & Hs1 & Hl1 & _).
  destruct (offering_paths B roomId hostStream guestId hostSt) as (Harr & _).
  rewrite HpcH, Hom in Harr. destruct Harr as (Hrec1 & _ & _ & _ & Hem1).
  (* the guest's answer *)
  destruct (createPeerConnection_new guestStream hostId guestSt HnoH)
    as (HpcG & _).
  destruct (new_transport_fields guestStream guestSt) as (_ & HsG & _).
  destruct (handleOffer_cooperative B roomId guestStream offer hostId guestSt
              Hcoop Hto) as (answer & pcG & HrecG & Hta & HsG' & HrG & HlG & _
                             & _ & _ & HemG & HcuG).
  { by rewrite HpcG. }
  (* the host applies it *)
  destruct (handleAnswer_cooperative B answer guestId _ pcH1 Hcoop Hta Hrec1 Hs1)
    as (pcH2 & HrecH & HsH2 & HrH & HlH & _ & _ & _ & _ & HcuH).
  exists offer, answer. cbv zeta. split_and!; try done.
  - rewrite HcuH. unfold add_if_absent. case_bool_decide; [done|].
    apply elem_of_app. right. by apply list_elem_of_singleton.
  - exists pcH2, pcG. split_and!; try done. by rewrite HlH.
Qed.

(** The host of the examples and a fresh guest. *)
Lemma offer_answer_handshake_witness :
  ∃ offer answer,
    emitted (Hook.handleOffer goodBrowser room482913 None
               (mkOfferData offer "host") initialHook)
    = [EmitAnswer room482913 answer "host"]
    ∧ "guest" ∈ connectedUsers
                  (Hook.handleAnswer goodBrowser (mkAnswerData answer "guest")
                     hostOffering).
Proof.
  destruct (offer_answer_handshake goodBrowser room482913 None None
              "host" "guest" initialHook initialHook)
    as (offer & answer & _ & HemG & Hcu & _).
  - split_and!; intros; simpl; by eauto.
  - reflexivity.
  - reflexivity.
  - exists offer, answer. split; [exact HemG|exact Hcu].
Defined.

(** ** Candidates in arrival order *)

Section Candidates.
Variable B : Browser.



End Candidates.





(** ** Reconnecting and calling again *)

(** After the teardown of a participant, asking for its transport makes a
    new one: a new object in [stable] without descriptions, with the local
    tracks and an empty buffer; nothing of the torn-down one is taken
    over, the candidates it had waiting included. *)
Theorem reconnect_starts_afresh localStream userId connectionState st :
  connectionState = Disconnected ∨ connectionState = Failed →
  let torn := Hook.pc_onconnectionstatechange userId connectionState st in
  let pc := (Hook.createPeerConnection localStream userId torn).1 in
  let st' := (Hook.createPeerConnection localStream userId torn).2 in
  pc_handle pc = nextHandle st
  ∧ nextHandle st' = S (nextHandle st)
  ∧ signalingState pc = Stable
  ∧ localDescription pc = None
  ∧ remoteDescription pc = None
  ∧ attempted pc = []
  ∧ pc_channels pc = []
  ∧ pc_senders pc = default [] localStream
  ∧ peerConnectionsRef st' !! userId = Some pc
  ∧ pendingCandidatesRef st' !! userId = Some []
  ∧ dataChannelsRef st' !! userId = None
  ∧ userId ∉ connectedUsers st'.
Proof.
  intros Hs. cbv zeta.
  set (torn := Hook.pc_onconnectionstatechange userId connectionState st).
  assert (peerConnectionsRef torn !! userId = None
          ∧ pendingCandidatesRef torn !! userId = None
          ∧ dataChannelsRef torn !! userId = None
          ∧ (userId ∉ connectedUsers torn)
          ∧ nextHandle torn = nextHandle st) as (Hp & Hb & Hd & Hc & Hn).
  { subst torn. unfold Hook.pc_onconnectionstatechange.
    rewrite bool_decide_eq_true_2 by done. simpl.
    rewrite !lookup_delete_eq. split_and!; try done.
    unfold without. intros Hin. by apply list_elem_of_filter in Hin as [? _]. }
  destruct (createPeerConnection_new localStream userId torn Hp)
    as (-> & Hp' & Hn' & Hb' & _ & Hd' & Hc' & _).
  destruct (new_transport_fields localStream torn)
    as (Hh & Hss & Hl & Hr & Hch & Hic & Hse).
  rewrite Hp', Hn', Hb', Hd', Hc', lookup_insert_eq.
  unfold attempted, buffer. rewrite Hic, Hb, Hn, Hh, Hn.
  split_and!; done.
Qed.

(** A guest with a candidate waiting fails and is announced again. *)
Lemma reconnect_starts_afresh_witness :
  let torn := Hook.pc_onconnectionstatechange "host" Failed
                (guestWithEarlyCandidate goodBrowser) in
  pendingCandidatesRef (Hook.createPeerConnection None "host" torn).2 !! "host"
  = Some [].
Proof.
  apply (reconnect_starts_afresh None "host" Failed
           (guestWithEarlyCandidate goodBrowser)).
  by right.
Defined.

(** [startCall] for a participant that already has a record makes no
    second transport. It works on the one there is: a host without a
    registered channel for the participant opens the ordered [input]
    channel on it; otherwise no channel is opened. *)
Theorem startCall_reuses_transport B roomId localStream isHost userId st pc :
  let target := Hook.target_or_broadcast userId in
  peerConnectionsRef st !! target = Some pc →
  let st' := Hook.startCall B roomId localStream isHost userId st in
  nextHandle st' = nextHandle st
  ∧ ∃ pc', peerConnectionsRef st' !! target = Some pc'
           ∧ pc_handle pc' = pc_handle pc
           ∧ pc_channels pc'
             = if isHost
                  && negb (bool_decide (is_Some (dataChannelsRef st !! target)))
               then pc_channels pc ++ [("input", true)]
               else pc_channels pc.
Proof.
  intros target Hpc. cbv zeta. unfold Hook.startCall. fold target.
  rewrite (createPeerConnection_existing _ _ _ _ Hpc).
  lazy beta iota zeta.
  destruct (isHost && negb (bool_decide (is_Some (dataChannelsRef st !! target)))).
  - rewrite make_offer_offer_made.
    destruct (offer_made B (PC.createDataChannel "input" true pc))
      as [[o pc']|] eqn:Hom; simpl.
    + split; [done|]. exists pc'. rewrite lookup_insert_eq.
      split_and!; [done| |].
      * by destruct (offer_made_fields B _ _ _ Hom) as (_ & _ & _ & _ & -> & _).
      * by destruct (offer_made_channels B _ _ _ Hom) as (-> & _).
    + split; [done|]. eexists. rewrite lookup_insert_eq. by split_and!.
  - rewrite make_offer_offer_made.
    destruct (offer_made B pc) as [[o pc']|] eqn:Hom; simpl.
    + split; [done|]. exists pc'. rewrite lookup_insert_eq.
      split_and!; [done| |].
      * by destruct (offer_made_fields B _ _ _ Hom) as (_ & _ & _ & _ & -> & _).
      * by destruct (offer_made_channels B _ _ _ Hom) as (-> & _).
    + split; [done|]. by exists pc.
Qed.

(** The host of the examples, who offered on the guest's arrival without
    a channel, is asked to call the guest. *)
Lemma startCall_reuses_transport_witness :
  let st := Hook.startCall goodBrowser room482913 None true (Some "guest")
              hostOffering in
  nextHandle st = 1
  ∧ (pc_channels <$> peerConnectionsRef st !! "guest") = Some [("input", true)].
Proof.
  destruct (startCall_reuses_transport goodBrowser room482913 None true
              (Some "guest") hostOffering
              (mkPC 0 HaveLocalOffer (Some (mkSD SdpOffer "v=0 offer")) None
                    [] [] []))
    as (Hn & pc' & Hpc & _ & Hch); [reflexivity|].
  change (Hook.target_or_broadcast (Some "guest")) with "guest" in *.
  split; [exact Hn|]. rewrite Hpc. simpl. by rewrite Hch.
Defined.

(** ** Guests and offers *)

(** Closes [emitted st' = emitted st] when [st'] is [st] with console lines
    and changed refs. *)
Local Ltac only_console :=
  unfold emitted; simpl; rewrite ?omap_app; simpl; rewrite ?app_nil_r; done.

Lemma guest_step_emits_no_offer B roomId localStream st ev :
  is_startCall ev = false →
  ∃ extra,
    emitted (Hook.step B roomId localStream false st ev) = emitted st ++ extra
    ∧ Forall (λ m, is_offer m = false) extra.
Proof.
  intros Hev.
  assert (∀ st', emitted st' = emitted st →
            ∃ extra, emitted st' = emitted st ++ extra
                     ∧ Forall (λ m, is_offer m = false) extra) as Hsame.
  { intros st' ->. exists []. by rewrite app_nil_r. }
  destruct ev as [u|r|d|d|d|u c|u s|u ch|u s|u|u|u d|u|u|u|e t|];
    unfold Hook.step; try done.
  - exists [EmitRequestOffer roomId]. split; [|by apply Forall_singleton].
    unfold Hook.handleUserConnected.
    by rewrite emitted_socket_emit, !emitted_console.
  - apply Hsame. apply emitted_console.
  - unfold Hook.handleOffer. rewrite createPeerConnection_console.
    pose proof (createPeerConnection_emitted localStream (od_senderId d) st) as Hem.
    set (pc := (Hook.createPeerConnection localStream (od_senderId d) st).1).
    set (st1 := (Hook.createPeerConnection localStream (od_senderId d) st).2) in *.
    lazy beta iota zeta.
    assert (emitted (set_isInitiator false (console LvlLog "Received offer from:" st1))
            = emitted st) as H0.
    { rewrite <- Hem. apply (emitted_console LvlLog "Received offer from:" st1). }
    case_bool_decide.
    { apply Hsame. by rewrite emitted_console. }
    destruct (PC.setRemoteDescription B pc (od_offer d)) as [pc1|].
    2: { apply Hsame. by rewrite emitted_console. }
    destruct (PC.createAnswer B pc1) as [a|].
    2: { apply Hsame. rewrite emitted_console. exact H0. }
    destruct (PC.setLocalDescription B pc1 a) as [pc2|].
    2: { apply Hsame. rewrite emitted_console. exact H0. }
    exists [EmitAnswer roomId a (od_senderId d)].
    split; [|by apply Forall_singleton].
    rewrite drainPending_emitted, emitted_socket_emit. f_equal. exact H0.
  - unfold Hook.handleAnswer. lazy beta iota zeta.
    change (peerConnectionsRef (console LvlLog "Received answer from:" st))
      with (peerConnectionsRef st).
    pose proof (emitted_console LvlLog "Received answer from:" st) as H0.
    destruct (peerConnectionsRef st !! ad_senderId d) as [pc|].
    2: { apply Hsame. by rewrite emitted_console. }
    case_bool_decide.
    { apply Hsame. by rewrite emitted_console. }
    destruct (PC.setRemoteDescription B pc (ad_answer d)) as [pc1|].
    2: { apply Hsame. by rewrite emitted_console. }
    apply Hsame.
    rewrite (proj1 (proj2 (proj2 (setConnectedUsers_frame _ _)))).
    rewrite drainPending_emitted. exact H0.
  - apply Hsame. unfold Hook.handleIceCandidate.
    destruct (peerConnectionsRef st !! cd_senderId d) as [pc|].
    + destruct (remoteDescription pc); [|only_console].
      destruct (PC.addIceCandidate B pc (cd_candidate d)) as [pc' []];
        only_console.
    + only_console.
  - destruct c as [c|]; [|by apply Hsame].
    exists [EmitIceCandidate roomId c u]. split; [|by apply Forall_singleton].
    apply emitted_socket_emit.
  - apply Hsame. only_console.
  - apply Hsame. only_console.
  - apply Hsame. unfold Hook.pc_onconnectionstatechange.
    case_bool_decide; only_console.
  - apply Hsame. unfold Hook.channel_onopen.
    destruct (dataChannelsRef st !! u); only_console.
  - apply Hsame. only_console.
  - apply Hsame. unfold Hook.channel_onmessage. destruct (JSON_parse d).
    + by destruct (inputCallbackRef st).
    + only_console.
  - apply Hsame. only_console.
  - apply Hsame. apply createPeerConnection_emitted.
  - apply Hsame. unfold Hook.sendInputEvent. destruct t as [t|]; [|done].
    case_bool_decide; [done|]. by destruct (dataChannelsRef st !! t).
  - by apply Hsame.
Qed.

(** A hook used as guest never emits an offer unless [startCall] is called
    on it: through any relay messages, transport and channel events and
    other API calls, with any browser, what it emits are requests for an
    offer, answers and candidates. *)
Theorem guests_offer_only_when_called B evs :
  Forall (λ pe, Hook.props_isHost pe.1 = false ∧ is_startCall pe.2 = false) evs →
  Forall (λ m, is_offer m = false) (emitted (Hook.run B evs)).
Proof.
  unfold Hook.run.
  assert (∀ st, Forall (λ m, is_offer m = false) (emitted st) →
            Forall (λ pe, Hook.props_isHost pe.1 = false
                          ∧ is_startCall pe.2 = false) evs →
            Forall (λ m, is_offer m = false)
              (emitted (foldl (λ st pe,
                          Hook.step B (Hook.props_roomId pe.1)
                            (Hook.props_localStream pe.1)
                            (Hook.props_isHost pe.1) st pe.2) st evs))) as Hgen.
  { induction evs as [|[props ev] evs IH]; intros st Hst Hall; simpl; [done|].
    apply Forall_cons in Hall as [[Hguest Hev] Hall]. simpl in Hguest, Hev.
    apply IH; [|done]. rewrite Hguest.
    destruct (guest_step_emits_no_offer B (Hook.props_roomId props)
                (Hook.props_localStream props) st ev Hev) as (extra & -> & Hextra).
    by apply Forall_app. }
  apply Hgen. apply Forall_nil_2.
Qed.

(** A guest is told of a new member, sees a request for an offer, and
    answers the host's offer. *)
Lemma guests_offer_only_when_called_witness :
  let guest := Hook.mkProps room482913 None false in
  Forall (λ m, is_offer m = false)
    (emitted (Hook.run goodBrowser
                [(guest, Hook.EvUserConnected "guest-2");
                 (guest, Hook.EvSendOffer "guest-2");
                 (guest, Hook.EvOffer offerOfHost)])).
Proof.
  apply (guests_offer_only_when_called goodBrowser).
  repeat (apply Forall_cons; split; [by split|]). apply Forall_nil_2.
Defined.

(** ** What the guest page sends *)

Section GuestSends.
Import GuestPage GuestControls.

Lemma within_bounds_coordinates_ok type x y btn now :
  within_bounds x y = true →
  coordinates_ok (pointerEvent type x y btn now) = true.
Proof.
  unfold within_bounds, coordinates_ok, coordinate_ok. simpl.
  destruct (PrimFloat.leb 0 x), (PrimFloat.leb x 100),
    (PrimFloat.leb 0 y), (PrimFloat.leb y 100); done.
Qed.

Lemma broadcast_appends event st userId dc' :
  coordinates_ok event = true →
  dataChannelsRef (Hook.sendInputEvent event None st) !! userId = Some dc' →
  ∃ dc new,
    dataChannelsRef st !! userId = Some dc
    ∧ dc_sent dc' = dc_sent dc ++ new
    ∧ length new ≤ 1
    ∧ Forall well_placed new
    ∧ readyState dc' = readyState dc.
Proof.
  intros Hok. unfold Hook.sendInputEvent. simpl. rewrite lookup_fmap.
  destruct (dataChannelsRef st !! userId) as [dc|]; simpl; [|done].
  intros [= <-]. exists dc. unfold Hook.send_if_open.
  case_bool_decide.
  - exists [JSON_stringify event]. split_and!; try done.
    apply Forall_singleton. by exists event.
  - exists []. split_and!; try done; [by rewrite app_nil_r|simpl; lia].
Qed.

Lemma unchanged_appends (st : HookState) userId dc' :
  dataChannelsRef st !! userId = Some dc' →
  ∃ dc new,
    dataChannelsRef st !! userId = Some dc
    ∧ dc_sent dc' = dc_sent dc ++ new
    ∧ length new ≤ 1
    ∧ Forall well_placed new
    ∧ readyState dc' = readyState dc.
Proof.
  intros Hdc. exists dc', []. split_and!; try done.
  - by rewrite app_nil_r.
  - simpl. lia.
Qed.

End GuestSends.

(** Whatever the user does on the guest page (moving, pressing, clicking,
    scrolling, typing, or using one of the four buttons) each channel gets
    at most one new payload, no channel changes state, and every payload
    that goes out is an input event whose coordinates, if it carries any,
    are inside [0,100]. *)
Theorem guest_page_sends_well_placed now action gs userId dc' :
  dataChannelsRef (GuestPage.hook (GuestControls.act now action gs)) !! userId
  = Some dc' →
  ∃ dc new,
    dataChannelsRef (GuestPage.hook gs) !! userId = Some dc
    ∧ dc_sent dc' = dc_sent dc ++ new
    ∧ length new ≤ 1
    ∧ Forall GuestControls.well_placed new
    ∧ readyState dc' = readyState dc.
Proof.
  destruct action as [rect e|rect e|rect e|rect e|rect e|e|e| | | |];
    unfold GuestControls.act.
  - unfold GuestPage.handleMouseMove.
    destruct (GuestPage.within_bounds _ _) eqn:Hin;
      [|apply unchanged_appends].
    apply broadcast_appends.
    by apply (within_bounds_coordinates_ok mousemove _ _ None now).
  - unfold GuestPage.handleMouseDown, GuestPage.handleButton.
    destruct (GuestPage.within_bounds _ _) eqn:Hin;
      [|apply unchanged_appends].
    apply broadcast_appends.
    by apply (within_bounds_coordinates_ok mousedown _ _ (Some _) now).
  - unfold GuestPage.handleMouseUp, GuestPage.handleButton.
    destruct (GuestPage.within_bounds _ _) eqn:Hin;
      [|apply unchanged_appends].
    apply broadcast_appends.
    by apply (within_bounds_coordinates_ok mouseup _ _ (Some _) now).
  - unfold GuestPage.handleClick, GuestPage.handleButton.
    destruct (GuestPage.within_bounds _ _) eqn:Hin;
      [|apply unchanged_appends].
    apply broadcast_appends.
    by apply (within_bounds_coordinates_ok click _ _ (Some _) now).
  - unfold GuestControls.handleWheel.
    destruct (GuestPage.within_bounds _ _); [|apply unchanged_appends].
    by apply broadcast_appends.
  - by apply broadcast_appends.
  - by apply broadcast_appends.
  - by apply broadcast_appends.
  - by apply broadcast_appends.
  - by apply broadcast_appends.
  - by apply broadcast_appends.
Qed.

(** A click in the middle of the overlay, on the guest with its open
    channel. *)
Lemma guest_page_sends_well_placed_witness :
  ∃ dc new,
    dataChannelsRef (GuestPage.hook guestWithOpenChannel) !! "host" = Some dc
    ∧ [Json (GuestPage.pointerEvent click 50%float 50%float (Some 0%float)
               1%float)]
      = dc_sent dc ++ new
    ∧ length new ≤ 1
    ∧ Forall GuestControls.well_placed new.
Proof.
  destruct (guest_page_sends_well_placed 1%float
              (GuestControls.Click overlay pointerInside) guestWithOpenChannel
              "host"
              (mkDC "input" true DcOpen
                 [Json (GuestPage.pointerEvent click 50%float 50%float
                          (Some 0%float) 1%float)]))
    as (dc & new & Hdc & Hsent & Hlen & Hall & _); [reflexivity|].
  exists dc, new. by split_and!.
Defined.

(** ** An overlay without extent *)

Section FloatFacts.
Import SpecFloat FloatOps FloatAxioms.

Lemma Prim2SF_zero_extent w :
  PrimFloat.eqb w 0%float = true → ∃ s, Prim2SF w = S754_zero s.
Proof.
  rewrite eqb_spec. change (Prim2SF 0%float) with (S754_zero false).
  destruct (Prim2SF w) as [s|s| |s m e]; try (by destruct s); [by exists s|done].
Qed.

Lemma percent_zero_extent client origin extent :
  PrimFloat.eqb extent 0%float = true →
  let x := GuestPage.percent client origin extent in
  PrimFloat.leb 0%float x && PrimFloat.leb x 100%float = false.
Proof.
  intros [s Hs]%Prim2SF_zero_extent. simpl. unfold GuestPage.percent.
  rewrite !leb_spec, mul_spec, div_spec, sub_spec, Hs.
  assert (Prim2SF 100%float = S754_finite false 7036874417766400 (-46)) as ->
    by (vm_compute; reflexivity).
  change (Prim2SF 0%float) with (S754_zero false).
  destruct (SF64sub (Prim2SF client) (Prim2SF origin)) as [s'|s'| |s' m e];
    destruct s; try destruct s'; reflexivity.
Qed.

Lemma ltb_nan_r x : PrimFloat.ltb x PrimFloat.nan = false.
Proof.
  rewrite ltb_spec. change (Prim2SF PrimFloat.nan) with S754_nan.
  by destruct (Prim2SF x).
Qed.

End FloatFacts.

(** While the overlay has no width or no height, the division by its
    extent gives NaN or an infinity, the bounds check fails, and so no
    pointer handler of the guest page sends or changes anything. *)
Theorem zero_extent_sends_nothing rect now e w gs :
  PrimFloat.eqb (GuestPage.rect_width rect) 0%float = true
  ∨ PrimFloat.eqb (GuestPage.rect_height rect) 0%float = true →
  GuestPage.handleMouseMove rect now e gs = gs
  ∧ GuestPage.handleMouseDown rect now e gs = gs
  ∧ GuestPage.handleMouseUp rect now e gs = gs
  ∧ GuestPage.handleClick rect now e gs = gs
  ∧ GuestControls.handleWheel rect now w gs = (gs, false).
Proof.
  intros Hzero.
  assert (∀ cx cy,
            GuestPage.within_bounds
              (GuestPage.percent cx (GuestPage.rect_left rect)
                 (GuestPage.rect_width rect))
              (GuestPage.percent cy (GuestPage.rect_top rect)
                 (GuestPage.rect_height rect)) = false) as Hout.
  { intros cx cy. unfold GuestPage.within_bounds. rewrite <- andb_assoc.
    destruct Hzero as [Hw|Hh].
    - by rewrite (percent_zero_extent cx _ _ Hw).
    - rewrite (percent_zero_extent cy _ _ Hh). apply andb_false_r. }
  unfold GuestPage.handleMouseMove, GuestPage.handleMouseDown,
    GuestPage.handleMouseUp, GuestPage.handleClick, GuestPage.handleButton,
    GuestControls.handleWheel.
  by rewrite !Hout.
Qed.

(** An overlay that has not been laid out yet. *)
Lemma zero_extent_sends_nothing_witness :
  GuestPage.handleClick (GuestPage.mkRect 0%float 0%float 0%float 0%float)
    1%float pointerInside guestWithOpenChannel
  = guestWithOpenChannel.
Proof.
  apply (zero_extent_sends_nothing
           (GuestPage.mkRect 0%float 0%float 0%float 0%float) 1%float
           pointerInside
           (GuestControls.mkWheel 0%float 0%float 0%float) guestWithOpenChannel).
  left. reflexivity.
Defined.

(** ** The input validator *)

Section ValidatorFacts.
Import InputValidator.

Lemma roll_window_within now v :
  (now - lastSecond v ≤ 1000)%Z → roll_window now v = v.
Proof.
  intros Hw. unfold roll_window. rewrite bool_decide_eq_false_2; [done|lia].
Qed.

Lemma roll_window_rules now v : rules (roll_window now v) = rules v.
Proof. unfold roll_window. by case_bool_decide. Qed.

Lemma validate_click now event v :
  ev_type event = click →
  passes_coordinates (rules v) event = true →
  (now - lastSecond v ≤ 1000)%Z →
  validate now event v
  = (if bool_decide
          (clickCount v + 1 > or_default (maxClicksPerSecond (rules v)) 10)%Z
     then Rejected "Click rate limit exceeded" else Accepted,
     mkValidator (clickCount v + 1) (keyCount v) (lastSecond v) (rules v)).
Proof.
  intros Ht Hc Hw. unfold validate. rewrite (roll_window_within _ _ Hw).
  unfold passes_coordinates in Hc. apply andb_true_iff in Hc as [Hx Hy].
  apply negb_true_iff in Hx, Hy. rewrite Hx, Hy, Ht. simpl.
  by case_bool_decide.
Qed.

End ValidatorFacts.

(** Clicks that pass the coordinate checks, validated within one second of
    the start of the window, are let through until the limit of the window
    is used up (ten when the rule is absent or 0) and are all rejected
    after that: the verdict on the i-th call depends only on the count so
    far. *)
Theorem clicks_are_rate_limited calls v i verdict :
  Forall (λ call,
            ev_type call.2 = click
            ∧ InputValidator.passes_coordinates (InputValidator.rules v) call.2
              = true
            ∧ (call.1 - InputValidator.lastSecond v ≤ 1000)%Z) calls →
  (InputValidator.validate_all calls v).1 !! i = Some verdict →
  InputValidator.accepted verdict = true
  ↔ (InputValidator.clickCount v + Z.of_nat i + 1
     ≤ InputValidator.or_default
         (InputValidator.maxClicksPerSecond (InputValidator.rules v)) 10)%Z.
Proof.
  revert v i. induction calls as [|[now event] calls IH]; intros v i Hall Hi.
  { done. }
  apply Forall_cons in Hall as [(Ht & Hc & Hw) Hall]. simpl in Ht, Hc, Hw.
  simpl in Hi. rewrite (validate_click now event v Ht Hc Hw) in Hi.
  set (v1 := InputValidator.mkValidator (InputValidator.clickCount v + 1)
               (InputValidator.keyCount v) (InputValidator.lastSecond v)
               (InputValidator.rules v)) in *.
  specialize (IH v1).
  destruct (InputValidator.validate_all calls v1) as [verdicts v2].
  destruct i as [|i]; simpl in Hi.
  - injection Hi as <-. case_bool_decide as Hlim; simpl.
    + split; [done|]. intros Hle. exfalso. lia.
    + split; [|done]. intros _. lia.
  - rewrite (IH i Hall Hi). simpl. lia.
Qed.

(** Two clicks per second are allowed; of three clicks in one second the
    third is rejected. *)
Lemma clicks_are_rate_limited_witness :
  (InputValidator.validate_all threeClicks twoClicksPerSecond).1
  = [InputValidator.Accepted; InputValidator.Accepted;
     InputValidator.Rejected "Click rate limit exceeded"]
  ∧ (InputValidator.accepted (InputValidator.Rejected "Click rate limit exceeded")
     = true
     ↔ (0 + Z.of_nat 2 + 1 ≤ 2)%Z).
Proof.
  split; [reflexivity|].
  apply (clicks_are_rate_limited threeClicks twoClicksPerSecond 2).
  - repeat (apply Forall_cons; split;
            [split_and!; [reflexivity|reflexivity|by vm_compute]|]).
    apply Forall_nil_2.
  - reflexivity.
Defined.

(** What an accepted event is sure to satisfy: no coordinate it carries is
    below 0 or above the limit, a click is within the click budget of its
    window, and a key event is within the key budget, not on the block
    list, and on the allow list when there is one. *)
Theorem accepted_events_obey_rules now event v :
  (InputValidator.validate now event v).1 = InputValidator.Accepted →
  let v' := (InputValidator.validate now event v).2 in
  let r := InputValidator.rules v in
  InputValidator.passes_coordinates r event = true
  ∧ (ev_type event = click →
       (InputValidator.clickCount v'
        ≤ InputValidator.or_default (InputValidator.maxClicksPerSecond r) 10)%Z)
  ∧ (InputValidator.is_key_event (ev_type event) = true →
       (InputValidator.keyCount v'
        ≤ InputValidator.or_default (InputValidator.maxKeysPerSecond r) 20)%Z
       ∧ (∀ l, InputValidator.blockedKeys r = Some l →
               InputValidator.key_or_empty event ∉ l)
       ∧ (∀ l, InputValidator.allowedKeys r = Some l →
               InputValidator.key_or_empty event ∈ l)).
Proof.
  unfold InputValidator.validate, InputValidator.passes_coordinates.
  rewrite roll_window_rules.
  set (w := InputValidator.roll_window now v).
  set (limit := InputValidator.coordinate_limit _).
  destruct (match ev_x event with
            | Some x => InputValidator.out_of_range limit x
            | None => false
            end); [done|].
  destruct (match ev_y event with
            | Some y => InputValidator.out_of_range limit y
            | None => false
            end); [done|].
  assert (InputValidator.rules w = InputValidator.rules v) as Hr
    by apply roll_window_rules.
  destruct (ev_type event) eqn:Ht; simpl; rewrite ?Hr.
  1,2,3,7: by intros _; split_and!.
  - case_bool_decide as Hrate; simpl; [done|].
    intros _. split_and!; [done| |done]. intros _. lia.
  - case_bool_decide as Hrate; simpl; [done|].
    destruct (InputValidator.blockedKeys (InputValidator.rules v)) as [bl|];
      [case_bool_decide as Hbl; simpl; [done|] |];
      (destruct (InputValidator.allowedKeys (InputValidator.rules v)) as [al|];
       [case_bool_decide as Hal; simpl; [|done] |]);
      intros _; (split_and!; [done|done|]); intros _;
      (split_and!; [simpl; lia| |]); intros l Hl; by simplify_eq.
  - case_bool_decide as Hrate; simpl; [done|].
    destruct (InputValidator.blockedKeys (InputValidator.rules v)) as [bl|];
      [case_bool_decide as Hbl; simpl; [done|] |];
      (destruct (InputValidator.allowedKeys (InputValidator.rules v)) as [al|];
       [case_bool_decide as Hal; simpl; [|done] |]);
      intros _; (split_and!; [done|done|]); intros _;
      (split_and!; [simpl; lia| |]); intros l Hl; by simplify_eq.
Qed.

(** The first of the three clicks. *)
Lemma accepted_events_obey_rules_witness :
  InputValidator.passes_coordinates (InputValidator.rules twoClicksPerSecond)
    centreClick = true.
Proof.
  apply (accepted_events_obey_rules 5100%Z centreClick twoClicksPerSecond).
  reflexivity.
Defined.

(** A position that is not a number gets through both coordinate checks,
    whatever the limit: a pointer move to (NaN, NaN) is accepted by every
    validator at any time. *)
Theorem nan_coordinates_are_accepted now v :
  (InputValidator.validate now moveToNowhere v).1 = InputValidator.Accepted
  ∧ ∀ limit, InputValidator.out_of_range limit PrimFloat.nan = false.
Proof.
  assert (∀ limit, InputValidator.out_of_range limit PrimFloat.nan = false)
    as Hnan.
  { intros limit. unfold InputValidator.out_of_range.
    by rewrite ltb_nan_r. }
  split; [|done]. unfold InputValidator.validate. simpl. by rewrite !Hnan.
Qed.

(** An event turned down for a coordinate costs nothing: the counters are
    as the window check left them. A click or a key press turned down for
    any other reason has been counted, so rejected presses of a blocked
    key use up the key budget of the window. *)
Theorem what_a_rejection_costs now event v :
  let w := InputValidator.roll_window now v in
  let v' := (InputValidator.validate now event v).2 in
  (InputValidator.passes_coordinates (InputValidator.rules v) event = false →
     v' = w
     ∧ InputValidator.accepted (InputValidator.validate now event v).1 = false)
  ∧ (InputValidator.passes_coordinates (InputValidator.rules v) event = true →
       InputValidator.clickCount v'
       = (if bool_decide (ev_type event = click)
          then InputValidator.clickCount w + 1
          else InputValidator.clickCount w)%Z
       ∧ InputValidator.keyCount v'
         = (if InputValidator.is_key_event (ev_type event)
            then InputValidator.keyCount w + 1
            else InputValidator.keyCount w)%Z).
Proof.
  cbv zeta. unfold InputValidator.validate, InputValidator.passes_coordinates.
  rewrite roll_window_rules.
  set (w := InputValidator.roll_window now v).
  set (limit := InputValidator.coordinate_limit _).
  destruct (match ev_x event with
            | Some x => InputValidator.out_of_range limit x
            | None => false
            end); [by split|].
  destruct (match ev_y event with
            | Some y => InputValidator.out_of_range limit y
            | None => false
            end); [by split|].
  split; [done|]. intros _.
  destruct (ev_type event); simpl; try done.
  - by case_bool_decide.
  - case_bool_decide; simpl; [done|].
    destruct (InputValidator.blockedKeys (InputValidator.rules w));
      [case_bool_decide; simpl; [done|] |];
      (destruct (InputValidator.allowedKeys (InputValidator.rules w));
       [case_bool_decide; simpl; done | done]).
  - case_bool_decide; simpl; [done|].
    destruct (InputValidator.blockedKeys (InputValidator.rules w));
      [case_bool_decide; simpl; [done|] |];
      (destruct (InputValidator.allowedKeys (InputValidator.rules w));
       [case_bool_decide; simpl; done | done]).
Qed.

(** A click outside the range, at the validator that allows two clicks. *)
Lemma what_a_rejection_costs_witness :
  (InputValidator.validate 5100%Z strayClick twoClicksPerSecond).2
  = twoClicksPerSecond.
Proof.
  apply (what_a_rejection_costs 5100%Z strayClick twoClicksPerSecond).
  reflexivity.
Defined.

(** ** The throttling sender *)

Section SenderFacts.
Context {V : Type}.
Variable validateInput : option (InputEvent → V → bool * V).
Variable throttleMs : Z.

Lemma shouldSendEvent_held now type (st : RemoteControl.State V) :
  (now - RemoteControl.lastEventTime V st type < throttleMs)%Z →
  RemoteControl.shouldSendEvent V throttleMs now type st = (false, st).
Proof.
  intros Hheld. unfold RemoteControl.shouldSendEvent.
  rewrite bool_decide_eq_false_2; [done|lia].
Qed.

Lemma shouldSendEvent_free now type (st : RemoteControl.State V) :
  (now - RemoteControl.lastEventTime V st type >= throttleMs)%Z →
  RemoteControl.shouldSendEvent V throttleMs now type st
  = (true,
     RemoteControl.mkState V
       (λ t, if bool_decide (t = type) then now
             else RemoteControl.lastEventTime V st t)
       (RemoteControl.coordinateBuffer V st) (RemoteControl.validation V st)
       (RemoteControl.hook V st)).
Proof.
  intros Hfree. unfold RemoteControl.shouldSendEvent.
  by rewrite bool_decide_eq_true_2.
Qed.

End SenderFacts.

(** Without a validation function: an event that is let through is sent
    to every open channel and starts the interval of its type. A second
    event of that type inside the interval changes nothing at all; an
    event of another type is not held back by it. *)
Theorem events_of_a_type_are_spaced throttleMs stamp1 stamp2 now1 now2 type
    other data1 data2 (st : RemoteControl.State unit) :
  (now1 - RemoteControl.lastEventTime unit st type >= throttleMs)%Z →
  (now2 - now1 < throttleMs)%Z →
  other ≠ type →
  (now2 - RemoteControl.lastEventTime unit st other >= throttleMs)%Z →
  let event stamp type data :=
    mkInputEvent type (GuestPage.p_x data) (GuestPage.p_y data)
      (GuestPage.p_button data) (GuestPage.p_key data) (GuestPage.p_code data)
      (GuestPage.p_deltaY data) stamp in
  let first := RemoteControl.sendEvent unit None throttleMs stamp1 now1 type
                 data1 st in
  RemoteControl.hook unit first
  = Hook.sendInputEvent (event stamp1 type data1) None (RemoteControl.hook unit st)
  ∧ RemoteControl.sendEvent unit None throttleMs stamp2 now2 type data2 first
    = first
  ∧ RemoteControl.hook unit
      (RemoteControl.sendEvent unit None throttleMs stamp2 now2 other data2 first)
    = Hook.sendInputEvent (event stamp2 other data2) None
        (RemoteControl.hook unit first).
Proof.
  intros Hfree Hheld Hother Hfree'. cbv zeta.
  unfold RemoteControl.sendEvent. cbn [negb].
  rewrite (shouldSendEvent_free throttleMs now1 type st Hfree). cbn [negb].
  split_and!.
  - done.
  - rewrite shouldSendEvent_held; [done|].
    simpl. rewrite bool_decide_eq_true_2 by done. lia.
  - rewrite shouldSendEvent_free; [done|].
    simpl. by rewrite bool_decide_eq_false_2.
Qed.

(** Two clicks four milliseconds apart, and a key press between them. *)
Lemma events_of_a_type_are_spaced_witness :
  let data := GuestPage.mkPartial (Some 50%float) (Some 50%float)
                (Some 0%float) None None None in
  let first := RemoteControl.sendEvent unit None 16 1%float 1000 click data
                 plainSender in
  RemoteControl.sendEvent unit None 16 2%float 1004 click data first = first.
Proof.
  apply (events_of_a_type_are_spaced 16 1%float 2%float 1000 1004 click keydown
           (GuestPage.mkPartial (Some 50%float) (Some 50%float) (Some 0%float)
              None None None)
           (GuestPage.mkPartial (Some 50%float) (Some 50%float) (Some 0%float)
              None None None)
           plainSender); by vm_compute.
Defined.

(** Validation comes before throttling. An event the validation function
    turns down is not sent and starts no interval, so a valid event of the
    same type that follows at once is sent if the interval before was
    over. *)
Theorem rejected_events_start_no_interval V validate throttleMs stamp1 stamp2
    now1 now2 type data1 data2 (st : RemoteControl.State V) :
  let event stamp data :=
    mkInputEvent type (GuestPage.p_x data) (GuestPage.p_y data)
      (GuestPage.p_button data) (GuestPage.p_key data) (GuestPage.p_code data)
      (GuestPage.p_deltaY data) stamp in
  let verdict1 := validate (event stamp1 data1) (RemoteControl.validation V st) in
  verdict1.1 = false →
  (validate (event stamp2 data2) verdict1.2).1 = true →
  (now2 - RemoteControl.lastEventTime V st type >= throttleMs)%Z →
  let first := RemoteControl.sendEvent V (Some validate) throttleMs stamp1 now1
                 type data1 st in
  RemoteControl.hook V first = RemoteControl.hook V st
  ∧ RemoteControl.lastEventTime V first = RemoteControl.lastEventTime V st
  ∧ RemoteControl.hook V
      (RemoteControl.sendEvent V (Some validate) throttleMs stamp2 now2 type
         data2 first)
    = Hook.sendInputEvent (event stamp2 data2) None (RemoteControl.hook V st).
Proof.
  intros event verdict1 Hrej Hok Hfree. cbv zeta.
  unfold RemoteControl.sendEvent. fold (event stamp1 data1).
  fold verdict1. destruct verdict1 as [ok1 v1] eqn:Hv1. simpl in Hrej, Hok.
  subst ok1. cbn [negb]. split_and!; [done|done|].
  cbn [RemoteControl.validation]. fold (event stamp2 data2).
  destruct (validate (event stamp2 data2) v1) as [ok2 v2]. simpl in Hok.
  subst ok2. cbn [negb].
  rewrite shouldSendEvent_free; done.
Qed.

(** The validator of the examples as validation function: a click outside
    the range, then one in the middle of the screen. *)
Lemma rejected_events_start_no_interval_witness :
  let sender := RemoteControl.initialState InputValidator.Validator
                  twoClicksPerSecond (GuestPage.hook guestWithOpenChannel) in
  let outside := GuestPage.mkPartial (Some 150%float) (Some 50%float)
                   (Some 0%float) None None None in
  let first := RemoteControl.sendEvent InputValidator.Validator
                 (Some (validator_as_function 5100)) 16 1%float 5100 click
                 outside sender in
  RemoteControl.hook InputValidator.Validator first
  = GuestPage.hook guestWithOpenChannel.
Proof.
  apply (rejected_events_start_no_interval InputValidator.Validator
           (validator_as_function 5100) 16 1%float 2%float 5100 5100 click
           (GuestPage.mkPartial (Some 150%float) (Some 50%float) (Some 0%float)
              None None None)
           (GuestPage.mkPartial (Some 50%float) (Some 50%float) (Some 0%float)
              None None None)
           (RemoteControl.initialState InputValidator.Validator
              twoClicksPerSecond (GuestPage.hook guestWithOpenChannel)));
    by vm_compute.
Defined.

(** The dead zone of [captureInput] follows the pointer even when the move
    is not sent: a move of more than one percent that falls inside the
    throttle interval is dropped, yet the position the dead zone is measured
    from becomes the new one. *)
Theorem dead_zone_follows_dropped_moves throttleMs rect stamp now e x y
    (st : RemoteControl.State unit) :
  RemoteControl.getCoordinates rect e = Some (x, y) →
  PrimFloat.ltb 1%float
    (PrimFloat.abs (PrimFloat.sub x (RemoteControl.coordinateBuffer unit st).1))
  || PrimFloat.ltb 1%float
       (PrimFloat.abs (PrimFloat.sub y (RemoteControl.coordinateBuffer unit st).2))
  = true →
  (now - RemoteControl.lastEventTime unit st mousemove < throttleMs)%Z →
  let st' := RemoteControl.handleMouseMove unit None throttleMs rect stamp now e
               st in
  RemoteControl.coordinateBuffer unit st' = (x, y)
  ∧ RemoteControl.hook unit st' = RemoteControl.hook unit st
  ∧ RemoteControl.lastEventTime unit st' = RemoteControl.lastEventTime unit st.
Proof.
  intros Hxy Hfar Hheld. cbv zeta. unfold RemoteControl.handleMouseMove.
  rewrite Hxy, Hfar. unfold RemoteControl.sendEvent. cbn [negb].
  rewrite shouldSendEvent_held; done.
Qed.

(** A second move three milliseconds after the first one was sent. *)
Lemma dead_zone_follows_dropped_moves_witness :
  let st := RemoteControl.handleMouseMove unit None 16 overlay 2%float 1003
              pointerElsewhere plainSenderAfterMove in
  RemoteControl.coordinateBuffer unit st = (20%float, 10%float)
  ∧ RemoteControl.hook unit st = RemoteControl.hook unit plainSenderAfterMove.
Proof.
  destruct (dead_zone_follows_dropped_moves 16 overlay 2%float 1003
              pointerElsewhere 20%float 10%float plainSenderAfterMove)
    as (Hbuffer & Hhook & _); [by vm_compute..|].
  split; [exact Hbuffer|exact Hhook].
Defined.
